(** * pirati: one-step coupled evolution of pirates, ships and police vessels

    A shallow embedding of [src/lib/evolution.py] and of the cut-off
    function, the direction field and the mollifier of
    [src/simulations/prova/parameters.py], together with the small part of
    numpy and scipy.signal these two files call.

    Numbers.  The Python code computes with binary64 floats.  The embedding is
    written once over an interface [Scalar] of the operations the code uses and
    is instantiated with Rocq's primitive binary64 floats, the arithmetic
    of the code, in which the statements about values are made and run.
    A second instance, [Z], has another division and another square root;
    it serves only to run statements about shapes and about the heap, which
    hold for every instance.

    Exceptions.  Every Python function that may raise is a function into
    [result]; statements are sequenced with [bind] in source order.

    Objects.  A second embedding of the orchestrator, in the module
    [objects], keeps the arrays and the lists in a heap and is shown to
    compute what the first one computes. *)

From Stdlib Require Import String Ascii DecimalString.
From Stdlib Require Import List ZArith Lia Bool Arith Floats.
Import ListNotations.

Set Warnings "-inexact-float".

(** ** Exceptions *)

Inductive exn : Type :=
| AssertionError
| IndexError
| ValueError
| TypeError
| OverflowError.

Inductive result (A : Type) : Type :=
| Ok (a : A)
| Raise (e : exn).

Arguments Ok {A} a.
Arguments Raise {A} e.

Definition bind {A B : Type} (m : result A) (k : A -> result B) : result B :=
  match m with
  | Ok a => k a
  | Raise e => Raise e
  end.

Notation "x <- m ;; k" := (bind m (fun x => k))
  (at level 61, m at next level, right associativity).
Notation "' pat <- m ;; k" := (bind m (fun x => match x with pat => k end))
  (at level 61, pat pattern, m at next level, right associativity).

(** Python's [assert]. *)
Definition assert (b : bool) : result unit :=
  if b then Ok tt else Raise AssertionError.

Definition is_ok {A : Type} (m : result A) : bool :=
  match m with Ok _ => true | Raise _ => false end.

(** Indexing a Python sequence with a non-negative index. *)
Definition index {A : Type} (l : list A) (i : nat) : result A :=
  match nth_error l i with
  | Some x => Ok x
  | None => Raise IndexError
  end.

(** [for i in xrange(len(l)): st = body(i, l[i], st)]: the loop over the
    indices of a list, which reads the list only at the loop index. *)
Fixpoint for_enum {A St : Type} (body : nat -> A -> St -> result St)
    (i : nat) (l : list A) (st : St) : result St :=
  match l with
  | [] => Ok st
  | x :: l' => st' <- body i x st ;; for_enum body (S i) l' st'
  end.

(** ** Scalars *)

Class Scalar (F : Type) : Type := {
  zero : F;
  add : F -> F -> F;
  sub : F -> F -> F;
  mul : F -> F -> F;
  div : F -> F -> F;
  neg : F -> F;
  sqrt : F -> F;
  ltb : F -> F -> bool;
  (** the float a Python [int] is converted to in mixed arithmetic *)
  of_nat : nat -> F
}.

#[export] Instance Scalar_float : Scalar float := {
  zero := 0%float;
  add := PrimFloat.add;
  sub := PrimFloat.sub;
  mul := PrimFloat.mul;
  div := PrimFloat.div;
  neg := PrimFloat.opp;
  sqrt := PrimFloat.sqrt;
  ltb := PrimFloat.ltb;
  of_nat := fun n => PrimFloat.of_uint63 (Uint63.of_Z (Z.of_nat n))
}.

(** The integers, with floor division and the floor of the square root:
    not the arithmetic of the code. *)
#[export] Instance Scalar_Z : Scalar Z := {
  zero := 0%Z;
  add := Z.add;
  sub := Z.sub;
  mul := Z.mul;
  div := Z.div;
  neg := Z.opp;
  sqrt := Z.sqrt;
  ltb := Z.ltb;
  of_nat := Z.of_nat
}.

(** ** Two-dimensional arrays

    A numpy array of two dimensions: its shape and its cells in row-major
    order.  Axis 0 (rows) is the y-axis of the mesh, axis 1 (columns) the
    x-axis. *)

Record ndarray (F : Type) : Type := mk_ndarray {
  nrows : nat;
  ncols : nat;
  cells : list F
}.

Arguments mk_ndarray {F} nrows ncols cells.
Arguments nrows {F} n.
Arguments ncols {F} n.
Arguments cells {F} n.

Module numpy.
Section Arrays.
Context {F : Type} {Sc : Scalar F}.

Definition shape (a : ndarray F) : nat * nat := (nrows a, ncols a).

Definition shape_eqb (s t : nat * nat) : bool :=
    Nat.eqb (fst s) (fst t) && Nat.eqb (snd s) (snd t).

  (** [a[i][j]] for in-range indices. *)
Definition get (a : ndarray F) (i j : nat) : F :=
    nth (i * ncols a + j) (cells a) zero.

  (** The array of shape [(m, n)] whose cell [(i, j)] is [f i j]. *)
Definition tab (m n : nat) (f : nat -> nat -> F) : ndarray F :=
    mk_ndarray m n (flat_map (fun i => map (f i) (seq 0 n)) (seq 0 m)).

Definition wf (a : ndarray F) : Prop :=
    length (cells a) = nrows a * ncols a.

Definition zeros_like (a : ndarray F) : ndarray F :=
    tab (nrows a) (ncols a) (fun _ _ => zero).

  (** Element-wise unary operations, and binary operations with a scalar. *)
Definition amap (f : F -> F) (a : ndarray F) : ndarray F :=
    tab (nrows a) (ncols a) (fun i j => f (get a i j)).

  (** Element-wise binary operations.  Operands of different shapes raise;
      numpy's broadcasting of axes of length one is not modelled. *)
Definition amap2 (f : F -> F -> F) (a b : ndarray F) : result (ndarray F) :=
    if shape_eqb (shape a) (shape b)
    then Ok (tab (nrows a) (ncols a) (fun i j => f (get a i j) (get b i j)))
    else Raise ValueError.

  (** The eight partial sums of numpy's unrolled loop: each of the next
      [blocks] blocks of eight numbers is added to [r], entry by entry. *)
Fixpoint add8 (blocks : nat) (r l : list F) : list F * list F :=
    match blocks with
    | 0 => (r, l)
    | S blocks' =>
        add8 blocks'
             (map (fun rv => add (fst rv) (snd rv)) (combine r (firstn 8 l)))
             (skipn 8 l)
    end.

  (** From 8 to 128 numbers: the partial sums [r[0..7]] over the full
      blocks of eight are added as
      [((r0 + r1) + (r2 + r3)) + ((r4 + r5) + (r6 + r7))], then the numbers
      left over are added one by one. *)
Definition sum_unrolled (l : list F) : F :=
    let '(r, rest) := add8 (length l / 8 - 1) (firstn 8 l) (skipn 8 l) in
    let r_ := fun k => nth k r zero in
    fold_left add rest
      (add (add (add (r_ 0) (r_ 1)) (add (r_ 2) (r_ 3)))
           (add (add (r_ 4) (r_ 5)) (add (r_ 6) (r_ 7)))).

  (** numpy's [pairwise_sum] of [n] numbers that lie next to each other in
      memory: fewer than eight are added from left to right starting from
      [0.]; up to 128 go through the unrolled loop; a longer run is cut at
      [n / 2] rounded down to a multiple of eight and the sums of the two
      parts are added.  [fuel] bounds the depth of the cutting; the length
      of the run is enough. *)
Fixpoint pairwise_sum (fuel : nat) (l : list F) : F :=
    if Nat.ltb (length l) 8 then fold_left add l zero
    else if Nat.leb (length l) 128 then sum_unrolled l
    else match fuel with
         | 0 => zero
         | S fuel' =>
             let n2 := length l / 2 - (length l / 2) mod 8 in
             add (pairwise_sum fuel' (firstn n2 l))
                 (pairwise_sum fuel' (skipn n2 l))
         end.

  (** [add.reduce] of a run: the result starts from the identity [0.] and
      receives the pairwise sum. *)
Definition sum_list (l : list F) : F :=
    add zero (pairwise_sum (length l) l).

  (** [numpy.sum] of all cells of a C-contiguous array: one run over the
      cells in row-major order. *)
Definition sum (a : ndarray F) : F :=
    sum_list (cells a).

  (** One component of [numpy.gradient] with a scalar spacing [h] and
      [edge_order = 1]: second-order central differences in the interior,
      first-order one-sided differences at the two ends of the axis.
      [len] is the length of the axis, [k] the index along it, and [at_ k']
      reads the cell whose index along the axis is [k']. *)
Definition diff1 (len k : nat) (h : F) (at_ : nat -> F) : F :=
    if Nat.eqb k 0 then div (sub (at_ 1) (at_ 0)) h
    else if Nat.eqb k (len - 1) then div (sub (at_ (len - 1)) (at_ (len - 2))) h
    else div (sub (at_ (k + 1)) (at_ (k - 1))) (mul (of_nat 2) h).

  (** [numpy.gradient(f, d0, d1)]: the derivative along axis 0 with spacing
      [d0] and along axis 1 with spacing [d1].  An axis shorter than two
      cells raises [ValueError]. *)
Definition gradient (f : ndarray F) (d0 d1 : F)
    : result (ndarray F * ndarray F) :=
    if (Nat.ltb (nrows f) 2 || Nat.ltb (ncols f) 2)%bool then Raise ValueError
    else
      Ok (tab (nrows f) (ncols f)
              (fun i j => diff1 (nrows f) i d0 (fun i' => get f i' j)),
          tab (nrows f) (ncols f)
              (fun i j => diff1 (ncols f) j d1 (fun j' => get f i j'))).
End Arrays.
End numpy.

Module scipy_signal.
Section Convolve.
Context {F : Type} {Sc : Scalar F}.

  (** The cell of [in1] a kernel cell meets, [fillvalue = 0] outside [in1]:
      the index is [c - j] along an axis of length [len]. *)
Definition in_range (c j len : nat) : bool :=
    Nat.leb j c && Nat.ltb (c - j) len.

Definition padded (in1 : ndarray F) (c0 j c1 k : nat) : F :=
    if in_range c0 j (nrows in1) && in_range c1 k (ncols in1)
    then numpy.get in1 (c0 - j) (c1 - k)
    else zero.

  (** [scipy.signal.convolve2d(in1, in2, mode='same')] with the default
      [boundary='fill', fillvalue=0]: the output has the shape of [in1] and
      is centred in the full convolution,
      [out[m][n] = sum_j sum_k in2[j][k] * in1[m + c0 - j][n + c1 - k]]
      with [c0 = (K0-1)/2] and [c1 = (K1-1)/2]. *)
Definition convolve2d_same (in1 in2 : ndarray F) : ndarray F :=
    numpy.tab (nrows in1) (ncols in1) (fun m n =>
      fold_left (fun acc j =>
        fold_left (fun acc' k =>
          add acc' (mul (numpy.get in2 j k)
                        (padded in1 (m + (nrows in2 - 1) / 2) j
                                    (n + (ncols in2 - 1) / 2) k)))
          (seq 0 (ncols in2)) acc)
        (seq 0 (nrows in2)) zero).
End Convolve.
End scipy_signal.

(** ** The steppers of pde.py and ode.py

    evolution.py imports [pde] and [ode]; neither module is among the
    sources.  The steppers below follow sections 4.2 to 4.4 of the
    specification. *)

Module pde.
Import numpy.
Section Steppers.
Context {F : Type} {Sc : Scalar F}.
Abbreviation array := (ndarray F).

  (** Modelled from the spec: [pde.one_step_parabolic], missing from the
      sources.  "Returns the next field via a single explicit forward-time
      update combining the flux term and source term, scaled by dt, added to
      the current field." *)
Definition one_step_parabolic (p_density xx yy div f : array)
      (dx dy dt : F) : result array :=
    rate <- amap2 add div f ;;
    amap2 add p_density (amap (mul dt) rate).

  (** The one-sided difference of [flux] along an axis at index [k], taken
      against the direction of the velocity [v]; an index that would leave
      the axis stays on its last cell. *)
Definition upwind (len k : nat) (v h : F) (flux : nat -> F) : F :=
    if ltb v zero
    then div (sub (flux (Nat.min (k + 1) (len - 1))) (flux k)) h
    else div (sub (flux k) (flux (k - 1))) h.

  (** Modelled from the spec: [pde.one_step_hyperbolic], missing from the
      sources.  "new = old - dt * divergence(speed(old) * velocity * old),
      discretized with an upwind bias based on velocity sign."  The
      specification does not fix the treatment of the boundary cells. *)
Definition one_step_hyperbolic (s_density : array) (velocity : F -> F)
      (vel_x vel_y : array) (dx dy dt : F) : result array :=
    t <- amap2 mul (amap velocity s_density) vel_x ;;
    flux_x <- amap2 mul t s_density ;;
    t <- amap2 mul (amap velocity s_density) vel_y ;;
    flux_y <- amap2 mul t s_density ;;
    let div :=
      tab (nrows s_density) (ncols s_density) (fun i j =>
        add (upwind (ncols s_density) j (get vel_x i j) dx
                    (fun j' => get flux_x i j'))
            (upwind (nrows s_density) i (get vel_y i j) dy
                    (fun i' => get flux_y i' j))) in
    amap2 sub s_density (amap (mul dt) div).
End Steppers.
End pde.

Module ode.
Section Stepper.
Context {F : Type} {Sc : Scalar F}.

  (** Modelled from the spec: [ode.ode], missing from the sources.  "Given
      net force components (Fx, Fy), current position (x, y), and dt, returns
      the updated position via explicit forward-Euler integration:
      (x + dt*Fx, y + dt*Fy)." *)
Definition ode (F_x F_y : F) (position : F * F) (dt : F) : F * F :=
    (add (fst position) (mul dt F_x), add (snd position) (mul dt F_y)).
End Stepper.
End ode.

(** ** src/lib/evolution.py *)

Module evolution.
Import numpy scipy_signal.
Section OneStep.
Context {F : Type} {Sc : Scalar F}.
Abbreviation array := (ndarray F).

  (** The steppers [pde.one_step_parabolic], [pde.one_step_hyperbolic] and
      [ode.ode] are imported by evolution.py from modules that are not among
      the sources; the orchestrator is embedded over arbitrary steppers. *)
Variable one_step_parabolic :
    array -> array -> array -> array -> array -> F -> F -> F -> result array.
Variable one_step_hyperbolic :
    array -> (F -> F) -> array -> array -> F -> F -> F -> result array.
Variable ode : F -> F -> F * F -> F -> result (F * F).

  (** The callables handed to the orchestrator. *)
Variable cut_off : array -> array -> result array.
Variable kappa : array -> result array.

  (** Python's builtin [sum(i[k] for i in police)], which starts from the
      integer 0. *)
Definition police_sum (proj : F * F -> F) (police : list (F * F)) : F :=
    fold_left (fun acc i => add acc (proj i)) police (of_nat 0).

  (** Lines 62-68: the flux of the pirates. *)
Definition pirate_flux (p_density s_density p_kernel : array) (dx dy : F)
    : result (array * array) :=
    let p_convolution :=
      amap (mul (mul dx dy)) (convolve2d_same s_density p_kernel) in
    '(grad_py, grad_px) <- gradient p_convolution dy dx ;;
    sq <- amap2 add (amap (fun v => mul v v) grad_px)
                    (amap (fun v => mul v v) grad_py) ;;
    let norm_grad_p_convolution := amap sqrt sq in
    k <- kappa norm_grad_p_convolution ;;
    t <- amap2 mul k grad_px ;;
    flux_x <- amap2 mul t p_density ;;
    k <- kappa norm_grad_p_convolution ;;
    t <- amap2 mul k grad_py ;;
    flux_y <- amap2 mul t p_density ;;
    Ok (flux_x, flux_y).

  (** Lines 70-72: [div = - div1 - div2]. *)
Definition divergence (flux_x flux_y : array) (dx dy : F) : result array :=
    '(trash, div1) <- gradient flux_x dy dx ;;
    '(div2, trash) <- gradient flux_y dy dx ;;
    amap2 sub (amap neg div1) div2.

  (** Lines 76-78: the term depending on the police. *)
Definition police_source (xx yy : array) (a : list F)
      (police : list (F * F)) : result array :=
    for_enum (fun i police_i f =>
        a_i <- index a i ;;
        c <- cut_off (amap (fun v => sub v (fst police_i)) xx)
                     (amap (fun v => sub v (snd police_i)) yy) ;;
        amap2 add f (amap (mul a_i) c))
      0 police (zeros_like xx).

  (** The cut-off functions centred at the police vessels, in list order. *)
Definition cut_offs_at (xx yy : ndarray F) (police : list (F * F))
    (cs : list (ndarray F)) : Prop :=
  Forall2 (fun police_i c =>
             cut_off (amap (fun v => sub v (fst police_i)) xx)
                     (amap (fun v => sub v (snd police_i)) yy) = Ok c)
          police cs.

(** The value at one cell of an accumulator that starts from [start] and
    receives [a_i * c_i] for each pair of [acs]. *)
Definition weighted_sum_at (r c : nat) (acs : list (F * ndarray F))
    (start : F) : F :=
  fold_left (fun acc ac => add acc (mul (fst ac) (get (snd ac) r c))) acs start.

(** The value at one cell of an accumulator that starts from [start] and
    receives [c_i * (coord(police_i) - mesh)] for each pair of [pcs]. *)
Definition repulsion_at (coord : F * F -> F) (mesh : ndarray F) (r c : nat)
    (pcs : list (F * F * ndarray F)) (start : F) : F :=
  fold_left (fun acc pc =>
               add acc (mul (get (snd pc) r c)
                            (sub (coord (fst pc)) (get mesh r c))))
            pcs start.

(** Lines 92-96: the velocity of the ships due to the police. *)
Definition cal_I2 (xx yy : array) (police : list (F * F))
    : result (array * array) :=
    for_enum (fun i police_i '(cal_I2_x, cal_I2_y) =>
        c <- cut_off (amap (fun v => sub v (fst police_i)) xx)
                     (amap (fun v => sub v (snd police_i)) yy) ;;
        t <- amap2 mul c (amap (fun v => sub (fst police_i) v) xx) ;;
        cal_I2_x <- amap2 add cal_I2_x t ;;
        c <- cut_off (amap (fun v => sub v (fst police_i)) xx)
                     (amap (fun v => sub v (snd police_i)) yy) ;;
        t <- amap2 mul c (amap (fun v => sub (snd police_i) v) yy) ;;
        cal_I2_y <- amap2 add cal_I2_y t ;;
        Ok (cal_I2_x, cal_I2_y))
      0 police (zeros_like xx, zeros_like xx).

  (** Lines 89-101: the velocity field of the ships. *)
Definition ship_velocity (p_density xx yy : array) (police : list (F * F))
      (dx dy : F) (nu_x nu_y : array) : result (array * array) :=
    c <- cut_off xx yy ;;
    k <- amap2 mul xx c ;;
    let cal_I1_x :=
      amap (mul (mul (neg dx) dy)) (convolve2d_same p_density k) in
    c <- cut_off xx yy ;;
    k <- amap2 mul yy c ;;
    let cal_I1_y :=
      amap (mul (mul (neg dx) dy)) (convolve2d_same p_density k) in
    '(cal_I2_x, cal_I2_y) <- cal_I2 xx yy police ;;
    cal_I_x <- amap2 add cal_I1_x cal_I2_x ;;
    cal_I_y <- amap2 add cal_I1_y cal_I2_y ;;
    vel_x <- amap2 add cal_I_x nu_x ;;
    vel_y <- amap2 add cal_I_y nu_y ;;
    Ok (vel_x, vel_y).

  (** Lines 111-113: the force on the vessel at [police_i] due to the
      densities. *)
Definition force_F1 (p_density s_density xx yy : array) (dx dy : F)
      (police_i : F * F) : result (F * F) :=
    c <- cut_off (amap (fun v => sub (fst police_i) v) xx)
                 (amap (fun v => sub (snd police_i) v) yy) ;;
    t <- amap2 mul c p_density ;;
    temp <- amap2 mul t s_density ;;
    t <- amap2 mul temp (amap (fun v => sub v (fst police_i)) xx) ;;
    let F1_x := mul (mul dx dy) (sum t) in
    t <- amap2 mul temp (amap (fun v => sub v (snd police_i)) yy) ;;
    let F1_y := mul (mul dx dy) (sum t) in
    Ok (F1_x, F1_y).

  (** Lines 118-119: the force towards the other vessels. *)
Definition force_F2 (police_sum_x police_sum_y : F) (M : nat)
      (police_i : F * F) : F * F :=
    (sub police_sum_x (mul (of_nat M) (fst police_i)),
     sub police_sum_y (mul (of_nat M) (snd police_i))).

  (** Lines 121-122: the control, [0.]. *)
Definition force_F3 : F * F := (zero, zero).

  (** What the loop over the police computes for one vessel: the stepper is
    called with the sum of the three forces, at the old position. *)
Definition police_update (p_density s_density xx yy : ndarray F)
    (dx dy dt : F) (police : list (F * F)) (police_i q : F * F) : Prop :=
  exists F1_x F1_y,
    force_F1 p_density s_density xx yy dx dy police_i
      = Ok (F1_x, F1_y) /\
    ode (add (add F1_x (sub (police_sum fst police)
                            (mul (of_nat (length police)) (fst police_i))))
             zero)
        (add (add F1_y (sub (police_sum snd police)
                            (mul (of_nat (length police)) (snd police_i))))
             zero)
        police_i dt = Ok q.

(** Lines 109-124: the new positions of the police. *)
Definition police_step (p_density s_density xx yy : array) (dx dy dt : F)
      (police_sum_x police_sum_y : F) (M : nat) (police : list (F * F))
    : result (list (F * F)) :=
    for_enum (fun i police_i police_new =>
        '(F1_x, F1_y) <- force_F1 p_density s_density xx yy dx dy police_i ;;
        let '(F2_x, F2_y) := force_F2 police_sum_x police_sum_y M police_i in
        let '(F3_x, F3_y) := force_F3 in
        q <- ode (add (add F1_x F2_x) F3_x) (add (add F1_y F2_y) F3_y)
                 police_i dt ;;
        Ok (police_new ++ [q]))
      0 police [].

Definition one_step_evolution (p_density s_density : array)
      (police : list (F * F)) (xx yy p_kernel : array) (dx dy dt : F)
      (a : list F) (velocity : F -> F) (nu_x nu_y : array)
    : result (array * array * list (F * F)) :=
    (* some checks *)
    let shape_p_density := shape p_density in
    _ <- assert (shape_eqb shape_p_density (shape s_density)) ;;
    _ <- assert (shape_eqb shape_p_density (shape xx)) ;;
    _ <- assert (shape_eqb shape_p_density (shape yy)) ;;
    _ <- assert (shape_eqb shape_p_density (shape yy)) ;;
    let police_sum_x := police_sum fst police in
    let police_sum_y := police_sum snd police in
    let M := length police in
    (* evolution of pirate density *)
    '(flux_x, flux_y) <- pirate_flux p_density s_density p_kernel dx dy ;;
    div <- divergence flux_x flux_y dx dy ;;
    f <- police_source xx yy a police ;;
    p_new <- one_step_parabolic p_density xx yy div (amap neg f) dx dy dt ;;
    (* evolution of ship density *)
    '(vel_x, vel_y) <- ship_velocity p_density xx yy police dx dy nu_x nu_y ;;
    s_new <- one_step_hyperbolic s_density velocity vel_x vel_y dx dy dt ;;
    (* evolution of police position *)
    police_new <- police_step p_density s_density xx yy dx dy dt
                              police_sum_x police_sum_y M police ;;
    Ok (p_new, s_new, police_new).

  (** *** The driver *)

  (** The object [pirates] the driver reads its data from. *)
Record pirates_class : Type := {
    initial_density_pirates : array;
    initial_density_ships : array;
    police_initial_positions : list (F * F);
    time : list F;
    x_mesh : array;
    y_mesh : array;
    kernel_mathcal_K : array;
    dx : F;
    dy : F;
    dt : F;
    a : list F;
    ships_speed : F -> F;
    x : list F;
    y : list F;
    ships_direction : list F -> list F -> result (array * array);
    printing : list bool;
    base_directory : string
  }.

  (** What a call of a Python function evaluates to. *)
Inductive py_value : Type :=
  | PyNone
  | PyTuple (p_new s_new : array) (police_new : list (F * F)).

  (** [save.solution_Save] writes a snapshot; the module is not among the
      sources.  [World] is whatever the persistence layer acts on. *)
Variable World : Type.
Variable solution_Save :
    string -> string -> F -> array -> array -> list (F * F) ->
    World -> result World.

  (** [str(n).zfill(width)] for a non-negative [n]. *)
Definition str (n : nat) : string :=
    DecimalString.NilZero.string_of_uint (Nat.to_uint n).

Definition zfill (width : nat) (s : string) : string :=
    String.concat "" (repeat "0"%string (width - String.length s)) ++ s.

  (** The variables the loop of the driver updates. *)
Record loop_state : Type := {
    p_density : array;
    s_density : array;
    police : list (F * F);
    print_number : nat;
    world : World
  }.

  (** Lines 159-168: the body of the loop, at index [i] with [time[i]]. *)
Definition evolution_body (pirates : pirates_class) (i : nat) (time_i : F)
      (st : loop_state) : result loop_state :=
    nu_0 <- ships_direction pirates (x pirates) (y pirates) ;;
    nu_1 <- ships_direction pirates (x pirates) (y pirates) ;;
    '(p, s, pol) <- one_step_evolution (p_density st) (s_density st)
        (police st) (x_mesh pirates) (y_mesh pirates)
        (kernel_mathcal_K pirates) (dx pirates) (dy pirates) (dt pirates)
        (a pirates) (ships_speed pirates) (fst nu_0) (snd nu_1) ;;
    printing_i <- index (printing pirates) i ;;
    if (printing_i : bool) then
      let name := ("saving_" ++ zfill 4 (str (print_number st)))%string in
      w <- solution_Save (base_directory pirates) name time_i p s pol
                         (world st) ;;
      Ok {| p_density := p; s_density := s; police := pol;
            print_number := print_number st + 1; world := w |}
    else
      Ok {| p_density := p; s_density := s; police := pol;
            print_number := print_number st; world := world st |}.

  (** [n] successive one-step evolutions of a state, without the printing. *)
Fixpoint steps (pirates : pirates_class) (n : nat)
    (st : array * array * list (F * F))
  : result (array * array * list (F * F)) :=
  match n with
  | 0 => Ok st
  | S n' =>
      nu_0 <- ships_direction pirates (x pirates) (y pirates) ;;
      nu_1 <- ships_direction pirates (x pirates) (y pirates) ;;
      st' <- one_step_evolution (fst (fst st)) (snd (fst st)) (snd st)
               (x_mesh pirates) (y_mesh pirates) (kernel_mathcal_K pirates)
               (dx pirates) (dy pirates) (dt pirates) (a pirates)
               (ships_speed pirates) (fst nu_0) (snd nu_1) ;;
      steps pirates n' st'
  end.

(** The number of snapshots asked for at the indices [i .. i + n - 1]. *)
Fixpoint prints (printing : list bool) (i n : nat) : nat :=
  match n with
  | 0 => 0
  | S n' => (if nth i printing false then 1 else 0) + prints printing (S i) n'
  end.

(** Lines 152-168: the state after the loop
      [for i in xrange(1, len(pirates.time))]. *)
Definition evolution_loop (pirates : pirates_class) (w : World)
    : result loop_state :=
    for_enum (evolution_body pirates) 1 (tl (time pirates))
      {| p_density := initial_density_pirates pirates;
         s_density := initial_density_ships pirates;
         police := police_initial_positions pirates;
         print_number := 1;
         world := w |}.

  (** [evolution(pirates)]: the function ends after the loop without a
      [return] statement. *)
Definition evolution (pirates : pirates_class) (w : World)
    : result (py_value * World) :=
    st <- evolution_loop pirates w ;;
    Ok (PyNone, world st).
End OneStep.

Arguments p_density {F World} _.
Arguments s_density {F World} _.
Arguments police {F World} _.
Arguments print_number {F World} _.
Arguments world {F World} _.
Arguments evolution_body {F Sc} _ _ _ _ _ {World} _ _ _ _ _.
Arguments evolution_loop {F Sc} _ _ _ _ _ {World} _ _ _.
Arguments evolution {F Sc} _ _ _ _ _ {World} _ _ _.
End evolution.

(** ** The orchestrator on Python objects

    In Python an array and a list are objects reached through references,
    and [f += t] and [l.append(q)] change the object in place.  This second
    embedding of [one_step_evolution] keeps the objects in a heap: every
    numpy operation loads its operands and builds a new object, the two
    in-place statements store into the object they are applied to.

    The callables ([cut_off], [kappa]) and the steppers are the functions of
    the first embedding: they read their arguments and build a new object
    (sections 2 and 5 of the specification: pure functions, fresh fields). *)

Module objects.
Import numpy scipy_signal.
Section Objects.
Context {F : Type} {Sc : Scalar F}.

Inductive object : Type :=
| Ndarray (a : ndarray F)
| PyList (l : list (F * F)).

(** A reference is an index into the heap. *)
Definition heap : Type := list object.

(** A Python computation: it may raise, and it may change the heap. *)
Definition Py (A : Type) : Type := heap -> result (A * heap).

Definition ret {A : Type} (a : A) : Py A := fun h => Ok (a, h).

Definition mbind {A B : Type} (m : Py A) (k : A -> Py B) : Py B :=
  fun h =>
    match m h with
    | Ok (a, h') => k a h'
    | Raise e => Raise e
    end.

Definition lift {A : Type} (r : result A) : Py A :=
  fun h =>
    match r with
    | Ok a => Ok (a, h)
    | Raise e => Raise e
    end.

(** A new object, at a reference that was not in use. *)
Definition new (o : object) : Py nat := fun h => Ok (length h, h ++ [o]).

Definition load (l : nat) : Py (ndarray F) :=
  fun h =>
    match nth_error h l with
    | Some (Ndarray a) => Ok (a, h)
    | _ => Raise TypeError
    end.

Definition load_list (l : nat) : Py (list (F * F)) :=
  fun h =>
    match nth_error h l with
    | Some (PyList ps) => Ok (ps, h)
    | _ => Raise TypeError
    end.

Fixpoint update {A : Type} (l : list A) (i : nat) (x : A) : list A :=
  match l, i with
  | [], _ => []
  | _ :: l', 0 => x :: l'
  | y :: l', S i' => y :: update l' i' x
  end.

(** The object at [l] is replaced: an update in place. *)
Definition store (l : nat) (o : object) : Py unit :=
  fun h =>
    if Nat.ltb l (length h) then Ok (tt, update h l o) else Raise TypeError.

(** The reference [l] leads to the object [o]. *)
Definition holds (h : heap) (l : nat) (o : object) : Prop :=
  nth_error h l = Some o.

(** Every object of [h] is in [h'], unchanged, at its reference. *)
Definition extends (h h' : heap) : Prop := exists e, h' = h ++ e.
End Objects.

Arguments object F : clear implicits.
Arguments heap F : clear implicits.
Arguments Py F A : clear implicits.

Notation "x <~ m ;; k" := (mbind m (fun x => k))
  (at level 61, m at next level, right associativity).
Notation "' pat <~ m ;; k" := (mbind m (fun x => match x with pat => k end))
  (at level 61, pat pattern, m at next level, right associativity).

Section Orchestrator.
Context {F : Type} {Sc : Scalar F}.
Variable one_step_parabolic :
  ndarray F -> ndarray F -> ndarray F -> ndarray F -> ndarray F ->
  F -> F -> F -> result (ndarray F).
Variable one_step_hyperbolic :
  ndarray F -> (F -> F) -> ndarray F -> ndarray F -> F -> F -> F ->
  result (ndarray F).
Variable ode : F -> F -> F * F -> F -> result (F * F).
Variable cut_off : ndarray F -> ndarray F -> result (ndarray F).
Variable kappa : ndarray F -> result (ndarray F).

(** An operation that builds a new array from one array. *)
Definition np1 (f : ndarray F -> ndarray F) (l : nat) : Py F nat :=
  a <~ load l ;; new (Ndarray (f a)).

(** An operation, or a callable, that builds a new array from two. *)
Definition np2 (f : ndarray F -> ndarray F -> result (ndarray F))
    (l1 l2 : nat) : Py F nat :=
  a <~ load l1 ;; b <~ load l2 ;; c <~ lift (f a b) ;; new (Ndarray c).

(** A callable of one array. *)
Definition call1 (f : ndarray F -> result (ndarray F)) (l : nat) : Py F nat :=
  a <~ load l ;; c <~ lift (f a) ;; new (Ndarray c).

Definition np_gradient (l : nat) (d0 d1 : F) : Py F (nat * nat) :=
  a <~ load l ;;
  g <~ lift (gradient a d0 d1) ;;
  l0 <~ new (Ndarray (fst g)) ;;
  l1 <~ new (Ndarray (snd g)) ;;
  ret (l0, l1).

(** [l += t] on arrays. *)
Definition iadd (l t : nat) : Py F unit :=
  a <~ load l ;; b <~ load t ;; c <~ lift (amap2 add a b) ;;
  store l (Ndarray c).

(** [l.append(q)]. *)
Definition append (l : nat) (q : F * F) : Py F unit :=
  ps <~ load_list l ;; store l (PyList (ps ++ [q])).

(** [l[i]] on a list. *)
Definition item (l i : nat) : Py F (F * F) :=
  ps <~ load_list l ;; lift (index ps i).

(** [for i in xrange(i, i + n)]. *)
Fixpoint for_range (body : nat -> Py F unit) (i n : nat) : Py F unit :=
  match n with
  | 0 => ret tt
  | S n' => _ <~ body i ;; for_range body (S i) n'
  end.

Definition pirate_flux (p_density s_density p_kernel : nat) (dx dy : F)
  : Py F (nat * nat) :=
  conv <~ np2 (fun s k => Ok (convolve2d_same s k)) s_density p_kernel ;;
  p_convolution <~ np1 (amap (mul (mul dx dy))) conv ;;
  '(grad_py, grad_px) <~ np_gradient p_convolution dy dx ;;
  sq_x <~ np1 (amap (fun v => mul v v)) grad_px ;;
  sq_y <~ np1 (amap (fun v => mul v v)) grad_py ;;
  sq <~ np2 (amap2 add) sq_x sq_y ;;
  norm_grad_p_convolution <~ np1 (amap sqrt) sq ;;
  k <~ call1 kappa norm_grad_p_convolution ;;
  t <~ np2 (amap2 mul) k grad_px ;;
  flux_x <~ np2 (amap2 mul) t p_density ;;
  k <~ call1 kappa norm_grad_p_convolution ;;
  t <~ np2 (amap2 mul) k grad_py ;;
  flux_y <~ np2 (amap2 mul) t p_density ;;
  ret (flux_x, flux_y).

Definition divergence (flux_x flux_y : nat) (dx dy : F) : Py F nat :=
  '(trash, div1) <~ np_gradient flux_x dy dx ;;
  '(div2, trash) <~ np_gradient flux_y dy dx ;;
  n <~ np1 (amap neg) div1 ;;
  np2 (amap2 sub) n div2.

Definition police_source (xx yy : nat) (a : list F) (police : nat) : Py F nat :=
  f <~ np1 zeros_like xx ;;
  ps <~ load_list police ;;
  _ <~ for_range (fun i =>
         a_i <~ lift (index a i) ;;
         police_i <~ item police i ;;
         x <~ np1 (amap (fun v => sub v (fst police_i))) xx ;;
         police_i <~ item police i ;;
         y <~ np1 (amap (fun v => sub v (snd police_i))) yy ;;
         c <~ np2 cut_off x y ;;
         t <~ np1 (amap (mul a_i)) c ;;
         iadd f t) 0 (length ps) ;;
  ret f.

Definition cal_I2 (xx yy police : nat) : Py F (nat * nat) :=
  cal_I2_x <~ np1 zeros_like xx ;;
  cal_I2_y <~ np1 zeros_like xx ;;
  ps <~ load_list police ;;
  _ <~ for_range (fun i =>
         police_i <~ item police i ;;
         x <~ np1 (amap (fun v => sub v (fst police_i))) xx ;;
         police_i <~ item police i ;;
         y <~ np1 (amap (fun v => sub v (snd police_i))) yy ;;
         c <~ np2 cut_off x y ;;
         police_i <~ item police i ;;
         d <~ np1 (amap (fun v => sub (fst police_i) v)) xx ;;
         t <~ np2 (amap2 mul) c d ;;
         _ <~ iadd cal_I2_x t ;;
         police_i <~ item police i ;;
         x <~ np1 (amap (fun v => sub v (fst police_i))) xx ;;
         police_i <~ item police i ;;
         y <~ np1 (amap (fun v => sub v (snd police_i))) yy ;;
         c <~ np2 cut_off x y ;;
         police_i <~ item police i ;;
         d <~ np1 (amap (fun v => sub (snd police_i) v)) yy ;;
         t <~ np2 (amap2 mul) c d ;;
         iadd cal_I2_y t) 0 (length ps) ;;
  ret (cal_I2_x, cal_I2_y).

Definition ship_velocity (p_density xx yy police : nat) (dx dy : F)
    (nu_x nu_y : nat) : Py F (nat * nat) :=
  c <~ np2 cut_off xx yy ;;
  k <~ np2 (amap2 mul) xx c ;;
  conv <~ np2 (fun p k => Ok (convolve2d_same p k)) p_density k ;;
  cal_I1_x <~ np1 (amap (mul (mul (neg dx) dy))) conv ;;
  c <~ np2 cut_off xx yy ;;
  k <~ np2 (amap2 mul) yy c ;;
  conv <~ np2 (fun p k => Ok (convolve2d_same p k)) p_density k ;;
  cal_I1_y <~ np1 (amap (mul (mul (neg dx) dy))) conv ;;
  '(cal_I2_x, cal_I2_y) <~ cal_I2 xx yy police ;;
  cal_I_x <~ np2 (amap2 add) cal_I1_x cal_I2_x ;;
  cal_I_y <~ np2 (amap2 add) cal_I1_y cal_I2_y ;;
  vel_x <~ np2 (amap2 add) cal_I_x nu_x ;;
  vel_y <~ np2 (amap2 add) cal_I_y nu_y ;;
  ret (vel_x, vel_y).

Definition force_F1 (p_density s_density xx yy : nat) (dx dy : F)
    (police i : nat) : Py F (F * F) :=
  police_i <~ item police i ;;
  x <~ np1 (amap (fun v => sub (fst police_i) v)) xx ;;
  police_i <~ item police i ;;
  y <~ np1 (amap (fun v => sub (snd police_i) v)) yy ;;
  c <~ np2 cut_off x y ;;
  t <~ np2 (amap2 mul) c p_density ;;
  temp <~ np2 (amap2 mul) t s_density ;;
  police_i <~ item police i ;;
  d <~ np1 (amap (fun v => sub v (fst police_i))) xx ;;
  t <~ np2 (amap2 mul) temp d ;;
  t <~ load t ;;
  let F1_x := mul (mul dx dy) (sum t) in
  police_i <~ item police i ;;
  d <~ np1 (amap (fun v => sub v (snd police_i))) yy ;;
  t <~ np2 (amap2 mul) temp d ;;
  t <~ load t ;;
  let F1_y := mul (mul dx dy) (sum t) in
  ret (F1_x, F1_y).

Definition police_step (p_density s_density xx yy : nat) (dx dy dt : F)
    (police_sum_x police_sum_y : F) (M : nat) (police : nat) : Py F nat :=
  police_new <~ new (PyList []) ;;
  ps <~ load_list police ;;
  _ <~ for_range (fun i =>
         '(F1_x, F1_y) <~ force_F1 p_density s_density xx yy dx dy police i ;;
         police_i <~ item police i ;;
         let F2_x := sub police_sum_x (mul (of_nat M) (fst police_i)) in
         police_i <~ item police i ;;
         let F2_y := sub police_sum_y (mul (of_nat M) (snd police_i)) in
         let F3_x := zero in
         let F3_y := zero in
         police_i <~ item police i ;;
         q <~ lift (ode (add (add F1_x F2_x) F3_x) (add (add F1_y F2_y) F3_y)
                        police_i dt) ;;
         append police_new q) 0 (length ps) ;;
  ret police_new.

(** The two steppers read the objects they are given and build the new
    field. *)
Definition call_parabolic (p_density xx yy div f : nat) (dx dy dt : F)
  : Py F nat :=
  p <~ load p_density ;; x <~ load xx ;; y <~ load yy ;;
  d <~ load div ;; s <~ load f ;;
  r <~ lift (one_step_parabolic p x y d s dx dy dt) ;;
  new (Ndarray r).

Definition call_hyperbolic (s_density : nat) (velocity : F -> F)
    (vel_x vel_y : nat) (dx dy dt : F) : Py F nat :=
  s <~ load s_density ;; vx <~ load vel_x ;; vy <~ load vel_y ;;
  r <~ lift (one_step_hyperbolic s velocity vx vy dx dy dt) ;;
  new (Ndarray r).

Definition one_step_evolution (p_density s_density police xx yy p_kernel : nat)
    (dx dy dt : F) (a : list F) (velocity : F -> F) (nu_x nu_y : nat)
  : Py F (nat * nat * nat) :=
  (* some checks *)
  p <~ load p_density ;;
  let shape_p_density := shape p in
  s <~ load s_density ;;
  _ <~ lift (assert (shape_eqb shape_p_density (shape s))) ;;
  x <~ load xx ;;
  _ <~ lift (assert (shape_eqb shape_p_density (shape x))) ;;
  y <~ load yy ;;
  _ <~ lift (assert (shape_eqb shape_p_density (shape y))) ;;
  y <~ load yy ;;
  _ <~ lift (assert (shape_eqb shape_p_density (shape y))) ;;
  ps <~ load_list police ;;
  let police_sum_x := evolution.police_sum fst ps in
  ps <~ load_list police ;;
  let police_sum_y := evolution.police_sum snd ps in
  ps <~ load_list police ;;
  let M := length ps in
  (* evolution of pirate density *)
  '(flux_x, flux_y) <~ pirate_flux p_density s_density p_kernel dx dy ;;
  div <~ divergence flux_x flux_y dx dy ;;
  f <~ police_source xx yy a police ;;
  minus_f <~ np1 (amap neg) f ;;
  p_new <~ call_parabolic p_density xx yy div minus_f dx dy dt ;;
  (* evolution of ship density *)
  '(vel_x, vel_y) <~ ship_velocity p_density xx yy police dx dy nu_x nu_y ;;
  s_new <~ call_hyperbolic s_density velocity vel_x vel_y dx dy dt ;;
  (* evolution of police position *)
  police_new <~ police_step p_density s_density xx yy dx dy dt
                  police_sum_x police_sum_y M police ;;
  ret (p_new, s_new, police_new).
End Orchestrator.
End objects.

(** ** Python floats *)

Module python.
(** [v ** 2] on a Python float.  CPython calls C's [pow], taken here as
    correctly rounded at the exponent 2, and raises [OverflowError] when the
    result of a finite [v] overflows; an infinite [v] and a NaN pass. *)
Definition float_pow2 (v : float) : result float :=
  let p := PrimFloat.mul v v in
  if (PrimFloat.is_finite v && PrimFloat.is_infinity p)%bool
  then Raise OverflowError
  else Ok p.
End python.

(** ** src/simulations/prova/parameters.py *)

Module parameters.
Import numpy.
Open Scope float_scope.

  (** [a[i][j]] on a numpy array. *)
Definition item (a : ndarray float) (i j : nat) : result float :=
    if (Nat.ltb i (nrows a) && Nat.ltb j (ncols a))%bool
    then Ok (get a i j) else Raise IndexError.

  (** Line 114: [k = (x**2 + y**2 < radius**2) * (radius**2 - x**2 - y**2)],
      evaluated from left to right; [radius] is a Python float, [x] and [y]
      are arrays, whose squares overflow to [inf] without an exception; a
      boolean multiplies as [1.] or [0.]. *)
Definition cut_off_k (x y : ndarray float) (radius : float)
    : result (ndarray float) :=
    let x2 := amap (fun v => v * v) x in
    let y2 := amap (fun v => v * v) y in
    r2 <- amap2 PrimFloat.add x2 y2 ;;
    radius2 <- python.float_pow2 radius ;;
    let inside := amap (fun v => if v <? radius2 then 1 else 0) r2 in
    radius2 <- python.float_pow2 radius ;;
    t <- amap2 PrimFloat.sub (amap (fun v => radius2 - v) x2) y2 ;;
    amap2 PrimFloat.mul inside t.

  (** Line 115:
      [C = numpy.sum(k) * (x[0][1] - x[0][0]) * (y[1][0] - y[0][0])]. *)
Definition cut_off_mass (k x y : ndarray float) : result float :=
    x01 <- item x 0 1 ;;
    x00 <- item x 0 0 ;;
    y10 <- item y 1 0 ;;
    y00 <- item y 0 0 ;;
    Ok (sum k * (x01 - x00) * (y10 - y00)).

Definition cut_off_C (x y : ndarray float) (radius : float)
    : result (ndarray float) :=
    k <- cut_off_k x y radius ;;
    C <- cut_off_mass k x y ;;
    if C <? 0.3 then Ok k
    else Ok (amap (fun v => v / C) k).

(** The default [radius = .4]. *)
Definition radius_default : float := 0.4.

(** Lines 38-46: the normalization function [kappa], with [eps = 0.2] and
    [v_max = 1.]; a comparison multiplies as [1.] or [0.]. *)
Definition kappa (x : ndarray float) : ndarray float :=
  let eps := 0.2 in
  let v_max := 1 in
  let b (c : bool) : float := if c then 1 else 0 in
  amap (fun v =>
          let A1 := b (1 <=? v) * v + b (v <? 1) * 1 in
          let A2 := v_max * b (v <? 1) * 0 / A1 in
          let A3 := v_max * b ((eps <? v) && (v <? 1))%bool * (v - eps)
                    / (1 - eps) in
          A2 + A3) x.
End parameters.

(** ** Concrete states

    A three by three mesh with spacing 0.1 and one police vessel, in binary64,
    and a mesh with spacing 1 over the integers. *)

Module examples.
Import numpy.

Definition xx : ndarray float :=
  mk_ndarray 3 3 [0; 0.1; 0.2; 0; 0.1; 0.2; 0; 0.1; 0.2]%float.
Definition yy : ndarray float :=
  mk_ndarray 3 3 [0; 0; 0; 0.1; 0.1; 0.1; 0.2; 0.2; 0.2]%float.
Definition p_density : ndarray float :=
  mk_ndarray 3 3 [1; 2; 3; 4; 5; 6; 7; 8; 9]%float.
Definition s_density : ndarray float :=
  mk_ndarray 3 3 [1; 0; 0; 0; 1; 0; 0; 0; 1]%float.
Definition p_kernel : ndarray float :=
  mk_ndarray 3 3 [1; 1; 1; 1; 1; 1; 1; 1; 1]%float.
Definition nu_x : ndarray float := tab 3 3 (fun _ _ => 1%float).
Definition nu_y : ndarray float := tab 3 3 (fun _ _ => 0%float).
Definition police : list (float * float) := [(0.1, 0.1)]%float.
Definition cut_off (x y : ndarray float) : result (ndarray float) :=
  parameters.cut_off_C x y parameters.radius_default.
Definition kappa (x : ndarray float) : result (ndarray float) :=
  Ok (parameters.kappa x).
Definition speed_ships (A : float) : float := (1 - A / 1)%float.

(** The orchestrator on the binary64 state, with the steppers of the
    specification and coefficients [a]. *)
Definition run (a : list float) :=
  evolution.one_step_evolution pde.one_step_parabolic pde.one_step_hyperbolic
    (fun F_x F_y position dt => Ok (ode.ode F_x F_y position dt))
    cut_off kappa p_density s_density police xx yy p_kernel
    0.1%float 0.1%float 0.01%float a speed_ships nu_x nu_y.

Definition xx_Z : ndarray Z := mk_ndarray 3 3 [0; 1; 2; 0; 1; 2; 0; 1; 2]%Z.
Definition yy_Z : ndarray Z := mk_ndarray 3 3 [0; 0; 0; 1; 1; 1; 2; 2; 2]%Z.
Definition p_density_Z : ndarray Z :=
  mk_ndarray 3 3 [1; 2; 3; 4; 5; 6; 7; 8; 9]%Z.
Definition s_density_Z : ndarray Z :=
  mk_ndarray 3 3 [1; 0; 0; 0; 1; 0; 0; 0; 1]%Z.
Definition zeros_Z : ndarray Z := tab 3 3 (fun _ _ => 0%Z).
Definition p_kernel_Z : ndarray Z := mk_ndarray 1 1 [1]%Z.
Definition police_Z : list (Z * Z) := [(1, 1)]%Z.

(** A cut-off of radius [sqrt 2] around the origin, over the integers. *)
Definition cut_off_Z (x y : ndarray Z) : result (ndarray Z) :=
  r2 <- amap2 Z.add (amap (fun v => v * v)%Z x) (amap (fun v => v * v)%Z y) ;;
  Ok (amap (fun v => if (v <? 2)%Z then (2 - v)%Z else 0%Z) r2).

Definition kappa_Z (x : ndarray Z) : result (ndarray Z) := Ok x.

(** The orchestrator over the integers, with the steppers of the
    specification. *)
Definition run_Z (p_density : ndarray Z) (police : list (Z * Z))
    (a : list Z) :=
  evolution.one_step_evolution pde.one_step_parabolic pde.one_step_hyperbolic
    (fun F_x F_y position dt => Ok (ode.ode F_x F_y position dt))
    cut_off_Z kappa_Z p_density s_density_Z police xx_Z yy_Z p_kernel_Z
    1%Z 1%Z 1%Z a (fun v => (1 - v)%Z) zeros_Z zeros_Z.

(** What a run returns, or the state it started from if it raises. *)
Definition returned {F : Type} (start : ndarray F * ndarray F * list (F * F))
    (r : result (ndarray F * ndarray F * list (F * F))) :=
  match r with
  | Ok out => out
  | Raise _ => start
  end.

Definition out : ndarray float * ndarray float * list (float * float) :=
  Eval vm_compute in
    returned (p_density, s_density, police) (run [1; 1.5]%float).

(** A run of the driver over three time points, with a snapshot asked for
    at the second one; the persistence layer records the names and times of
    the snapshots it is given. *)
Definition pirates : @evolution.pirates_class float := {|
  evolution.initial_density_pirates := p_density;
  evolution.initial_density_ships := s_density;
  evolution.police_initial_positions := police;
  evolution.time := [0; 0.01; 0.02]%float;
  evolution.x_mesh := xx;
  evolution.y_mesh := yy;
  evolution.kernel_mathcal_K := p_kernel;
  evolution.dx := 0.1%float;
  evolution.dy := 0.1%float;
  evolution.dt := 0.01%float;
  evolution.a := [1]%float;
  evolution.ships_speed := speed_ships;
  evolution.x := [0; 0.1; 0.2]%float;
  evolution.y := [0; 0.1; 0.2]%float;
  evolution.ships_direction := fun _ _ => Ok (nu_x, nu_y);
  evolution.printing := [false; true; false];
  evolution.base_directory := "out"
|}.

Definition solution_Save (base name : string) (t : float)
    (p s : ndarray float) (pol : list (float * float))
    (w : list (string * float)) : result (list (string * float)) :=
  Ok (w ++ [(name, t)]).

Definition drive :=
  evolution.evolution pde.one_step_parabolic pde.one_step_hyperbolic
    (fun F_x F_y position dt => Ok (ode.ode F_x F_y position dt))
    cut_off kappa solution_Save pirates [].

(** A heap that holds the state over the integers: the pirates, the ships,
    the list of police positions, the two meshes, the kernel and the drift
    (one array for both of its components). *)
Definition heap_Z : objects.heap Z :=
  [objects.Ndarray p_density_Z; objects.Ndarray s_density_Z;
   objects.PyList police_Z; objects.Ndarray xx_Z; objects.Ndarray yy_Z;
   objects.Ndarray p_kernel_Z; objects.Ndarray zeros_Z].

Definition run_heap_Z :=
  objects.one_step_evolution pde.one_step_parabolic pde.one_step_hyperbolic
    (fun F_x F_y position dt => Ok (ode.ode F_x F_y position dt))
    cut_off_Z kappa_Z 0 1 2 3 4 5 1%Z 1%Z 1%Z [5]%Z (fun v => (1 - v)%Z) 6 6
    heap_Z.

Definition out_heap_Z : nat * nat * nat * objects.heap Z :=
  Eval vm_compute in
    match run_heap_Z with
    | Ok r => r
    | Raise _ => ((0, 0, 0), heap_Z)
    end.
End examples.

(** ** Further states *)

Module cases.
Import numpy.

(** The orchestrator in binary64 on an arbitrary state, with the callables
    of the configuration and the steppers of the specification. *)
Definition step (p_density s_density : ndarray float)
    (police : list (float * float)) (xx yy : ndarray float)
    (a : list float) (nu_x nu_y : ndarray float) :=
  evolution.one_step_evolution pde.one_step_parabolic pde.one_step_hyperbolic
    (fun F_x F_y position dt => Ok (ode.ode F_x F_y position dt))
    examples.cut_off examples.kappa p_density s_density police xx yy
    examples.p_kernel 0.1%float 0.1%float 0.01%float a examples.speed_ships
    nu_x nu_y.

(** Ships on a two by two mesh. *)
Definition s_small : ndarray float := mk_ndarray 2 2 [1; 0; 0; 1]%float.

(** A mesh of a single row. *)
Definition xx_row : ndarray float := mk_ndarray 1 3 [0; 0.1; 0.2]%float.
Definition yy_row : ndarray float := mk_ndarray 1 3 [0; 0; 0]%float.
Definition p_row : ndarray float := mk_ndarray 1 3 [1; 2; 3]%float.
Definition s_row : ndarray float := mk_ndarray 1 3 [1; 0; 1]%float.
Definition nu_row : ndarray float := tab 1 3 (fun _ _ => 1%float).

(** What the orchestrator returns without police vessels. *)
Definition out_no_police
  : ndarray float * ndarray float * list (float * float) :=
  Eval vm_compute in
    examples.returned (examples.p_density, examples.s_density, [])
      (step examples.p_density examples.s_density [] examples.xx examples.yy
            [1; 2]%float examples.nu_x examples.nu_y).

(** The configuration of [examples.pirates] with another schedule. *)
Definition config (time : list float) (printing : list bool)
  : @evolution.pirates_class float := {|
  evolution.initial_density_pirates := examples.p_density;
  evolution.initial_density_ships := examples.s_density;
  evolution.police_initial_positions := examples.police;
  evolution.time := time;
  evolution.x_mesh := examples.xx;
  evolution.y_mesh := examples.yy;
  evolution.kernel_mathcal_K := examples.p_kernel;
  evolution.dx := 0.1%float;
  evolution.dy := 0.1%float;
  evolution.dt := 0.01%float;
  evolution.a := [1]%float;
  evolution.ships_speed := examples.speed_ships;
  evolution.x := [0; 0.1; 0.2]%float;
  evolution.y := [0; 0.1; 0.2]%float;
  evolution.ships_direction := fun _ _ => Ok (examples.nu_x, examples.nu_y);
  evolution.printing := printing;
  evolution.base_directory := "out"
|}.

Definition drive (pirates : @evolution.pirates_class float)
    (w : list (string * float)) :=
  evolution.evolution pde.one_step_parabolic pde.one_step_hyperbolic
    (fun F_x F_y position dt => Ok (ode.ode F_x F_y position dt))
    examples.cut_off examples.kappa examples.solution_Save pirates w.

(** Ships in one corner of the mesh: the flux of the pirates does not
    vanish. *)
Definition s_corner : ndarray float :=
  mk_ndarray 3 3 [5; 0; 0; 0; 0; 0; 0; 0; 0]%float.

Definition out_corner
  : ndarray float * ndarray float * list (float * float) :=
  Eval vm_compute in
    examples.returned (examples.p_density, s_corner, examples.police)
      (step examples.p_density s_corner examples.police examples.xx
            examples.yy [1]%float examples.nu_x examples.nu_y).

(** No pirates. *)
Definition zeros : ndarray float := tab 3 3 (fun _ _ => 0%float).

(** The coefficient of the one vessel is zero. *)
Definition out_zero_a
  : ndarray float * ndarray float * list (float * float) :=
  Eval vm_compute in
    examples.returned (examples.p_density, examples.s_density, examples.police)
      (step examples.p_density examples.s_density examples.police examples.xx
            examples.yy [0]%float examples.nu_x examples.nu_y).

(** A single vessel and no pirates. *)
Definition out_single
  : ndarray float * ndarray float * list (float * float) :=
  Eval vm_compute in
    examples.returned (zeros, examples.s_density, examples.police)
      (step zeros examples.s_density examples.police examples.xx
            examples.yy [1]%float examples.nu_x examples.nu_y).

(** The three vessels [d_o] and the coefficients [a] of parameters.py,
    lines 87 and 49. *)
Definition d_o : list (float * float) := [(5, 11); (2, 10); (7, 10)]%float.
Definition a : list float := [1; 1.5; 2]%float.

Definition out_d_o
  : ndarray float * ndarray float * list (float * float) :=
  Eval vm_compute in
    examples.returned (examples.p_density, examples.s_density, d_o)
      (step examples.p_density examples.s_density d_o examples.xx
            examples.yy a examples.nu_x examples.nu_y).

(** A vessel far from the mesh, and a vessel at infinity. *)
Definition police_far : list (float * float) := [(1e200, 0.1)]%float.
Definition police_inf : list (float * float) := [(infinity, 0.1)]%float.

Definition out_far
  : ndarray float * ndarray float * list (float * float) :=
  Eval vm_compute in
    examples.returned (examples.p_density, examples.s_density, police_far)
      (step examples.p_density examples.s_density police_far examples.xx
            examples.yy [0]%float examples.nu_x examples.nu_y).

Definition out_inf
  : ndarray float * ndarray float * list (float * float) :=
  Eval vm_compute in
    examples.returned (examples.p_density, examples.s_density, police_inf)
      (step examples.p_density examples.s_density police_inf examples.xx
            examples.yy [1]%float examples.nu_x examples.nu_y).
End cases.

(** What the driver hands to the persistence layer, told apart from the
    stepping: the snapshots are taken at the indices of the time points at
    which [printing] holds, each of the state reached after that many
    one-step evolutions of the initial state, and are numbered from 1. *)
Module schedule.
Import evolution.
Section Schedule.
Context {F : Type} {Sc : Scalar F}.
Variable one_step_parabolic :
  ndarray F -> ndarray F -> ndarray F -> ndarray F -> ndarray F ->
  F -> F -> F -> result (ndarray F).
Variable one_step_hyperbolic :
  ndarray F -> (F -> F) -> ndarray F -> ndarray F -> F -> F -> F ->
  result (ndarray F).
Variable ode : F -> F -> F * F -> F -> result (F * F).
Variable cut_off : ndarray F -> ndarray F -> result (ndarray F).
Variable kappa : ndarray F -> result (ndarray F).
Variable World : Type.
Variable solution_Save :
  string -> string -> F -> ndarray F -> ndarray F -> list (F * F) ->
  World -> result World.
Variable pirates : @pirates_class F.

(** The indices among [i .. i + n - 1] at which [printing] holds. *)
Definition print_indices (i n : nat) : list nat :=
  filter (fun j => nth j (printing pirates) false) (seq i n).

(** The name of the [k]-th snapshot. *)
Definition name (k : nat) : string := ("saving_" ++ zfill 4 (str k))%string.

(** The [k]-th snapshot, taken at the time point of index [i]. *)
Definition snapshot (k i : nat) (w : World) : result World :=
  '(p, s, pol) <- steps one_step_parabolic one_step_hyperbolic ode cut_off
                    kappa pirates i
                    (initial_density_pirates pirates,
                     initial_density_ships pirates,
                     police_initial_positions pirates) ;;
  solution_Save (base_directory pirates) (name k)
                (nth i (time pirates) zero) p s pol w.

Definition snapshots (k : nat) (indices : list nat) (w : World)
  : result World :=
  for_enum snapshot k indices w.
End Schedule.
Arguments snapshot {F Sc} _ _ _ _ _ {World} _ _ _ _ _.
Arguments snapshots {F Sc} _ _ _ _ _ {World} _ _ _ _ _.
End schedule.

(** ** The kernels and the direction field of the configuration

    The functions of [parameters.py] that build fields from the two
    one-dimensional axes [x] and [y]: the direction [nu] of the ships and
    the mollifier [std_moll], with the part of numpy they call. *)

Module kernels.
Import numpy.
Section Kernels.
Context {F : Type} {Sc : Scalar F}.

(** [numpy.meshgrid(x, y)] of two one-dimensional arrays, with the default
    [indexing='xy']: both meshes have shape [(len(y), len(x))]. *)
Definition meshgrid (x y : list F) : ndarray F * ndarray F :=
  (tab (length y) (length x) (fun _ j => nth j x zero),
   tab (length y) (length x) (fun i _ => nth i y zero)).

Definition ones_like (a : ndarray F) : ndarray F :=
  tab (nrows a) (ncols a) (fun _ _ => of_nat 1).

(** Lines 69-74: the geometric direction of the ships. *)
Definition nu (x y : list F) : result (ndarray F * ndarray F) :=
  let '(x_mesh, y_mesh) := meshgrid x y in
  s_x <- amap2 add x_mesh y_mesh ;;
  let nu_x := ones_like s_x in
  s_y <- amap2 add x_mesh y_mesh ;;
  let nu_y := zeros_like s_y in
  Ok (nu_x, nu_y).

End Kernels.

(** *** The mollifier, in binary64 *)

(** The sum [numpy.trapz] takes along an axis with sample points [x]:
    [(d * (y[1:] + y[:-1]) / 2.0).sum()] with [d = diff(x)]. *)
Definition trapz_sum (y x : list float) : float :=
  sum_list
    (map (fun j => ((nth (S j) x 0 - nth j x 0)
                    * (nth (S j) y 0 + nth j y 0) / 2)%float)
         (seq 0 (length x - 1))).

(** [numpy.trapz(y, x)] of two one-dimensional arrays.  Arrays of different
    lengths raise; numpy's broadcasting of an axis of length one is not
    modelled. *)
Definition trapz (y x : list float) : result float :=
  if Nat.eqb (length y) (length x) then Ok (trapz_sum y x)
  else Raise ValueError.

Definition row (k : ndarray float) (i : nat) : list float :=
  map (get k i) (seq 0 (ncols k)).

(** [numpy.trapz(k, x)] of a two-dimensional [k]: the integral along the
    last axis, one value per row. *)
Definition trapz_rows (k : ndarray float) (x : list float)
  : result (list float) :=
  if Nat.eqb (ncols k) (length x)
  then Ok (map (fun i => trapz_sum (row k i) x) (seq 0 (nrows k)))
  else Raise ValueError.

(** Line 101: [numpy.trapz(numpy.trapz(k, x), y)]. *)
Definition integral (k : ndarray float) (x y : list float) : result float :=
  inner <- trapz_rows k x ;;
  trapz inner y.

(** Line 100: [k = (x_mesh**2 + y_mesh**2 < radius**2)
    * (radius**2 - x_mesh**2 - y_mesh**2)], evaluated from left to right;
    [radius] is a Python float; a boolean multiplies as [1.] or [0.]. *)
Definition bump (x_mesh y_mesh : ndarray float) (radius : float)
  : result (ndarray float) :=
  let x2 := amap (fun v => v * v)%float x_mesh in
  let y2 := amap (fun v => v * v)%float y_mesh in
  r2 <- amap2 PrimFloat.add x2 y2 ;;
  radius2 <- python.float_pow2 radius ;;
  let inside :=
    amap (fun v => if (v <? radius2)%float then 1%float else 0%float) r2 in
  radius2 <- python.float_pow2 radius ;;
  t <- amap2 PrimFloat.sub (amap (fun v => radius2 - v)%float x2) y2 ;;
  amap2 PrimFloat.mul inside t.

(** Lines 96-102: the standard mollifier. *)
Definition std_moll (x y : list float) (radius : float)
  : result (ndarray float) :=
  let '(x_mesh, y_mesh) := meshgrid x y in
  k <- bump x_mesh y_mesh radius ;;
  C <- integral k x y ;;
  Ok (amap (fun v => v / C)%float k).

(** Lines 105-107: the kernel of the pirates, of radius [.5]. *)
Definition mathcal_K (x y : list float) : result (ndarray float) :=
  std_moll x y 0.5%float.
End kernels.

(** * Properties *)

(** ** The error monad *)

Lemma bind_ok_inv {A B : Type} (m : result A) (k : A -> result B) (b : B) :
  bind m k = Ok b -> exists a, m = Ok a /\ k a = Ok b.
Proof.
  destruct m as [a | e]; simpl; intros H.
  - exists a. split; [reflexivity | exact H].
  - discriminate H.
Qed.

Lemma assert_ok_inv (b : bool) (u : unit) : assert b = Ok u -> b = true.
Proof. destruct b; simpl; [reflexivity | discriminate]. Qed.

Lemma index_ok_inv {A : Type} (l : list A) (i : nat) (x : A) :
  index l i = Ok x -> nth_error l i = Some x.
Proof.
  unfold index. destruct (nth_error l i); intros H; inversion H; reflexivity.
Qed.

Lemma index_raise {A : Type} (l : list A) (i : nat) :
  length l <= i -> index l i = Raise IndexError.
Proof.
  intros H. unfold index.
  apply nth_error_None in H. rewrite H. reflexivity.
Qed.

(** Inversion of a chain of binds in a hypothesis. *)
Tactic Notation "inv_bind" hyp(H) "as" simple_intropattern(x) ident(E) :=
  apply bind_ok_inv in H; destruct H as (x & E & H).

(** ** Arrays *)

Section ArrayFacts.
Context {F : Type} {Sc : Scalar F}.
Import numpy.

Lemma nth_flat_map_rows (g : nat -> list F) (n : nat) (d : F) :
  (forall k, length (g k) = n) ->
  forall m s i j, i < m -> j < n ->
    nth (i * n + j) (flat_map g (seq s m)) d = nth j (g (s + i)) d.
Proof.
  intros Hlen. induction m as [| m IH]; intros s i j Hi Hj.
  - lia.
  - simpl. destruct i as [| i].
    + simpl. rewrite app_nth1 by (rewrite Hlen; exact Hj).
      rewrite Nat.add_0_r. reflexivity.
    + rewrite app_nth2 by (rewrite Hlen; simpl; lia).
      rewrite Hlen.
      replace (S i * n + j - n) with (i * n + j) by (simpl; lia).
      rewrite IH by lia.
      replace (S s + i) with (s + S i) by lia. reflexivity.
Qed.

Lemma get_tab (m n : nat) (f : nat -> nat -> F) (i j : nat) :
  i < m -> j < n -> get (tab m n f) i j = f i j.
Proof.
  intros Hi Hj. unfold get, tab. simpl.
  rewrite (@nth_flat_map_rows (fun i => map (f i) (seq 0 n)) n zero);
    try assumption.
  - simpl. rewrite (nth_indep _ zero (f i 0)).
    + rewrite map_nth. rewrite seq_nth by exact Hj. reflexivity.
    + rewrite length_map, length_seq. exact Hj.
  - intros k. rewrite length_map, length_seq. reflexivity.
Qed.

Lemma tab_ext (m n : nat) (f g : nat -> nat -> F) :
  (forall i j, i < m -> j < n -> f i j = g i j) -> tab m n f = tab m n g.
Proof.
  intros H. unfold tab. f_equal.
  assert (Hrows : forall l, (forall i, In i l -> i < m) ->
            flat_map (fun i => map (f i) (seq 0 n)) l
            = flat_map (fun i => map (g i) (seq 0 n)) l).
  { induction l as [| i l IH]; intros Hl; simpl.
    - reflexivity.
    - rewrite IH by (intros k Hk; apply Hl; right; exact Hk).
      f_equal. apply map_ext_in. intros j Hj.
      apply in_seq in Hj. apply H; [apply Hl; left; reflexivity | lia]. }
  apply Hrows. intros i Hi. apply in_seq in Hi. lia.
Qed.

Lemma wf_tab (m n : nat) (f : nat -> nat -> F) : wf (tab m n f).
Proof.
  unfold wf, tab. simpl.
  assert (H : forall l, length (flat_map (fun i => map (f i) (seq 0 n)) l)
                        = length l * n).
  { induction l as [| i l IH]; simpl.
    - reflexivity.
    - rewrite length_app, length_map, length_seq, IH. reflexivity. }
  rewrite H, length_seq. reflexivity.
Qed.

Lemma shape_eqb_true (s t : nat * nat) : shape_eqb s t = true <-> s = t.
Proof.
  destruct s as [s0 s1], t as [t0 t1]. unfold shape_eqb. simpl.
  rewrite andb_true_iff, !Nat.eqb_eq. split.
  - intros [-> ->]. reflexivity.
  - intros H. inversion H. split; reflexivity.
Qed.

Lemma shape_eqb_refl (s : nat * nat) : shape_eqb s s = true.
Proof. apply shape_eqb_true. reflexivity. Qed.

Lemma shape_tab (m n : nat) (f : nat -> nat -> F) : shape (tab m n f) = (m, n).
Proof. reflexivity. Qed.

Lemma shape_amap (f : F -> F) (a : ndarray F) : shape (amap f a) = shape a.
Proof. reflexivity. Qed.

Lemma shape_zeros_like (a : ndarray F) : shape (zeros_like a) = shape a.
Proof. reflexivity. Qed.

Lemma get_amap (f : F -> F) (a : ndarray F) (i j : nat) :
  i < nrows a -> j < ncols a -> get (amap f a) i j = f (get a i j).
Proof.
  intros Hi Hj. unfold amap. rewrite get_tab by assumption. reflexivity.
Qed.

Lemma amap2_ok (f : F -> F -> F) (a b : ndarray F) :
  shape a = shape b ->
  amap2 f a b
  = Ok (tab (nrows a) (ncols a) (fun i j => f (get a i j) (get b i j))).
Proof.
  intros H. unfold amap2. rewrite H, shape_eqb_refl. reflexivity.
Qed.

Lemma amap2_ok_inv (f : F -> F -> F) (a b c : ndarray F) :
  amap2 f a b = Ok c ->
  shape a = shape b /\
  c = tab (nrows a) (ncols a) (fun i j => f (get a i j) (get b i j)).
Proof.
  unfold amap2. destruct (shape_eqb (shape a) (shape b)) eqn:E; intros H.
  - apply shape_eqb_true in E. inversion H. split; [exact E | reflexivity].
  - discriminate H.
Qed.

Lemma amap2_shape (f : F -> F -> F) (a b c : ndarray F) :
  amap2 f a b = Ok c -> shape c = shape a /\ shape c = shape b.
Proof.
  intros H. apply amap2_ok_inv in H. destruct H as [E ->].
  split; [reflexivity | rewrite <- E; reflexivity].
Qed.

Lemma get_amap2 (f : F -> F -> F) (a b c : ndarray F) (i j : nat) :
  amap2 f a b = Ok c -> i < nrows a -> j < ncols a ->
  get c i j = f (get a i j) (get b i j).
Proof.
  intros H Hi Hj. apply amap2_ok_inv in H. destruct H as [_ ->].
  rewrite get_tab by assumption. reflexivity.
Qed.

Lemma shape_convolve2d_same (in1 in2 : ndarray F) :
  shape (scipy_signal.convolve2d_same in1 in2) = shape in1.
Proof. reflexivity. Qed.

Lemma gradient_ok_inv (f g0 g1 : ndarray F) (d0 d1 : F) :
  gradient f d0 d1 = Ok (g0, g1) ->
  2 <= nrows f /\ 2 <= ncols f /\
  g0 = tab (nrows f) (ncols f)
           (fun i j => diff1 (nrows f) i d0 (fun i' => get f i' j)) /\
  g1 = tab (nrows f) (ncols f)
           (fun i j => diff1 (ncols f) j d1 (fun j' => get f i j')).
Proof.
  unfold gradient.
  destruct (Nat.ltb (nrows f) 2) eqn:E0; simpl; [discriminate |].
  destruct (Nat.ltb (ncols f) 2) eqn:E1; simpl; [discriminate |].
  apply Nat.ltb_ge in E0, E1. intros H. inversion H. auto.
Qed.

Lemma gradient_ok (f : ndarray F) (d0 d1 : F) :
  2 <= nrows f -> 2 <= ncols f ->
  exists g0 g1, gradient f d0 d1 = Ok (g0, g1) /\
                shape g0 = shape f /\ shape g1 = shape f.
Proof.
  intros H0 H1. unfold gradient.
  apply Nat.ltb_ge in H0, H1. rewrite H0, H1. simpl.
  eexists. eexists. split; [reflexivity | split; reflexivity].
Qed.

Lemma diff1_interior (len k : nat) (h : F) (at_ : nat -> F) :
  0 < k -> k < len - 1 ->
  diff1 len k h at_
  = div (sub (at_ (k + 1)) (at_ (k - 1))) (mul (of_nat 2) h).
Proof.
  intros H0 H1. unfold diff1.
  destruct (Nat.eqb_spec k 0); [lia |].
  destruct (Nat.eqb_spec k (len - 1)); [lia | reflexivity].
Qed.

End ArrayFacts.

(** Arithmetic on the dimensions related by the shape equations at hand. *)
Ltac shape_lia :=
  repeat match goal with
         | H : numpy.shape _ = numpy.shape _ |- _ =>
             unfold numpy.shape in H; injection H as ? ?
         end;
  simpl in *; lia.

(** Shape equations, after unfolding the array operations. *)
Ltac shape_solve :=
  unfold numpy.shape in *;
  unfold numpy.amap, numpy.zeros_like, scipy_signal.convolve2d_same,
    numpy.tab in *;
  simpl in *; congruence.

(** An element-wise operation on operands of one shape returns. *)
Ltac ok_amap2 := rewrite amap2_ok by shape_solve; simpl bind.

(** ** Loops *)

Section LoopFacts.
Context {A St : Type}.
Variable body : nat -> A -> St -> result St.

(** A property of the loop state that every iteration keeps holds when the
    loop ends. *)
Lemma for_enum_invariant (P : St -> Prop) :
  (forall i x st st', P st -> body i x st = Ok st' -> P st') ->
  forall l i st st', P st -> for_enum body i l st = Ok st' -> P st'.
Proof.
  intros Hbody. induction l as [| x l IH]; simpl; intros i st st' HP H.
  - inversion H. subst. exact HP.
  - inv_bind H as st1 E. eapply IH; [| exact H]. eapply Hbody; eassumption.
Qed.

(** A loop whose iterations all return, returns. *)
Lemma for_enum_total (P : St -> Prop) :
  forall l i st,
    (forall k x st, i <= k < i + length l -> P st ->
                    exists st', body k x st = Ok st' /\ P st') ->
    P st -> exists st', for_enum body i l st = Ok st' /\ P st'.
Proof.
  induction l as [| x l IH]; simpl; intros i st Hbody HP.
  - exists st. split; [reflexivity | exact HP].
  - destruct (Hbody i x st) as (st1 & E & HP1); [lia | exact HP |].
    rewrite E. simpl. apply IH; [| exact HP1].
    intros k y st2 Hk. apply Hbody. lia.
Qed.

(** A loop that reaches an index at which the body raises, raises. *)
Lemma for_enum_raises (bad : nat -> Prop) :
  (forall i x st, bad i -> is_ok (body i x st) = false) ->
  forall l i st, (exists k, k < length l /\ bad (i + k)) ->
    is_ok (for_enum body i l st) = false.
Proof.
  intros Hbody. induction l as [| x l IH]; simpl; intros i st (k & Hk & Hbad).
  - lia.
  - destruct (body i x st) as [st1 | e] eqn:E; simpl; [| reflexivity].
    destruct k as [| k].
    + rewrite Nat.add_0_r in Hbad.
      specialize (Hbody i x st Hbad). rewrite E in Hbody. discriminate.
    + apply IH. exists k. split; [lia |].
      replace (S i + k) with (i + S k) by lia. exact Hbad.
Qed.

End LoopFacts.

(** ** The one-step evolution *)

Section OneStepFacts.
Import numpy scipy_signal evolution.
Context {F : Type} {Sc : Scalar F}.
Variable one_step_parabolic :
  ndarray F -> ndarray F -> ndarray F -> ndarray F -> ndarray F ->
  F -> F -> F -> result (ndarray F).
Variable one_step_hyperbolic :
  ndarray F -> (F -> F) -> ndarray F -> ndarray F -> F -> F -> F ->
  result (ndarray F).
Variable ode : F -> F -> F * F -> F -> result (F * F).
Variable cut_off : ndarray F -> ndarray F -> result (ndarray F).
Variable kappa : ndarray F -> result (ndarray F).

Abbreviation one_step :=
  (one_step_evolution one_step_parabolic one_step_hyperbolic ode cut_off kappa).

(** The orchestrator returns exactly when its four assertions hold and each
    of its blocks returns, in source order. *)
Lemma one_step_evolution_ok_inv
    (p_density s_density : ndarray F) (police : list (F * F))
    (xx yy p_kernel : ndarray F) (dx dy dt : F) (a : list F)
    (velocity : F -> F) (nu_x nu_y : ndarray F)
    (p_new s_new : ndarray F) (police_new : list (F * F)) :
  one_step p_density s_density police xx yy p_kernel dx dy dt a velocity
           nu_x nu_y = Ok (p_new, s_new, police_new) ->
  (shape p_density = shape s_density /\ shape p_density = shape xx /\
   shape p_density = shape yy) /\
  exists flux_x flux_y div f vel_x vel_y,
    pirate_flux kappa p_density s_density p_kernel dx dy
      = Ok (flux_x, flux_y) /\
    divergence flux_x flux_y dx dy = Ok div /\
    police_source cut_off xx yy a police = Ok f /\
    one_step_parabolic p_density xx yy div (amap neg f) dx dy dt = Ok p_new /\
    ship_velocity cut_off p_density xx yy police dx dy nu_x nu_y
      = Ok (vel_x, vel_y) /\
    one_step_hyperbolic s_density velocity vel_x vel_y dx dy dt = Ok s_new /\
    police_step ode cut_off p_density s_density xx yy dx dy dt
      (police_sum fst police) (police_sum snd police) (length police) police
      = Ok police_new.
Proof.
  unfold one_step_evolution. intros H.
  inv_bind H as u1 E1. apply assert_ok_inv, shape_eqb_true in E1.
  inv_bind H as u2 E2. apply assert_ok_inv, shape_eqb_true in E2.
  inv_bind H as u3 E3. apply assert_ok_inv, shape_eqb_true in E3.
  inv_bind H as u4 E4.
  inv_bind H as [flux_x flux_y] Eflux.
  inv_bind H as dv Ediv. inv_bind H as f Ef. inv_bind H as p' Ep.
  inv_bind H as [vel_x vel_y] Evel.
  inv_bind H as s' Es. inv_bind H as pol' Epol. inversion H; subst.
  split; [auto |].
  exists flux_x, flux_y, dv, f, vel_x, vel_y. repeat split; assumption.
Qed.

Lemma skipn_nth_error {A : Type} (l : list A) (i : nat) (x : A) :
  nth_error l i = Some x -> skipn i l = x :: skipn (S i) l.
Proof.
  revert i. induction l as [| y l IH]; intros [| i] H; simpl in *;
    try discriminate.
  - inversion H. reflexivity.
  - apply IH. exact H.
Qed.

Lemma police_source_loop (xx yy : ndarray F) (a : list F) :
  forall (police : list (F * F)) (i : nat) (f0 f : ndarray F),
    for_enum (fun i police_i f =>
        a_i <- index a i ;;
        c <- cut_off (amap (fun v => sub v (fst police_i)) xx)
                     (amap (fun v => sub v (snd police_i)) yy) ;;
        amap2 add f (amap (mul a_i) c)) i police f0 = Ok f ->
    shape f = shape f0 /\
    exists cs, cut_offs_at cut_off xx yy police cs /\
      forall r c, r < nrows f0 -> c < ncols f0 ->
        get f r c = weighted_sum_at r c (combine (skipn i a) cs) (get f0 r c).
Proof.
  intros police.
  induction police as [| police_i police IH]; simpl; intros i f0 f H.
  - inversion H; subst. split; [reflexivity |].
    exists []. split; [constructor |].
    intros r c _ _. destruct (skipn i a); reflexivity.
  - inv_bind H as f1 E1.
    inv_bind E1 as a_i Ea. inv_bind E1 as c_i Ec.
    apply index_ok_inv in Ea.
    destruct (IH _ _ _ H) as (Hshape & cs & Hcs & Hget).
    pose proof (amap2_shape _ _ _ _ E1) as [Hs1 Hs2].
    rewrite shape_amap in Hs2.
    split; [congruence |].
    exists (c_i :: cs). split; [constructor; assumption |].
    intros r c Hr Hc.
    unfold shape in Hs1, Hs2. inversion Hs1 as [[Hr1 Hc1]].
    inversion Hs2 as [[Hr2 Hc2]].
    rewrite Hget by lia.
    rewrite (skipn_nth_error _ _ _ Ea). simpl. f_equal.
    rewrite (get_amap2 _ _ _ _ _ _ E1) by assumption.
    rewrite get_amap by lia. reflexivity.
Qed.

Lemma cal_I2_loop (xx yy : ndarray F) :
  forall (police : list (F * F)) (i : nat)
         (x0 y0 cal_I2_x cal_I2_y : ndarray F),
    shape y0 = shape x0 ->
    for_enum (fun i police_i '(cal_I2_x, cal_I2_y) =>
        c <- cut_off (amap (fun v => sub v (fst police_i)) xx)
                     (amap (fun v => sub v (snd police_i)) yy) ;;
        t <- amap2 mul c (amap (fun v => sub (fst police_i) v) xx) ;;
        cal_I2_x <- amap2 add cal_I2_x t ;;
        c <- cut_off (amap (fun v => sub v (fst police_i)) xx)
                     (amap (fun v => sub v (snd police_i)) yy) ;;
        t <- amap2 mul c (amap (fun v => sub (snd police_i) v) yy) ;;
        cal_I2_y <- amap2 add cal_I2_y t ;;
        Ok (cal_I2_x, cal_I2_y)) i police (x0, y0) = Ok (cal_I2_x, cal_I2_y) ->
    shape cal_I2_x = shape x0 /\ shape cal_I2_y = shape x0 /\
    exists cs, cut_offs_at cut_off xx yy police cs /\
      forall r c, r < nrows x0 -> c < ncols x0 ->
        get cal_I2_x r c
        = repulsion_at fst xx r c (combine police cs) (get x0 r c) /\
        get cal_I2_y r c
        = repulsion_at snd yy r c (combine police cs) (get y0 r c).
Proof.
  intros police.
  induction police as [| police_i police IH]; simpl;
    intros i x0 y0 ix iy Hxy H.
  - inversion H; subst. split; [reflexivity |]. split; [exact Hxy |].
    exists []. split; [constructor |]. intros r c _ _. split; reflexivity.
  - inv_bind H as [x1 y1] E.
    inv_bind E as c1 Ec1. inv_bind E as tx Etx. inv_bind E as x1' Ex1.
    inv_bind E as c2 Ec2. inv_bind E as ty Ety. inv_bind E as y1' Ey1.
    inversion E; subst x1' y1'. clear E.
    rewrite Ec1 in Ec2. inversion Ec2; subst c2. clear Ec2.
    pose proof (amap2_shape _ _ _ _ Etx) as [Htx1 Htx2].
    pose proof (amap2_shape _ _ _ _ Ex1) as [Hx1 Hx1'].
    pose proof (amap2_shape _ _ _ _ Ety) as [Hty1 Hty2].
    pose proof (amap2_shape _ _ _ _ Ey1) as [Hy1 Hy1'].
    rewrite shape_amap in Htx2, Hty2.
    assert (Hxy1 : shape y1 = shape x1) by congruence.
    destruct (IH _ _ _ _ _ Hxy1 H) as (Hsx & Hsy & cs & Hcs & Hget).
    split; [congruence |]. split; [congruence |].
    exists (c1 :: cs). split; [constructor; assumption |].
    intros r c Hr Hc.
    assert (Hrx : nrows x1 = nrows x0) by shape_lia.
    assert (Hcx : ncols x1 = ncols x0) by shape_lia.
    assert (Hry : nrows y0 = nrows x0) by shape_lia.
    assert (Hcy : ncols y0 = ncols x0) by shape_lia.
    assert (Hrc : nrows c1 = nrows x0) by shape_lia.
    assert (Hcc : ncols c1 = ncols x0) by shape_lia.
    assert (Hrxx : nrows xx = nrows x0) by shape_lia.
    assert (Hcxx : ncols xx = ncols x0) by shape_lia.
    assert (Hryy : nrows yy = nrows x0) by shape_lia.
    assert (Hcyy : ncols yy = ncols x0) by shape_lia.
    destruct (Hget r c) as [Gx Gy]; [lia | lia |].
    rewrite Gx, Gy. simpl. unfold repulsion_at at 2 4. simpl.
    rewrite (get_amap2 _ _ _ _ _ _ Ex1) by lia.
    rewrite (get_amap2 _ _ _ _ _ _ Ey1) by lia.
    rewrite (get_amap2 _ _ _ _ _ _ Etx) by lia.
    rewrite (get_amap2 _ _ _ _ _ _ Ety) by lia.
    rewrite !get_amap by lia.
    split; reflexivity.
Qed.

(** C4: each component of the velocity field handed to the hyperbolic
    stepper is, cell by cell, the sum of [-dx*dy] times the same-mode
    convolution of the pirates with the mesh coordinate times the cut-off,
    of the accumulation over the police vessels of
    [cut_off(mesh - police_i) * (police_i - mesh)], and of the geometric
    drift. *)
Theorem C4_ship_velocity
    (p_density s_density : ndarray F) (police : list (F * F))
    (xx yy p_kernel : ndarray F) (dx dy dt : F) (a : list F)
    (velocity : F -> F) (nu_x nu_y : ndarray F)
    (p_new s_new : ndarray F) (police_new : list (F * F)) :
  one_step p_density s_density police xx yy p_kernel dx dy dt a velocity
           nu_x nu_y = Ok (p_new, s_new, police_new) ->
  exists vel_x vel_y c k_x k_y cs,
    one_step_hyperbolic s_density velocity vel_x vel_y dx dy dt = Ok s_new /\
    cut_off xx yy = Ok c /\
    amap2 mul xx c = Ok k_x /\
    amap2 mul yy c = Ok k_y /\
    cut_offs_at cut_off xx yy police cs /\
    forall r col, r < nrows xx -> col < ncols xx ->
      get vel_x r col
      = add (add (mul (mul (neg dx) dy)
                      (get (convolve2d_same p_density k_x) r col))
                 (repulsion_at fst xx r col (combine police cs) zero))
            (get nu_x r col) /\
      get vel_y r col
      = add (add (mul (mul (neg dx) dy)
                      (get (convolve2d_same p_density k_y) r col))
                 (repulsion_at snd yy r col (combine police cs) zero))
            (get nu_y r col).
Proof.
  intros H. apply one_step_evolution_ok_inv in H.
  destruct H as ((_ & Hpx & _) & flux_x & flux_y & dv & f & vel_x & vel_y
                 & _ & _ & _ & _ & Hvel & Hs & _).
  unfold ship_velocity in Hvel.
  inv_bind Hvel as c Ec. inv_bind Hvel as k_x Ekx.
  inv_bind Hvel as c' Ec'. inv_bind Hvel as k_y Eky.
  rewrite Ec in Ec'. inversion Ec'; subst c'. clear Ec'.
  inv_bind Hvel as [cal_I2_x cal_I2_y] EI2.
  inv_bind Hvel as cal_I_x EIx. inv_bind Hvel as cal_I_y EIy.
  inv_bind Hvel as vx Evx. inv_bind Hvel as vy Evy.
  inversion Hvel; subst vx vy. clear Hvel.
  unfold cal_I2 in EI2.
  destruct (cal_I2_loop _ _ _ _ _ _ _ _ (eq_refl _) EI2)
    as (HsI2x & HsI2y & cs & Hcs & Hget).
  exists vel_x, vel_y, c, k_x, k_y, cs.
  repeat (split; [assumption |]).
  intros r col Hr Hc.
  assert (Hrp : nrows p_density = nrows xx) by shape_lia.
  assert (Hcp : ncols p_density = ncols xx) by shape_lia.
  pose proof (amap2_shape _ _ _ _ EIx) as [HIx _].
  pose proof (amap2_shape _ _ _ _ EIy) as [HIy _].
  rewrite shape_amap, shape_convolve2d_same in HIx, HIy.
  assert (HrIx : nrows cal_I_x = nrows xx) by shape_lia.
  assert (HcIx : ncols cal_I_x = ncols xx) by shape_lia.
  assert (HrIy : nrows cal_I_y = nrows xx) by shape_lia.
  assert (HcIy : ncols cal_I_y = ncols xx) by shape_lia.
  destruct (Hget r col) as [Gx Gy]; [exact Hr | exact Hc |].
  unfold zeros_like in Gx, Gy. rewrite get_tab in Gx, Gy by assumption.
  rewrite (get_amap2 _ _ _ _ _ _ Evx) by lia.
  rewrite (get_amap2 _ _ _ _ _ _ Evy) by lia.
  rewrite (get_amap2 _ _ _ _ _ _ EIx)
    by (simpl; lia).
  rewrite (get_amap2 _ _ _ _ _ _ EIy)
    by (simpl; lia).
  rewrite !get_amap by (simpl; lia).
  rewrite Gx, Gy. split; reflexivity.
Qed.

Lemma police_step_loop (p_density s_density xx yy : ndarray F) (dx dy dt : F)
    (all : list (F * F)) :
  forall (police : list (F * F)) (i : nat) (acc0 acc : list (F * F)),
    for_enum (fun i police_i police_new =>
        '(F1_x, F1_y) <- force_F1 cut_off p_density s_density xx yy dx dy
                                  police_i ;;
        let '(F2_x, F2_y) := force_F2 (police_sum fst all) (police_sum snd all)
                                      (length all) police_i in
        let '(F3_x, F3_y) := force_F3 in
        q <- ode (add (add F1_x F2_x) F3_x) (add (add F1_y F2_y) F3_y)
                 police_i dt ;;
        Ok (police_new ++ [q])) i police acc0 = Ok acc ->
    exists qs, acc = acc0 ++ qs /\
      Forall2 (police_update ode cut_off p_density s_density xx yy dx dy dt all)
              police qs.
Proof.
  intros police.
  induction police as [| police_i police IH]; simpl; intros i acc0 acc H.
  - inversion H; subst. exists []. split; [symmetry; apply app_nil_r |].
    constructor.
  - inv_bind H as acc1 E. inv_bind E as [F1_x F1_y] EF1. inv_bind E as q Eq.
    inversion E; subst acc1. clear E.
    destruct (IH _ _ _ H) as (qs & -> & Hqs).
    exists (q :: qs). split; [rewrite <- app_assoc; reflexivity |].
    constructor; [| exact Hqs].
    exists F1_x, F1_y. split; assumption.
Qed.

Lemma police_step_spec
    (p_density s_density : ndarray F) (police : list (F * F))
    (xx yy p_kernel : ndarray F) (dx dy dt : F) (a : list F)
    (velocity : F -> F) (nu_x nu_y : ndarray F)
    (p_new s_new : ndarray F) (police_new : list (F * F)) :
  one_step p_density s_density police xx yy p_kernel dx dy dt a velocity
           nu_x nu_y = Ok (p_new, s_new, police_new) ->
  Forall2 (police_update ode cut_off p_density s_density xx yy dx dy dt police)
          police police_new.
Proof.
  intros H. apply one_step_evolution_ok_inv in H.
  destruct H as (_ & flux_x & flux_y & dv & f & vel_x & vel_y
                 & _ & _ & _ & _ & _ & _ & Hpol).
  unfold police_step in Hpol.
  destruct (police_step_loop _ _ _ _ _ _ _ _ _ _ _ _ Hpol) as (qs & -> & Hqs).
  exact Hqs.
Qed.

Lemma police_source_short (xx yy : ndarray F) (a : list F)
    (police : list (F * F)) :
  length a < length police ->
  is_ok (police_source cut_off xx yy a police) = false.
Proof.
  intros Hlen. unfold police_source.
  apply for_enum_raises with (bad := fun i => length a <= i).
  - intros i police_i f Hi. rewrite (index_raise a i Hi). reflexivity.
  - exists (length a). split; [exact Hlen | simpl; lia].
Qed.

(** C2, as the code has it: the orchestrator raises when the pirates, the
    ships and the two meshes do not share one shape, and when there are
    fewer coefficients than police vessels. *)
Theorem C2_raises_on_mismatch
    (p_density s_density : ndarray F) (police : list (F * F))
    (xx yy p_kernel : ndarray F) (dx dy dt : F) (a : list F)
    (velocity : F -> F) (nu_x nu_y : ndarray F) :
  shape p_density <> shape s_density \/ shape p_density <> shape xx \/
  shape p_density <> shape yy \/ length a < length police ->
  exists e, one_step p_density s_density police xx yy p_kernel dx dy dt a
                     velocity nu_x nu_y = Raise e.
Proof.
  intros Hbad.
  destruct (one_step p_density s_density police xx yy p_kernel dx dy dt a
                     velocity nu_x nu_y) as [[[p_new s_new] police_new] | e]
    eqn:E; [exfalso | exists e; reflexivity].
  apply one_step_evolution_ok_inv in E.
  destruct E as ((Hs & Hx & Hy) & flux_x & flux_y & dv & f & vel_x & vel_y
                 & _ & _ & Hf & _).
  destruct Hbad as [Hbad | [Hbad | [Hbad | Hbad]]]; try contradiction.
  apply (police_source_short xx yy) in Hbad. rewrite Hf in Hbad.
  discriminate Hbad.
Qed.

(** A shape mismatch is reported by the assertions, before anything is
    computed. *)
Lemma one_step_evolution_assertion
    (p_density s_density : ndarray F) (police : list (F * F))
    (xx yy p_kernel : ndarray F) (dx dy dt : F) (a : list F)
    (velocity : F -> F) (nu_x nu_y : ndarray F) :
  shape p_density <> shape s_density \/ shape p_density <> shape xx \/
  shape p_density <> shape yy ->
  one_step p_density s_density police xx yy p_kernel dx dy dt a velocity
           nu_x nu_y = Raise AssertionError.
Proof.
  intros Hbad. unfold one_step_evolution.
  destruct (shape_eqb (shape p_density) (shape s_density)) eqn:E1; simpl;
    [| reflexivity].
  destruct (shape_eqb (shape p_density) (shape xx)) eqn:E2; simpl;
    [| reflexivity].
  destruct (shape_eqb (shape p_density) (shape yy)) eqn:E3; simpl;
    [| reflexivity].
  apply shape_eqb_true in E1, E2, E3. tauto.
Qed.

Lemma for_enum_ext {A St : Type} (body body' : nat -> A -> St -> result St) :
  forall (l : list A) (i : nat) (st : St),
    (forall k x st, i <= k < i + length l -> body k x st = body' k x st) ->
    for_enum body i l st = for_enum body' i l st.
Proof.
  induction l as [| x l IH]; simpl; intros i st H.
  - reflexivity.
  - rewrite H by lia. destruct (body' i x st) as [st1 | e]; simpl.
    + apply IH. intros k y st2 Hk. apply H. lia.
    + reflexivity.
Qed.

(** Coefficients beyond the number of police vessels are never read. *)
Lemma one_step_evolution_surplus
    (p_density s_density : ndarray F) (police : list (F * F))
    (xx yy p_kernel : ndarray F) (dx dy dt : F) (a surplus : list F)
    (velocity : F -> F) (nu_x nu_y : ndarray F) :
  length police <= length a ->
  one_step p_density s_density police xx yy p_kernel dx dy dt (a ++ surplus)
           velocity nu_x nu_y
  = one_step p_density s_density police xx yy p_kernel dx dy dt a
             velocity nu_x nu_y.
Proof.
  intros Hlen. unfold one_step_evolution.
  assert (Hsrc : police_source cut_off xx yy (a ++ surplus) police
                 = police_source cut_off xx yy a police).
  { unfold police_source. apply for_enum_ext. intros k police_k f Hk.
    unfold index. rewrite nth_error_app1 by (simpl in Hk; lia). reflexivity. }
  rewrite Hsrc. reflexivity.
Qed.

(** *** Shapes *)

Lemma police_step_length (p_density s_density xx yy : ndarray F)
    (dx dy dt sum_x sum_y : F) (M : nat) (police police_new : list (F * F)) :
  police_step ode cut_off p_density s_density xx yy dx dy dt sum_x sum_y M
              police = Ok police_new ->
  length police_new = length police.
Proof.
  unfold police_step.
  assert (G : forall l i acc0 acc,
            for_enum (fun i police_i police_new =>
              '(F1_x, F1_y) <- force_F1 cut_off p_density s_density xx yy
                                        dx dy police_i ;;
              let '(F2_x, F2_y) := force_F2 sum_x sum_y M police_i in
              let '(F3_x, F3_y) := force_F3 in
              q <- ode (add (add F1_x F2_x) F3_x) (add (add F1_y F2_y) F3_y)
                       police_i dt ;;
              Ok (police_new ++ [q])) i l acc0 = Ok acc ->
            length acc = length acc0 + length l).
  { induction l as [| police_i l IH]; simpl; intros i acc0 acc H.
    - inversion H. lia.
    - inv_bind H as acc1 E. inv_bind E as [F1_x F1_y] E1. inv_bind E as q Eq.
      inversion E; subst acc1. apply IH in H. rewrite length_app in H.
      simpl in H. lia. }
  intros H. apply G in H. simpl in H. exact H.
Qed.

(** Whatever the orchestrator returns has the shapes and the length of its
    arguments, as soon as the two field steppers keep the shape of the
    field they advance. *)
Lemma one_step_evolution_shapes
    (p_density s_density : ndarray F) (police : list (F * F))
    (xx yy p_kernel : ndarray F) (dx dy dt : F) (a : list F)
    (velocity : F -> F) (nu_x nu_y : ndarray F)
    (p_new s_new : ndarray F) (police_new : list (F * F)) :
  (forall p xx yy d f dx dy dt p',
      one_step_parabolic p xx yy d f dx dy dt = Ok p' -> shape p' = shape p) ->
  (forall s v vx vy dx dy dt s',
      one_step_hyperbolic s v vx vy dx dy dt = Ok s' -> shape s' = shape s) ->
  one_step p_density s_density police xx yy p_kernel dx dy dt a velocity
           nu_x nu_y = Ok (p_new, s_new, police_new) ->
  shape p_new = shape p_density /\ shape s_new = shape s_density /\
  length police_new = length police.
Proof.
  intros Hpar Hhyp H. apply one_step_evolution_ok_inv in H.
  destruct H as (_ & flux_x & flux_y & dv & f & vel_x & vel_y
                 & _ & _ & _ & Hp & _ & Hs & Hpol).
  split; [eapply Hpar; exact Hp |]. split; [eapply Hhyp; exact Hs |].
  eapply police_step_length; exact Hpol.
Qed.

(** *** Valid states: the orchestrator returns *)

Section Valid.
Variables (p_density s_density xx yy p_kernel nu_x nu_y : ndarray F).
Variables (dx dy dt : F) (a : list F) (police : list (F * F)).
Variable velocity : F -> F.

Hypothesis shape_s : shape s_density = shape p_density.
Hypothesis shape_xx : shape xx = shape p_density.
Hypothesis shape_yy : shape yy = shape p_density.
Hypothesis shape_nu_x : shape nu_x = shape p_density.
Hypothesis shape_nu_y : shape nu_y = shape p_density.
Hypothesis rows_2 : 2 <= nrows p_density.
Hypothesis cols_2 : 2 <= ncols p_density.
Hypothesis length_a : length a = length police.
Hypothesis kappa_ok : forall x, shape x = shape p_density ->
  exists k, kappa x = Ok k /\ shape k = shape p_density.
Hypothesis cut_off_ok : forall x y,
  shape x = shape p_density -> shape y = shape p_density ->
  exists c, cut_off x y = Ok c /\ shape c = shape p_density.
Hypothesis parabolic_ok : forall d f,
  shape d = shape p_density -> shape f = shape p_density ->
  exists p', one_step_parabolic p_density xx yy d f dx dy dt = Ok p' /\
             shape p' = shape p_density.
Hypothesis hyperbolic_ok : forall vx vy,
  shape vx = shape p_density -> shape vy = shape p_density ->
  exists s', one_step_hyperbolic s_density velocity vx vy dx dy dt = Ok s' /\
             shape s' = shape s_density.
Hypothesis ode_ok : forall F_x F_y q h, exists q', ode F_x F_y q h = Ok q'.

Lemma pirate_flux_valid :
  exists flux_x flux_y,
    pirate_flux kappa p_density s_density p_kernel dx dy
      = Ok (flux_x, flux_y) /\
    shape flux_x = shape p_density /\ shape flux_y = shape p_density.
Proof.
  unfold pirate_flux.
  destruct (gradient_ok (amap (mul (mul dx dy))
                              (convolve2d_same s_density p_kernel)) dy dx)
    as (grad_py & grad_px & -> & Hpy & Hpx); [shape_solve; lia .. |].
  assert (shape grad_py = shape p_density) by shape_solve.
  assert (shape grad_px = shape p_density) by shape_solve.
  simpl bind. ok_amap2.
  match goal with |- context [kappa ?n] => remember n as norm eqn:Hn end.
  destruct (kappa_ok norm) as (k & Ek & Hk); [subst norm; shape_solve |].
  rewrite Ek. simpl bind. do 4 ok_amap2.
  eexists. eexists. split; [reflexivity |].
  split; shape_solve.
Qed.

Lemma divergence_valid (flux_x flux_y : ndarray F) :
  shape flux_x = shape p_density -> shape flux_y = shape p_density ->
  exists div, divergence flux_x flux_y dx dy = Ok div /\
              shape div = shape p_density.
Proof.
  intros Hx Hy. unfold divergence.
  destruct (gradient_ok flux_x dy dx) as (t1 & div1 & -> & _ & H1);
    [shape_solve; lia .. |].
  destruct (gradient_ok flux_y dy dx) as (div2 & t2 & -> & H2 & _);
    [shape_solve; lia .. |].
  simpl bind. ok_amap2. eexists. split; [reflexivity | shape_solve].
Qed.

Lemma cut_off_at_ok (f g : F -> F) :
  exists c, cut_off (amap f xx) (amap g yy) = Ok c /\
            shape c = shape p_density.
Proof. apply cut_off_ok; shape_solve. Qed.

Lemma police_source_valid :
  exists f, police_source cut_off xx yy a police = Ok f /\
            shape f = shape p_density.
Proof.
  unfold police_source.
  apply for_enum_total with (P := fun f => shape f = shape p_density);
    [| shape_solve].
  intros k police_k f Hk Hf. unfold index.
  destruct (nth_error a k) as [a_k |] eqn:Ea;
    [| apply nth_error_None in Ea; simpl in Hk; lia].
  simpl bind.
  destruct (cut_off_at_ok (fun v => sub v (fst police_k))
                          (fun v => sub v (snd police_k)))
    as (c & -> & Hc).
  simpl bind. ok_amap2. eexists. split; [reflexivity | shape_solve].
Qed.

Lemma ship_velocity_valid :
  exists vel_x vel_y,
    ship_velocity cut_off p_density xx yy police dx dy nu_x nu_y
      = Ok (vel_x, vel_y) /\
    shape vel_x = shape p_density /\ shape vel_y = shape p_density.
Proof.
  unfold ship_velocity.
  destruct (cut_off_ok xx yy shape_xx shape_yy) as (c & Ec & Hc).
  rewrite Ec. simpl bind. ok_amap2. ok_amap2.
  assert (HI2 : exists I2, cal_I2 cut_off xx yy police = Ok I2 /\
                  shape (fst I2) = shape p_density /\
                  shape (snd I2) = shape p_density).
  { unfold cal_I2.
    apply for_enum_total
      with (P := fun I2 : ndarray F * ndarray F =>
                   shape (fst I2) = shape p_density /\
                   shape (snd I2) = shape p_density);
      [| split; shape_solve].
    intros k police_k [I2x I2y] _ [HIx HIy]. simpl in HIx, HIy.
    destruct (cut_off_at_ok (fun v => sub v (fst police_k))
                            (fun v => sub v (snd police_k)))
      as (c' & Ec' & Hc').
    rewrite Ec'. simpl bind. do 4 ok_amap2.
    eexists. split; [reflexivity |]. split; shape_solve. }
  destruct HI2 as ([I2x I2y] & -> & HIx & HIy). simpl in HIx, HIy.
  simpl bind. do 4 ok_amap2.
  eexists. eexists. split; [reflexivity |]. split; shape_solve.
Qed.

Lemma force_F1_valid (police_i : F * F) :
  exists F1, force_F1 cut_off p_density s_density xx yy dx dy police_i = Ok F1.
Proof.
  unfold force_F1.
  destruct (cut_off_at_ok (fun v => sub (fst police_i) v)
                          (fun v => sub (snd police_i) v))
    as (c & -> & Hc).
  simpl bind. do 4 ok_amap2. eexists. reflexivity.
Qed.

Lemma police_step_valid (sum_x sum_y : F) (M : nat) :
  exists police_new,
    police_step ode cut_off p_density s_density xx yy dx dy dt sum_x sum_y M
                police = Ok police_new.
Proof.
  unfold police_step.
  destruct (for_enum_total
              (fun i police_i police_new =>
                 '(F1_x, F1_y) <- force_F1 cut_off p_density s_density xx yy
                                           dx dy police_i ;;
                 let '(F2_x, F2_y) := force_F2 sum_x sum_y M police_i in
                 let '(F3_x, F3_y) := force_F3 in
                 q <- ode (add (add F1_x F2_x) F3_x)
                          (add (add F1_y F2_y) F3_y) police_i dt ;;
                 Ok (police_new ++ [q]))
              (fun _ => True) police 0 []) as (r & Hr & _); [| exact I |].
  - intros k police_k acc _ _.
    destruct (force_F1_valid police_k) as ([F1_x F1_y] & ->). simpl.
    match goal with |- context [ode ?fx ?fy ?q ?h] =>
      destruct (ode_ok fx fy q h) as (q' & ->) end.
    simpl. eexists. split; [reflexivity | exact I].
  - exists r. exact Hr.
Qed.

(** The orchestrator returns on every valid state, and what it returns has
    the shapes and the length of the state. *)
Lemma one_step_evolution_valid :
  exists p_new s_new police_new,
    one_step p_density s_density police xx yy p_kernel dx dy dt a velocity
             nu_x nu_y = Ok (p_new, s_new, police_new) /\
    shape p_new = shape p_density /\ shape s_new = shape s_density /\
    length police_new = length police.
Proof.
  unfold one_step_evolution.
  rewrite shape_s, shape_xx, shape_yy, shape_eqb_refl. simpl.
  destruct pirate_flux_valid as (flux_x & flux_y & -> & Hfx & Hfy). simpl bind.
  destruct (divergence_valid flux_x flux_y Hfx Hfy) as (dv & -> & Hdv).
  simpl bind.
  destruct police_source_valid as (f & -> & Hf). simpl bind.
  destruct (parabolic_ok dv (amap neg f)) as (p_new & -> & Hp);
    [exact Hdv | shape_solve |].
  simpl bind.
  destruct ship_velocity_valid as (vel_x & vel_y & -> & Hvx & Hvy). simpl bind.
  destruct (hyperbolic_ok vel_x vel_y Hvx Hvy) as (s_new & -> & Hs).
  simpl bind.
  destruct (police_step_valid (police_sum fst police) (police_sum snd police)
                              (length police)) as (police_new & E).
  rewrite E. simpl bind.
  exists p_new, s_new, police_new. split; [reflexivity |].
  split; [exact Hp |]. split; [congruence |].
  eapply police_step_length. exact E.
Qed.

(** C7: on a valid state (fields, meshes and drift of one shape with at
    least two rows and two columns, as many coefficients as police vessels,
    callables and steppers that return fields of that shape) the
    orchestrator returns, and the pirate field and the ship field it returns
    have the shape of the fields it was given, the list of positions the
    length of the list it was given. *)
Theorem C7_shape_invariance :
  exists p_new s_new police_new,
    one_step p_density s_density police xx yy p_kernel dx dy dt a velocity
             nu_x nu_y = Ok (p_new, s_new, police_new) /\
    shape p_new = shape p_density /\ shape s_new = shape s_density /\
    length police_new = length police.
Proof. exact one_step_evolution_valid. Qed.

End Valid.

End OneStepFacts.

(** ** The steppers of the specification *)

Section StepperFacts.
Import numpy.
Context {F : Type} {Sc : Scalar F}.

Lemma one_step_parabolic_valid (p_density xx yy div f : ndarray F)
    (dx dy dt : F) :
  shape div = shape p_density -> shape f = shape p_density ->
  exists p_new,
    pde.one_step_parabolic p_density xx yy div f dx dy dt = Ok p_new /\
    shape p_new = shape p_density.
Proof.
  intros Hd Hf. unfold pde.one_step_parabolic. do 2 ok_amap2.
  eexists. split; [reflexivity | shape_solve].
Qed.

Lemma one_step_hyperbolic_valid (s_density : ndarray F) (velocity : F -> F)
    (vel_x vel_y : ndarray F) (dx dy dt : F) :
  shape vel_x = shape s_density -> shape vel_y = shape s_density ->
  exists s_new,
    pde.one_step_hyperbolic s_density velocity vel_x vel_y dx dy dt
      = Ok s_new /\
    shape s_new = shape s_density.
Proof.
  intros Hx Hy. unfold pde.one_step_hyperbolic. do 5 ok_amap2.
  eexists. split; [reflexivity | shape_solve].
Qed.

(** Forward Euler, over every scalar type. *)
Lemma ode_forward_euler (F_x F_y x y dt : F) :
  ode.ode F_x F_y (x, y) dt = (add x (mul dt F_x), add y (mul dt F_y)).
Proof. reflexivity. Qed.

End StepperFacts.

(** C6: for every force, position and time step the stepper of the police
    positions returns [(x + dt*Fx, y + dt*Fy)]; in binary64, for the force
    [(2.0, -1.0)], the position [(3.0, 4.0)] and [dt = 0.1] it returns
    [(3.2, 3.9)]. *)
Theorem C6_forward_euler :
  (forall (F : Type) (Sc : Scalar F) (F_x F_y x y dt : F),
      ode.ode F_x F_y (x, y) dt = (add x (mul dt F_x), add y (mul dt F_y))) /\
  ode.ode 2%float (-1)%float (3%float, 4%float) 0.1%float
  = (3.2%float, 3.9%float).
Proof.
  split.
  - intros. reflexivity.
  - vm_compute. reflexivity.
Qed.

(** ** The statements at concrete states *)

Section Witnesses.
Import numpy evolution.

Lemma C4_ship_velocity_witness :
  examples.run [1; 1.5]%float = Ok examples.out /\
  exists vel_x vel_y : ndarray float,
    pde.one_step_hyperbolic examples.s_density examples.speed_ships
      vel_x vel_y 0.1%float 0.1%float 0.01%float
    = Ok (snd (fst examples.out)).
Proof.
  assert (H : examples.run [1; 1.5]%float
              = Ok (fst (fst examples.out), snd (fst examples.out),
                    snd examples.out))
    by (vm_compute; reflexivity).
  split; [exact H |].
  apply C4_ship_velocity in H.
  destruct H as (vel_x & vel_y & c & k_x & k_y & cs & Hs & _).
  exists vel_x, vel_y. exact Hs.
Defined.

(** C2 as stated fails: two coefficients for one police vessel are
    accepted, and the orchestrator returns. *)
Lemma C2_counterexample :
  length [1; 1.5]%float <> length examples.police /\
  examples.run [1; 1.5]%float = Ok examples.out.
Proof.
  split; [simpl; lia | vm_compute; reflexivity].
Qed.

Lemma C2_raises_on_mismatch_witness :
  length (@nil float) < length examples.police /\
  exists e, examples.run [] = Raise e.
Proof.
  split; [simpl; lia |].
  unfold examples.run. apply C2_raises_on_mismatch.
  right. right. right. simpl. lia.
Defined.

Lemma cut_off_Z_valid (x y : ndarray Z) :
  shape x = shape examples.p_density_Z ->
  shape y = shape examples.p_density_Z ->
  exists c, examples.cut_off_Z x y = Ok c /\
            shape c = shape examples.p_density_Z.
Proof.
  intros Hx Hy. unfold examples.cut_off_Z. ok_amap2.
  eexists. split; [reflexivity | shape_solve].
Defined.

Lemma C7_shape_invariance_witness :
  exists p_new s_new police_new,
    examples.run_Z examples.p_density_Z examples.police_Z [5]%Z
      = Ok (p_new, s_new, police_new) /\
    shape p_new = shape examples.p_density_Z /\
    shape s_new = shape examples.s_density_Z /\
    length police_new = length examples.police_Z.
Proof.
  unfold examples.run_Z. apply C7_shape_invariance.
  - reflexivity.
  - reflexivity.
  - reflexivity.
  - reflexivity.
  - reflexivity.
  - simpl. lia.
  - simpl. lia.
  - reflexivity.
  - intros x Hx. exists x. split; [reflexivity | exact Hx].
  - exact cut_off_Z_valid.
  - intros d f Hd Hf. apply one_step_parabolic_valid; assumption.
  - intros vx vy Hx Hy. apply one_step_hyperbolic_valid.
    + rewrite Hx. reflexivity.
    + rewrite Hy. reflexivity.
  - intros F_x F_y q h. eexists. reflexivity.
Defined.

End Witnesses.

(** ** The driver *)

Section DriverFacts.
Import numpy evolution.
Context {F : Type} {Sc : Scalar F}.
Variable one_step_parabolic :
  ndarray F -> ndarray F -> ndarray F -> ndarray F -> ndarray F ->
  F -> F -> F -> result (ndarray F).
Variable one_step_hyperbolic :
  ndarray F -> (F -> F) -> ndarray F -> ndarray F -> F -> F -> F ->
  result (ndarray F).
Variable ode : F -> F -> F * F -> F -> result (F * F).
Variable cut_off : ndarray F -> ndarray F -> result (ndarray F).
Variable kappa : ndarray F -> result (ndarray F).
Variable World : Type.
Variable solution_Save :
  string -> string -> F -> ndarray F -> ndarray F -> list (F * F) ->
  World -> result World.
Variable pirates : @pirates_class F.

Abbreviation loop_body :=
  (evolution_body one_step_parabolic one_step_hyperbolic ode cut_off kappa
                  solution_Save pirates).
Abbreviation n_steps :=
  (steps one_step_parabolic one_step_hyperbolic ode cut_off kappa pirates).

(** Every iteration of the loop is one one-step evolution of the state; it
    calls the persistence layer exactly when [printing[i]] holds. *)
Lemma evolution_body_spec (i : nat) (time_i : F)
    (st st' : @loop_state F World) :
  loop_body i time_i st = Ok st' ->
  n_steps 1 (p_density st, s_density st, police st)
    = Ok (p_density st', s_density st', police st') /\
  print_number st'
    = print_number st + (if nth i (printing pirates) false then 1 else 0) /\
  (nth i (printing pirates) false = false -> world st' = world st).
Proof.
  unfold evolution_body. intros H.
  inv_bind H as nu_0 E0. inv_bind H as nu_1 E1.
  inv_bind H as [[p s] pol] Estep. inv_bind H as printing_i Eprint.
  apply index_ok_inv in Eprint.
  rewrite (nth_error_nth _ _ false Eprint).
  rewrite E1 in E0. inversion E0; subst nu_0. clear E0.
  simpl steps. rewrite E1. simpl bind. rewrite Estep. simpl bind.
  destruct printing_i.
  - inv_bind H as w Ew. inversion H; subst st'. simpl.
    split; [reflexivity |]. split; [reflexivity | discriminate].
  - inversion H; subst st'. simpl.
    split; [reflexivity |]. split; [lia | reflexivity].
Qed.

Lemma steps_succ (n : nat) (st st1 st2 : ndarray F * ndarray F * list (F * F)) :
  n_steps 1 st = Ok st1 -> n_steps n st1 = Ok st2 -> n_steps (S n) st = Ok st2.
Proof.
  simpl. intros H1 H2.
  destruct (ships_direction pirates (x pirates) (y pirates)) as [nu | e];
    simpl in *; [| discriminate].
  destruct (one_step_evolution _ _ _ _ _ _ _ _ _ _ _ _ _ _ _ _ _ _)
    as [st' | e]; simpl in *; [| discriminate].
  inversion H1; subst st'. exact H2.
Qed.

Lemma evolution_loop_spec :
  forall (l : list F) (i : nat) (st st' : @loop_state F World),
    for_enum loop_body i l st = Ok st' ->
    n_steps (length l) (p_density st, s_density st, police st)
      = Ok (p_density st', s_density st', police st') /\
    print_number st'
      = print_number st + prints (printing pirates) i (length l) /\
    (prints (printing pirates) i (length l) = 0 -> world st' = world st).
Proof.
  induction l as [| time_i l IH]; intros i st st' H.
  - simpl in H. inversion H; subst st'. simpl.
    split; [reflexivity |]. split; [lia | reflexivity].
  - simpl in H. inv_bind H as st1 E1.
    apply evolution_body_spec in E1. destruct E1 as (Hs1 & Hp1 & Hw1).
    apply IH in H. destruct H as (Hs & Hp & Hw).
    split; [eapply steps_succ; eassumption |].
    simpl length. simpl prints. split; [lia |].
    intros Hzero.
    destruct (nth i (printing pirates) false); [discriminate |].
    rewrite Hw by exact Hzero. apply Hw1. reflexivity.
Qed.

End DriverFacts.

(** ** The orchestrator on Python objects *)

Section HeapFacts.
Import objects.
Context {F : Type} {Sc : Scalar F}.

Lemma mbind_ok_inv {A B : Type} (m : Py F A) (k : A -> Py F B) (h h' : heap F)
    (b : B) :
  mbind m k h = Ok (b, h') ->
  exists a h1, m h = Ok (a, h1) /\ k a h1 = Ok (b, h').
Proof.
  unfold mbind. destruct (m h) as [[a h1] | e]; intros H.
  - exists a, h1. split; [reflexivity | exact H].
  - discriminate H.
Qed.

Lemma ret_ok_inv {A : Type} (a b : A) (h h' : heap F) :
  ret a h = Ok (b, h') -> b = a /\ h' = h.
Proof. unfold ret. intros H. inversion H. split; reflexivity. Qed.

Lemma lift_ok_inv {A : Type} (r : result A) (a : A) (h h' : heap F) :
  lift r h = Ok (a, h') -> h' = h /\ r = Ok a.
Proof.
  unfold lift. destruct r; intros H; inversion H. split; reflexivity.
Qed.

Lemma new_ok_inv (o : object F) (l : nat) (h h' : heap F) :
  new o h = Ok (l, h') -> l = length h /\ h' = h ++ [o].
Proof. unfold new. intros H. inversion H. split; reflexivity. Qed.

Lemma load_ok_inv (l : nat) (a : ndarray F) (h h' : heap F) :
  load l h = Ok (a, h') -> h' = h /\ nth_error h l = Some (Ndarray a).
Proof.
  unfold load. destruct (nth_error h l) as [[a' | ps] |]; intros H;
    inversion H. split; reflexivity.
Qed.

Lemma load_list_ok_inv (l : nat) (ps : list (F * F)) (h h' : heap F) :
  load_list l h = Ok (ps, h') -> h' = h /\ nth_error h l = Some (PyList ps).
Proof.
  unfold load_list. destruct (nth_error h l) as [[a' | ps'] |]; intros H;
    inversion H. split; reflexivity.
Qed.

Lemma store_ok_inv (l : nat) (o : object F) (u : unit) (h h' : heap F) :
  store l o h = Ok (u, h') -> h' = update h l o /\ l < length h.
Proof.
  unfold store. destruct (Nat.ltb_spec l (length h)) as [Hlt | Hge];
    intros H; inversion H.
  split; [reflexivity | exact Hlt].
Qed.

Lemma nth_error_snoc {A : Type} (l : list A) (x : A) :
  nth_error (l ++ [x]) (length l) = Some x.
Proof.
  rewrite nth_error_app2 by lia. rewrite Nat.sub_diag. reflexivity.
Qed.

Lemma length_update {A : Type} (l : list A) (i : nat) (x : A) :
  length (update l i x) = length l.
Proof.
  revert i. induction l as [| y l IH]; intros [| i]; simpl; auto.
Qed.

Lemma nth_error_update_eq {A : Type} (l : list A) (i : nat) (x : A) :
  i < length l -> nth_error (update l i x) i = Some x.
Proof.
  revert i. induction l as [| y l IH]; intros [| i]; simpl; intros H;
    try lia; [reflexivity | apply IH; lia].
Qed.

Lemma nth_error_update_neq {A : Type} (l : list A) (i j : nat) (x : A) :
  i <> j -> nth_error (update l i x) j = nth_error l j.
Proof.
  revert i j. induction l as [| y l IH]; intros [| i] [| j]; simpl; intros H;
    try reflexivity; try lia. apply IH. lia.
Qed.

Lemma update_app_r {A : Type} (l1 l2 : list A) (i : nat) (x : A) :
  length l1 <= i -> update (l1 ++ l2) i x = l1 ++ update l2 (i - length l1) x.
Proof.
  revert i. induction l1 as [| y l1 IH]; simpl; intros i H.
  - rewrite Nat.sub_0_r. reflexivity.
  - destruct i as [| i]; [lia |]. simpl. rewrite IH by lia. reflexivity.
Qed.

Lemma extends_refl (h : heap F) : extends h h.
Proof. exists []. symmetry. apply app_nil_r. Qed.

Lemma extends_trans (h1 h2 h3 : heap F) :
  extends h1 h2 -> extends h2 h3 -> extends h1 h3.
Proof.
  intros [e1 ->] [e2 ->]. exists (e1 ++ e2). symmetry. apply app_assoc.
Qed.

Lemma extends_snoc (h h' : heap F) (o : object F) :
  extends h h' -> extends h (h' ++ [o]).
Proof. intros [e ->]. exists (e ++ [o]). symmetry. apply app_assoc. Qed.

Lemma extends_update (h h' : heap F) (l : nat) (o : object F) :
  extends h h' -> length h <= l -> extends h (update h' l o).
Proof.
  intros [e ->] H. rewrite update_app_r by exact H. eexists. reflexivity.
Qed.

Lemma extends_length (h h' : heap F) : extends h h' -> length h <= length h'.
Proof. intros [e ->]. rewrite length_app. lia. Qed.

Lemma holds_lt (h : heap F) (l : nat) (o : object F) :
  holds h l o -> l < length h.
Proof. unfold holds. intros H. apply nth_error_Some. congruence. Qed.

Lemma holds_extends (h h' : heap F) (l : nat) (o : object F) :
  holds h l o -> extends h h' -> holds h' l o.
Proof.
  intros H [e ->]. unfold holds.
  rewrite nth_error_app1 by (eapply holds_lt; exact H). exact H.
Qed.

(** What [extends] is about: the objects of [h] are untouched. *)
Lemma extends_nth_error (h h' : heap F) (l : nat) :
  extends h h' -> l < length h -> nth_error h' l = nth_error h l.
Proof. intros [e ->] H. apply nth_error_app1. exact H. Qed.

End HeapFacts.

(** Lengths of heaps and comparisons of references. *)
Ltac heap_len :=
  repeat match goal with
         | K : objects.holds _ _ _ |- _ => apply holds_lt in K
         | X : objects.extends _ _ |- _ => apply extends_length in X
         end;
  repeat first [rewrite length_app in * | rewrite length_update in *];
  simpl length in *; lia.

(** The object a load has found, in a hypothesis
    [E : nth_error heap l = Some o]. *)
Ltac heap_find E :=
  repeat first
    [ rewrite nth_error_app1 in E by heap_len
    | rewrite nth_error_update_neq in E by heap_len
    | match goal with
      | X : objects.extends ?hk ?h1 |- _ =>
          match type of E with
          | nth_error h1 _ = _ =>
              rewrite (extends_nth_error _ _ _ X) in E by heap_len
          end
      end ];
  first
    [ rewrite nth_error_snoc in E
    | rewrite nth_error_update_eq in E by heap_len
    | match goal with
      | K : objects.holds ?h ?l _ |- _ =>
          match type of E with
          | nth_error h l = _ => rewrite (K : nth_error h l = Some _) in E
          end
      end ];
  injection E as E;
  match type of E with
  | ?v = ?a => first [subst a | subst v]
  end.

(** Symbolic execution of a computation that returned,
    [H : m h = Ok (r, h')]: every statement is inverted in turn, the loads
    are resolved against the heap built so far, and the results of the
    array operations are left as equations. *)
Ltac heap_run H :=
  lazymatch type of H with
  | objects.mbind _ _ _ = Ok _ =>
      let x := fresh "x" in
      let h := fresh "h" in
      let E := fresh "E" in
      apply mbind_ok_inv in H; destruct H as (x & h & E & H);
      heap_run E;
      (* a call that was not inverted is left to its own lemma *)
      tryif (lazymatch type of E with
             | _ ?hh = Ok (_, _) =>
                 lazymatch type of hh with
                 | objects.heap _ => idtac
                 | list (objects.object _) => idtac
                 end
             end)
      then idtac else heap_run H
  | (let (_, _) := ?p in _) _ = Ok _ => destruct p; heap_run H
  | objects.load _ _ = Ok _ =>
      apply load_ok_inv in H; destruct H as [-> H]; heap_find H
  | objects.load_list _ _ = Ok _ =>
      apply load_list_ok_inv in H; destruct H as [-> H]; heap_find H
  | objects.lift _ _ = Ok _ =>
      apply lift_ok_inv in H; destruct H as [-> H];
      try (injection H as H; subst)
  | objects.new _ _ = Ok _ =>
      apply new_ok_inv in H; destruct H as [-> ->]
  | objects.store _ _ _ = Ok _ =>
      apply store_ok_inv in H; destruct H as [-> H]
  | objects.ret _ _ = Ok _ =>
      apply ret_ok_inv in H;
      let H1 := fresh "R" in
      destruct H as [H1 ->]; try (injection H1 as ? ?); subst
  | _ => idtac
  end.

(** Two results of one pure call are one result. *)
Ltac same_results :=
  repeat match goal with
         | E1 : ?r = Ok ?a, E2 : ?r = Ok ?b |- _ =>
             rewrite E1 in E2; injection E2 as E2;
             match type of E2 with
             | ?v = ?w => first [subst w | subst v]
             end
         end;
  repeat match goal with
         | x : (_ * _)%type |- _ => destruct x
         end;
  simpl fst in *; simpl snd in *.

(** The pure computation follows the equations left by [heap_run]. *)
Ltac pure_run :=
  repeat match goal with
         | E : ?r = Ok _ |- context [?r] => rewrite E; simpl bind
         end.

Ltac heap_extends :=
  repeat first
    [ apply extends_refl
    | assumption
    | apply extends_snoc
    | apply extends_update; [| heap_len]
    | match goal with
      | X : objects.extends ?hk ?h1 |- objects.extends _ ?h1 =>
          apply (fun Y => extends_trans _ _ _ Y X)
      end ].

Ltac heap_holds :=
  unfold objects.holds;
  repeat first
    [ rewrite nth_error_app1 by heap_len
    | rewrite nth_error_update_neq by heap_len
    | match goal with
      | X : objects.extends ?hk ?h1 |- nth_error ?h1 _ = _ =>
          rewrite (extends_nth_error _ _ _ X) by heap_len
      end ];
  first
    [ apply nth_error_snoc
    | apply nth_error_update_eq; heap_len
    | match goal with
      | K : objects.holds ?h ?l _ |- nth_error ?h ?l = _ => exact K
      end ].

Section Simulation.
Import numpy scipy_signal objects.
Context {F : Type} {Sc : Scalar F}.
Variable one_step_parabolic :
  ndarray F -> ndarray F -> ndarray F -> ndarray F -> ndarray F ->
  F -> F -> F -> result (ndarray F).
Variable one_step_hyperbolic :
  ndarray F -> (F -> F) -> ndarray F -> ndarray F -> F -> F -> F ->
  result (ndarray F).
Variable ode : F -> F -> F * F -> F -> result (F * F).
Variable cut_off : ndarray F -> ndarray F -> result (ndarray F).
Variable kappa : ndarray F -> result (ndarray F).

Lemma pirate_flux_sim (h h' : heap F) (p s K : ndarray F)
    (p_density s_density p_kernel : nat) (dx dy : F) (flux_x flux_y : nat) :
  holds h p_density (Ndarray p) -> holds h s_density (Ndarray s) ->
  holds h p_kernel (Ndarray K) ->
  pirate_flux kappa p_density s_density p_kernel dx dy h
    = Ok ((flux_x, flux_y), h') ->
  exists fx fy,
    evolution.pirate_flux kappa p s K dx dy = Ok (fx, fy) /\
    extends h h' /\
    holds h' flux_x (Ndarray fx) /\ holds h' flux_y (Ndarray fy) /\
    length h <= flux_x /\ length h <= flux_y.
Proof.
  intros Hp Hs HK H.
  unfold pirate_flux, np1, np2, call1, np_gradient in H.
  heap_run H. same_results.
  unfold evolution.pirate_flux. pure_run.
  eexists. eexists. split; [reflexivity |].
  split; [heap_extends |]. split; [heap_holds |]. split; [heap_holds |].
  split; heap_len.
Qed.
Lemma divergence_sim (h h' : heap F) (fx fy : ndarray F)
    (flux_x flux_y : nat) (dx dy : F) (div : nat) :
  holds h flux_x (Ndarray fx) -> holds h flux_y (Ndarray fy) ->
  divergence flux_x flux_y dx dy h = Ok (div, h') ->
  exists d,
    evolution.divergence fx fy dx dy = Ok d /\
    extends h h' /\ holds h' div (Ndarray d) /\ length h <= div.
Proof.
  intros Hx Hy H.
  unfold divergence, np1, np2, np_gradient in H.
  heap_run H. same_results.
  unfold evolution.divergence. pure_run.
  eexists. split; [reflexivity |].
  split; [heap_extends |]. split; [heap_holds | heap_len].
Qed.

Lemma police_source_loop_sim (h0 : heap F) (xx yy : ndarray F)
    (ps : list (F * F)) (lxx lyy lpol lf : nat) (a : list F) :
  holds h0 lxx (Ndarray xx) -> holds h0 lyy (Ndarray yy) ->
  holds h0 lpol (PyList ps) -> length h0 <= lf ->
  forall (n i : nat) (hc h' : heap F) (f0 : ndarray F) (u : unit),
    i + n = length ps ->
    extends h0 hc -> holds hc lf (Ndarray f0) ->
    for_range (fun i =>
         a_i <~ lift (index a i) ;;
         police_i <~ item lpol i ;;
         x <~ np1 (amap (fun v => sub v (fst police_i))) lxx ;;
         police_i <~ item lpol i ;;
         y <~ np1 (amap (fun v => sub v (snd police_i))) lyy ;;
         c <~ np2 cut_off x y ;;
         t <~ np1 (amap (mul a_i)) c ;;
         iadd lf t) i n hc = Ok (u, h') ->
    exists f,
      for_enum (fun i police_i f =>
          a_i <- index a i ;;
          c <- cut_off (amap (fun v => sub v (fst police_i)) xx)
                       (amap (fun v => sub v (snd police_i)) yy) ;;
          amap2 add f (amap (mul a_i) c)) i (skipn i ps) f0 = Ok f /\
      extends h0 h' /\ holds h' lf (Ndarray f).
Proof.
  intros Hxx Hyy Hpol Hlf.
  induction n as [| n IH]; intros i hc h' f0 u Hin Hext Hf H.
  - simpl in H. heap_run H.
    rewrite skipn_all2 by lia. simpl.
    exists f0. split; [reflexivity |]. split; assumption.
  - simpl in H.
    pose proof (holds_extends _ _ _ _ Hxx Hext) as Hxx'.
    pose proof (holds_extends _ _ _ _ Hyy Hext) as Hyy'.
    pose proof (holds_extends _ _ _ _ Hpol Hext) as Hpol'.
    apply mbind_ok_inv in H. destruct H as (u1 & h1 & Ebody & H).
    unfold item, np1, np2, iadd in Ebody. heap_run Ebody. same_results.
    eapply IH in H; [| lia | heap_extends | heap_holds].
    destruct H as (f_end & Hpure & Hext' & Hf').
    exists f_end. split; [| split; assumption].
    match goal with
    | K : index ps i = Ok _ |- _ =>
        rewrite (skipn_nth_error _ _ _ (index_ok_inv _ _ _ K))
    end.
    simpl for_enum. pure_run. exact Hpure.
Qed.

Lemma police_source_sim (h h' : heap F) (xx yy : ndarray F)
    (ps : list (F * F)) (lxx lyy lpol : nat) (a : list F) (lf : nat) :
  holds h lxx (Ndarray xx) -> holds h lyy (Ndarray yy) ->
  holds h lpol (PyList ps) ->
  police_source cut_off lxx lyy a lpol h = Ok (lf, h') ->
  exists f,
    evolution.police_source cut_off xx yy a ps = Ok f /\
    extends h h' /\ holds h' lf (Ndarray f) /\ length h <= lf.
Proof.
  intros Hxx Hyy Hpol H.
  unfold police_source in H. unfold np1 at 1 in H. heap_run H.
  match goal with
  | K : for_range _ _ _ _ = Ok _ |- _ =>
      eapply (police_source_loop_sim h xx yy ps _ _ _ _ a Hxx Hyy Hpol) in K;
      [| heap_len | simpl; reflexivity | heap_extends | heap_holds];
      destruct K as (f & Hpure & Hext & Hf)
  end.
  heap_run H.
  exists f. split; [exact Hpure |]. split; [exact Hext |].
  split; [exact Hf | heap_len].
Qed.

Lemma cal_I2_loop_sim (h0 : heap F) (xx yy : ndarray F)
    (ps : list (F * F)) (lxx lyy lpol lx ly : nat) :
  holds h0 lxx (Ndarray xx) -> holds h0 lyy (Ndarray yy) ->
  holds h0 lpol (PyList ps) -> length h0 <= lx -> length h0 <= ly ->
  lx <> ly ->
  forall (n i : nat) (hc h' : heap F) (x0 y0 : ndarray F) (u : unit),
    i + n = length ps ->
    extends h0 hc -> holds hc lx (Ndarray x0) -> holds hc ly (Ndarray y0) ->
    for_range (fun i =>
         police_i <~ item lpol i ;;
         x <~ np1 (amap (fun v => sub v (fst police_i))) lxx ;;
         police_i <~ item lpol i ;;
         y <~ np1 (amap (fun v => sub v (snd police_i))) lyy ;;
         c <~ np2 cut_off x y ;;
         police_i <~ item lpol i ;;
         d <~ np1 (amap (fun v => sub (fst police_i) v)) lxx ;;
         t <~ np2 (amap2 mul) c d ;;
         _ <~ iadd lx t ;;
         police_i <~ item lpol i ;;
         x <~ np1 (amap (fun v => sub v (fst police_i))) lxx ;;
         police_i <~ item lpol i ;;
         y <~ np1 (amap (fun v => sub v (snd police_i))) lyy ;;
         c <~ np2 cut_off x y ;;
         police_i <~ item lpol i ;;
         d <~ np1 (amap (fun v => sub (snd police_i) v)) lyy ;;
         t <~ np2 (amap2 mul) c d ;;
         iadd ly t) i n hc = Ok (u, h') ->
    exists I2x I2y,
      for_enum (fun i police_i '(cal_I2_x, cal_I2_y) =>
          c <- cut_off (amap (fun v => sub v (fst police_i)) xx)
                       (amap (fun v => sub v (snd police_i)) yy) ;;
          t <- amap2 mul c (amap (fun v => sub (fst police_i) v) xx) ;;
          cal_I2_x <- amap2 add cal_I2_x t ;;
          c <- cut_off (amap (fun v => sub v (fst police_i)) xx)
                       (amap (fun v => sub v (snd police_i)) yy) ;;
          t <- amap2 mul c (amap (fun v => sub (snd police_i) v) yy) ;;
          cal_I2_y <- amap2 add cal_I2_y t ;;
          Ok (cal_I2_x, cal_I2_y)) i (skipn i ps) (x0, y0) = Ok (I2x, I2y) /\
      extends h0 h' /\ holds h' lx (Ndarray I2x) /\ holds h' ly (Ndarray I2y).
Proof.
  intros Hxx Hyy Hpol Hlx Hly Hneq.
  induction n as [| n IH]; intros i hc h' x0 y0 u Hin Hext Hx Hy H.
  - simpl in H. heap_run H.
    rewrite skipn_all2 by lia. simpl.
    exists x0, y0. split; [reflexivity |]. repeat split; assumption.
  - simpl in H.
    pose proof (holds_extends _ _ _ _ Hxx Hext) as Hxx'.
    pose proof (holds_extends _ _ _ _ Hyy Hext) as Hyy'.
    pose proof (holds_extends _ _ _ _ Hpol Hext) as Hpol'.
    apply mbind_ok_inv in H. destruct H as (u1 & h1 & Ebody & H).
    unfold item, np1, np2, iadd in Ebody. heap_run Ebody. same_results.
    eapply IH in H; [| lia | heap_extends | heap_holds | heap_holds].
    destruct H as (x_end & y_end & Hpure & Hext' & Hx' & Hy').
    exists x_end, y_end. split; [| repeat split; assumption].
    match goal with
    | K : index ps i = Ok _ |- _ =>
        rewrite (skipn_nth_error _ _ _ (index_ok_inv _ _ _ K))
    end.
    simpl for_enum. pure_run. exact Hpure.
Qed.

Lemma cal_I2_sim (h h' : heap F) (xx yy : ndarray F) (ps : list (F * F))
    (lxx lyy lpol lx ly : nat) :
  holds h lxx (Ndarray xx) -> holds h lyy (Ndarray yy) ->
  holds h lpol (PyList ps) ->
  cal_I2 cut_off lxx lyy lpol h = Ok ((lx, ly), h') ->
  exists I2x I2y,
    evolution.cal_I2 cut_off xx yy ps = Ok (I2x, I2y) /\
    extends h h' /\ holds h' lx (Ndarray I2x) /\ holds h' ly (Ndarray I2y) /\
    length h <= lx /\ length h <= ly.
Proof.
  intros Hxx Hyy Hpol H.
  unfold cal_I2 in H. unfold np1 at 1 2 in H. heap_run H.
  match goal with
  | K : for_range _ _ _ _ = Ok _ |- _ =>
      eapply (cal_I2_loop_sim h xx yy ps _ _ _ _ _ Hxx Hyy Hpol) in K;
      [| heap_len | heap_len | heap_len | simpl; reflexivity | heap_extends
       | heap_holds | heap_holds];
      destruct K as (I2x & I2y & Hpure & Hext & Hx & Hy)
  end.
  heap_run H.
  exists I2x, I2y. split; [exact Hpure |]. split; [exact Hext |].
  split; [exact Hx |]. split; [exact Hy |]. split; heap_len.
Qed.

Lemma ship_velocity_sim (h h' : heap F) (p xx yy nx ny : ndarray F)
    (ps : list (F * F)) (lp lxx lyy lpol : nat) (dx dy : F)
    (lnx lny vel_x vel_y : nat) :
  holds h lp (Ndarray p) -> holds h lxx (Ndarray xx) ->
  holds h lyy (Ndarray yy) -> holds h lpol (PyList ps) ->
  holds h lnx (Ndarray nx) -> holds h lny (Ndarray ny) ->
  ship_velocity cut_off lp lxx lyy lpol dx dy lnx lny h
    = Ok ((vel_x, vel_y), h') ->
  exists vx vy,
    evolution.ship_velocity cut_off p xx yy ps dx dy nx ny = Ok (vx, vy) /\
    extends h h' /\ holds h' vel_x (Ndarray vx) /\
    holds h' vel_y (Ndarray vy) /\ length h <= vel_x /\ length h <= vel_y.
Proof.
  intros Hp Hxx Hyy Hpol Hnx Hny H.
  unfold ship_velocity, np1, np2 in H. heap_run H.
  match goal with
  | K : cal_I2 _ _ _ _ _ = Ok (?r, _) |- _ =>
      destruct r as [lx ly];
      eapply cal_I2_sim in K; [| heap_holds | heap_holds | heap_holds];
      destruct K as (I2x & I2y & Hpure & Hext & Hx & Hy & Hlx & Hly)
  end.
  heap_run H. same_results.
  unfold evolution.ship_velocity. pure_run.
  eexists. eexists. split; [reflexivity |].
  split; [heap_extends |]. split; [heap_holds |]. split; [heap_holds |].
  split; heap_len.
Qed.

Lemma force_F1_sim (h h' : heap F) (p s xx yy : ndarray F)
    (ps : list (F * F)) (lp ls lxx lyy lpol : nat) (dx dy : F) (i : nat)
    (F1 : F * F) :
  holds h lp (Ndarray p) -> holds h ls (Ndarray s) ->
  holds h lxx (Ndarray xx) -> holds h lyy (Ndarray yy) ->
  holds h lpol (PyList ps) ->
  force_F1 cut_off lp ls lxx lyy dx dy lpol i h = Ok (F1, h') ->
  exists police_i,
    index ps i = Ok police_i /\
    evolution.force_F1 cut_off p s xx yy dx dy police_i = Ok F1 /\
    extends h h'.
Proof.
  intros Hp Hs Hxx Hyy Hpol H.
  unfold force_F1, item, np1, np2 in H. heap_run H. same_results.
  eexists. split; [eassumption |].
  unfold evolution.force_F1. simpl fst. simpl snd. pure_run.
  split; [reflexivity | heap_extends].
Qed.

Lemma police_step_loop_sim (h0 : heap F) (p s xx yy : ndarray F)
    (ps : list (F * F)) (lp ls lxx lyy lpol lnew : nat) (dx dy dt : F)
    (sum_x sum_y : F) (M : nat) :
  holds h0 lp (Ndarray p) -> holds h0 ls (Ndarray s) ->
  holds h0 lxx (Ndarray xx) -> holds h0 lyy (Ndarray yy) ->
  holds h0 lpol (PyList ps) -> length h0 <= lnew ->
  forall (n i : nat) (hc h' : heap F) (acc0 : list (F * F)) (u : unit),
    i + n = length ps ->
    extends h0 hc -> holds hc lnew (PyList acc0) ->
    for_range (fun i =>
         '(F1_x, F1_y) <~ force_F1 cut_off lp ls lxx lyy dx dy lpol i ;;
         police_i <~ item lpol i ;;
         let F2_x := sub sum_x (mul (of_nat M) (fst police_i)) in
         police_i <~ item lpol i ;;
         let F2_y := sub sum_y (mul (of_nat M) (snd police_i)) in
         let F3_x := zero in
         let F3_y := zero in
         police_i <~ item lpol i ;;
         q <~ lift (ode (add (add F1_x F2_x) F3_x) (add (add F1_y F2_y) F3_y)
                        police_i dt) ;;
         append lnew q) i n hc = Ok (u, h') ->
    exists acc,
      for_enum (fun i police_i police_new =>
          '(F1_x, F1_y) <- evolution.force_F1 cut_off p s xx yy dx dy
                                              police_i ;;
          let '(F2_x, F2_y) := evolution.force_F2 sum_x sum_y M police_i in
          let '(F3_x, F3_y) := evolution.force_F3 in
          q <- ode (add (add F1_x F2_x) F3_x) (add (add F1_y F2_y) F3_y)
                   police_i dt ;;
          Ok (police_new ++ [q])) i (skipn i ps) acc0 = Ok acc /\
      extends h0 h' /\ holds h' lnew (PyList acc).
Proof.
  intros Hp Hs Hxx Hyy Hpol Hnew.
  induction n as [| n IH]; intros i hc h' acc0 u Hin Hext Hacc H.
  - simpl in H. heap_run H.
    rewrite skipn_all2 by lia. simpl.
    exists acc0. split; [reflexivity |]. split; assumption.
  - simpl in H.
    apply mbind_ok_inv in H. destruct H as (u1 & h1 & Ebody & H).
    apply mbind_ok_inv in Ebody.
    destruct Ebody as ([F1_x F1_y] & h2 & EF1 & Ebody).
    eapply force_F1_sim in EF1;
      [| eapply holds_extends; eassumption ..].
    destruct EF1 as (police_i & Hi & HF1 & Hext2).
    pose proof (holds_extends _ _ _ _ Hpol Hext) as Hpol'.
    unfold item, append in Ebody. heap_run Ebody. same_results.
    eapply IH in H; [| lia | heap_extends | heap_holds].
    destruct H as (acc_end & Hpure & Hext' & Hacc').
    exists acc_end. split; [| split; assumption].
    match goal with
    | K : index ps i = Ok _ |- _ =>
        rewrite (skipn_nth_error _ _ _ (index_ok_inv _ _ _ K))
    end.
    simpl for_enum. rewrite HF1. simpl. pure_run. exact Hpure.
Qed.

Lemma police_step_sim (h h' : heap F) (p s xx yy : ndarray F)
    (ps : list (F * F)) (lp ls lxx lyy lpol : nat) (dx dy dt : F)
    (sum_x sum_y : F) (M : nat) (lnew : nat) :
  holds h lp (Ndarray p) -> holds h ls (Ndarray s) ->
  holds h lxx (Ndarray xx) -> holds h lyy (Ndarray yy) ->
  holds h lpol (PyList ps) ->
  police_step ode cut_off lp ls lxx lyy dx dy dt sum_x sum_y M lpol h
    = Ok (lnew, h') ->
  exists police_new,
    evolution.police_step ode cut_off p s xx yy dx dy dt sum_x sum_y M ps
      = Ok police_new /\
    extends h h' /\ holds h' lnew (PyList police_new) /\ length h <= lnew.
Proof.
  intros Hp Hs Hxx Hyy Hpol H.
  unfold police_step in H. heap_run H.
  match goal with
  | K : for_range _ _ _ _ = Ok _ |- _ =>
      eapply (police_step_loop_sim h p s xx yy ps _ _ _ _ _ _ dx dy dt
                sum_x sum_y M Hp Hs Hxx Hyy Hpol) in K;
      [| heap_len | simpl; reflexivity | heap_extends | heap_holds];
      destruct K as (acc & Hpure & Hext & Hacc)
  end.
  heap_run H.
  exists acc. split; [exact Hpure |]. split; [exact Hext |].
  split; [exact Hacc | heap_len].
Qed.

(** C8: one call of the orchestrator on a heap leaves every object that was
    in the heap as it was, the pirate field, the ship field and the list of
    police positions among them; the three objects it returns are new ones;
    and their contents are those the orchestrator computes from the
    contents the arguments had before the call. *)
Theorem C8_inputs_not_mutated (h h' : heap F)
    (p s xx yy K nx ny : ndarray F) (ps : list (F * F))
    (p_density s_density police xx_ yy_ p_kernel nu_x nu_y : nat)
    (dx dy dt : F) (a : list F) (velocity : F -> F)
    (p_new s_new police_new : nat) :
  holds h p_density (Ndarray p) -> holds h s_density (Ndarray s) ->
  holds h police (PyList ps) ->
  holds h xx_ (Ndarray xx) -> holds h yy_ (Ndarray yy) ->
  holds h p_kernel (Ndarray K) ->
  holds h nu_x (Ndarray nx) -> holds h nu_y (Ndarray ny) ->
  one_step_evolution one_step_parabolic one_step_hyperbolic ode cut_off kappa
    p_density s_density police xx_ yy_ p_kernel dx dy dt a velocity nu_x nu_y
    h = Ok ((p_new, s_new, police_new), h') ->
  (forall l, l < length h -> nth_error h' l = nth_error h l) /\
  (holds h' p_density (Ndarray p) /\ holds h' s_density (Ndarray s) /\
   holds h' police (PyList ps)) /\
  (length h <= p_new /\ length h <= s_new /\ length h <= police_new /\
   p_new <> s_new) /\
  exists p' s' police',
    evolution.one_step_evolution one_step_parabolic one_step_hyperbolic ode
      cut_off kappa p s ps xx yy K dx dy dt a velocity nx ny
      = Ok (p', s', police') /\
    holds h' p_new (Ndarray p') /\ holds h' s_new (Ndarray s') /\
    holds h' police_new (PyList police').
Proof.
  intros Hp Hs Hpol Hxx Hyy HK Hnx Hny H.
  unfold one_step_evolution, call_parabolic, call_hyperbolic, np1 in H.
  heap_run H.
  match goal with
  | X : pirate_flux _ _ _ _ _ _ _ = Ok (?r, _) |- _ =>
      destruct r as [flux_x flux_y];
      eapply pirate_flux_sim in X; [| heap_holds | heap_holds | heap_holds];
      destruct X as (fx & fy & Hflux & Hext1 & Hfx & Hfy & Hlfx & Hlfy)
  end.
  heap_run H.
  match goal with
  | X : divergence _ _ _ _ _ = Ok _ |- _ =>
      eapply divergence_sim in X; [| heap_holds | heap_holds];
      destruct X as (dv & Hdiv & Hext2 & Hdv & Hldv)
  end.
  heap_run H.
  match goal with
  | X : police_source _ _ _ _ _ _ = Ok _ |- _ =>
      eapply police_source_sim in X; [| heap_holds | heap_holds | heap_holds];
      destruct X as (f & Hsrc & Hext3 & Hf & Hlf)
  end.
  heap_run H.
  match goal with
  | X : ship_velocity _ _ _ _ _ _ _ _ _ _ = Ok (?r, _) |- _ =>
      destruct r as [vel_x vel_y];
      eapply ship_velocity_sim in X;
      [| heap_holds | heap_holds | heap_holds | heap_holds | heap_holds
       | heap_holds];
      destruct X as (vx & vy & Hvel & Hext4 & Hvx & Hvy & Hlvx & Hlvy)
  end.
  heap_run H.
  match goal with
  | X : police_step _ _ _ _ _ _ _ _ _ _ _ _ _ _ = Ok _ |- _ =>
      eapply police_step_sim in X;
      [| heap_holds | heap_holds | heap_holds | heap_holds | heap_holds];
      destruct X as (pol' & Hstep & Hext5 & Hpol' & Hlpol')
  end.
  heap_run H. same_results.
  split; [intros l Hl; apply extends_nth_error; [heap_extends | exact Hl] |].
  split; [repeat split; heap_holds |].
  split; [repeat split; heap_len |].
  unfold evolution.one_step_evolution. pure_run.
  eexists. eexists. eexists. split; [reflexivity |].
  repeat split; heap_holds.
Qed.

End Simulation.

Lemma C8_inputs_not_mutated_witness :
  examples.run_heap_Z = Ok examples.out_heap_Z /\
  (forall l, l < length examples.heap_Z ->
     nth_error (snd examples.out_heap_Z) l = nth_error examples.heap_Z l) /\
  length examples.heap_Z <= fst (fst (fst examples.out_heap_Z)) /\
  exists p' s' police',
    examples.run_Z examples.p_density_Z examples.police_Z [5]%Z
      = Ok (p', s', police') /\
    objects.holds (snd examples.out_heap_Z)
      (fst (fst (fst examples.out_heap_Z))) (objects.Ndarray p').
Proof.
  assert (H : examples.run_heap_Z
              = Ok ((fst (fst (fst examples.out_heap_Z)),
                     snd (fst (fst examples.out_heap_Z)),
                     snd (fst examples.out_heap_Z)),
                    snd examples.out_heap_Z))
    by (vm_compute; reflexivity).
  split; [exact H |].
  unfold examples.run_heap_Z in H.
  eapply C8_inputs_not_mutated in H;
    [| unfold objects.holds; reflexivity ..].
  destruct H as (Hframe & _ & (Hfresh & _) & p' & s' & police' & Hpure
                 & Hp' & _).
  split; [exact Hframe |]. split; [exact Hfresh |].
  exists p', s', police'. split; [exact Hpure | exact Hp'].
Defined.

(** ** Binary64 *)

Section SpecFloatFacts.
Local Open Scope Z_scope.

Lemma iter_shr_1_zeros (n : nat) (m : positive) :
  Nat.iter n shr_1
    {| shr_m := Z.pos (Nat.iter n xO m); shr_r := false; shr_s := false |}
  = {| shr_m := Z.pos m; shr_r := false; shr_s := false |}.
Proof.
  induction n as [| n IH].
  - reflexivity.
  - rewrite Nat.iter_succ_r. simpl. exact IH.
Qed.

Lemma digits2_pos_zeros (n : nat) (m : positive) :
  Z.pos (digits2_pos (Nat.iter n xO m)) = Z.pos (digits2_pos m) + Z.of_nat n.
Proof.
  induction n as [| n IH].
  - simpl. lia.
  - change (Nat.iter (S n) xO m) with ((Nat.iter n xO m)~0)%positive.
    change (digits2_pos (Nat.iter n xO m)~0)
      with (Pos.succ (digits2_pos (Nat.iter n xO m))).
    rewrite Pos2Z.inj_succ, IH. lia.
Qed.

Lemma SFmul_one_l (s : bool) (m : positive) (e : Z) :
  bounded prec emax m e = true ->
  SF64mul (S754_finite false 4503599627370496 (-52)) (S754_finite s m e)
  = S754_finite s m e.
Proof.
  intros Hb. unfold bounded, canonical_mantissa in Hb.
  apply andb_prop in Hb. destruct Hb as [Hc He].
  apply Z.eqb_eq in Hc.
  unfold SF64mul, SFmul. cbn [xorb].
  change (4503599627370496 * m)%positive
    with (Nat.iter 52 xO m).
  unfold binary_round_aux, shr_fexp.
  cbn [Zdigits2]. rewrite digits2_pos_zeros.
  replace (Z.pos (digits2_pos m) + Z.of_nat 52 + (-52 + e))
    with (Z.pos (digits2_pos m) + e) by lia.
  rewrite Hc.
  replace (e - (-52 + e)) with 52 by lia.
  unfold shr at 1. 
  change (iter_pos shr_1 52
            (shr_record_of_loc (Z.pos (Nat.iter 52 xO m)) loc_Exact))
    with (Nat.iter 52 shr_1
            {| shr_m := Z.pos (Nat.iter 52 xO m);
               shr_r := false; shr_s := false |}).
  rewrite iter_shr_1_zeros.
  cbn [shr_m loc_of_shr_record shr_r shr_s round_nearest_even Zdigits2].
  replace (-52 + e + 52) with e by lia.
  rewrite Hc, Z.sub_diag. cbn [shr shr_record_of_loc shr_m].
  rewrite He. reflexivity.
Qed.

Lemma SFsub_diag (s : bool) (m : positive) (e : Z) :
  SF64sub (S754_finite s m e) (S754_finite s m e) = S754_zero false.
Proof.
  unfold SF64sub, SFsub. rewrite Z.sub_diag. reflexivity.
Qed.

Lemma SFeqb_refl (s : bool) (m : positive) (e : Z) :
  SFeqb (S754_finite s m e) (S754_finite s m e) = true.
Proof.
  unfold SFeqb, SFcompare. rewrite Z.compare_refl, Pos.compare_cont_refl.
  destruct s; reflexivity.
Qed.

End SpecFloatFacts.

Section Binary64.
Local Open Scope float_scope.

Lemma Prim2SF_zero : Prim2SF 0 = S754_zero false.
Proof. reflexivity. Qed.

Lemma Prim2SF_one : Prim2SF 1 = S754_finite false 4503599627370496 (-52).
Proof. reflexivity. Qed.

(** The zeros of both signs are the floats [is_zero] accepts. *)
Lemma is_zero_spec (x : float) :
  is_zero x = true <-> exists s, Prim2SF x = S754_zero s.
Proof.
  unfold is_zero. rewrite eqb_spec.
  change (Prim2SF zero) with (S754_zero false).
  destruct (Prim2SF x) as [s | s | | s m e]; simpl.
  - split; [intros _; exists s; reflexivity | reflexivity].
  - split; [destruct s; discriminate | intros [s' H]; discriminate H].
  - split; [discriminate | intros [s' H]; discriminate H].
  - split; [destruct s; discriminate | intros [s' H]; discriminate H].
Qed.

(** The finite floats are the zeros and the floats with a mantissa. *)
Lemma is_finite_spec (x : float) :
  is_finite x = true <->
  (exists s, Prim2SF x = S754_zero s) \/
  (exists s m e, Prim2SF x = S754_finite s m e).
Proof.
  unfold is_finite, is_nan, is_infinity.
  rewrite !eqb_spec, abs_spec.
  change (Prim2SF infinity) with (S754_infinity false).
  destruct (Prim2SF x) as [s | s | | s m e].
  - split; [intros _; left; exists s; reflexivity | reflexivity].
  - split; [destruct s; discriminate |].
    intros [[s' H] | (s' & m & e & H)]; discriminate H.
  - split; [discriminate |].
    intros [[s' H] | (s' & m & e & H)]; discriminate H.
  - split; [intros _; right; exists s, m, e; reflexivity |].
    intros _. unfold SFeqb, SFcompare. rewrite Z.compare_refl.
    rewrite Pos.compare_cont_refl. destruct s; reflexivity.
Qed.

Lemma is_zero_finite (x : float) : is_zero x = true -> is_finite x = true.
Proof.
  intros H. apply is_finite_spec. left. apply is_zero_spec. exact H.
Qed.

(** A zero times a finite float is a zero. *)
Lemma mul_zero_l (z c : float) :
  is_zero z = true -> is_finite c = true -> is_zero (z * c) = true.
Proof.
  intros Hz Hc. apply is_zero_spec in Hz. destruct Hz as [s Hz].
  apply is_finite_spec in Hc. apply is_zero_spec.
  rewrite mul_spec, Hz. unfold SF64mul.
  destruct Hc as [[s' ->] | (s' & m & e & ->)]; simpl; eexists; reflexivity.
Qed.

Lemma mul_zero_r (c z : float) :
  is_finite c = true -> is_zero z = true -> is_zero (c * z) = true.
Proof.
  intros Hc Hz. apply is_zero_spec in Hz. destruct Hz as [s Hz].
  apply is_finite_spec in Hc. apply is_zero_spec.
  rewrite mul_spec, Hz. unfold SF64mul.
  destruct Hc as [[s' ->] | (s' & m & e & ->)]; simpl; eexists; reflexivity.
Qed.

(** Adding a zero of either sign to [+0.] gives [+0.]. *)
Lemma add_pos_zero (z : float) : is_zero z = true -> 0 + z = 0.
Proof.
  intros Hz. apply is_zero_spec in Hz. destruct Hz as [s Hz].
  apply Prim2SF_inj. rewrite add_spec, Hz, Prim2SF_zero.
  destruct s; reflexivity.
Qed.

Lemma add_zero_zero (a b : float) :
  is_zero a = true -> is_zero b = true -> is_zero (a + b) = true.
Proof.
  intros Ha Hb. apply is_zero_spec in Ha, Hb.
  destruct Ha as [sa Ha], Hb as [sb Hb]. apply is_zero_spec.
  rewrite add_spec, Ha, Hb. destruct sa, sb; simpl; eexists; reflexivity.
Qed.

(** [0. + x] is [x], but for [x = -0.], which it turns into [+0.]. *)
Lemma add_zero_finite (s : bool) (m : positive) (e : Z) (x : float) :
  Prim2SF x = S754_finite s m e -> 0 + x = x.
Proof.
  intros Hx. apply Prim2SF_inj. rewrite add_spec, Hx, Prim2SF_zero.
  reflexivity.
Qed.

(** [1. * x] is [x]. *)
Lemma mul_one_l (x : float) : is_finite x = true -> 1 * x = x.
Proof.
  intros Hx. apply is_finite_spec in Hx. apply Prim2SF_inj.
  rewrite mul_spec, Prim2SF_one.
  destruct Hx as [[s Hx] | (s & m & e & Hx)].
  - rewrite Hx. reflexivity.
  - pose proof (Prim2SF_valid x) as Hv. rewrite Hx in *.
    apply SFmul_one_l. exact Hv.
Qed.

(** With a single vessel at a finite coordinate [x], the cohesion force
    [(0 + x) - 1 * x] is [+0.]. *)
Lemma cohesion_single (x : float) :
  is_finite x = true -> 0 + x - 1 * x = 0.
Proof.
  intros Hx. rewrite (mul_one_l x Hx).
  apply is_finite_spec in Hx. apply Prim2SF_inj.
  rewrite sub_spec, add_spec, Prim2SF_zero.
  destruct Hx as [[s Hx] | (s & m & e & Hx)]; rewrite Hx.
  - destruct s; reflexivity.
  - change (SF64add (S754_zero false) (S754_finite s m e))
      with (S754_finite s m e).
    apply SFsub_diag.
Qed.

Lemma eqb_refl_finite (x : float) : is_finite x = true -> (x =? x) = true.
Proof.
  intros Hx. apply is_finite_spec in Hx. rewrite eqb_spec.
  destruct Hx as [[s Hx] | (s & m & e & Hx)]; rewrite Hx.
  - reflexivity.
  - apply SFeqb_refl.
Qed.

(** Adding a zero to a finite float leaves its value. *)
Lemma add_zero_r_eqb (x z : float) :
  is_finite x = true -> is_zero z = true -> (x + z =? x) = true.
Proof.
  intros Hx Hz. apply is_finite_spec in Hx. apply is_zero_spec in Hz.
  destruct Hz as [sz Hz]. rewrite eqb_spec, add_spec, Hz.
  destruct Hx as [[s Hx] | (s & m & e & Hx)]; rewrite Hx.
  - destruct s, sz; reflexivity.
  - change (SF64add (S754_finite s m e) (S754_zero sz))
      with (S754_finite s m e).
    apply SFeqb_refl.
Qed.

End Binary64.

(** ** Pairwise summation *)

Section SumFacts.
Import numpy.
Context {F : Type} {Sc : Scalar F}.

Lemma In_firstn {A : Type} (n : nat) (l : list A) (x : A) :
  In x (firstn n l) -> In x l.
Proof.
  revert l. induction n as [| n IH]; intros [| y l] H; simpl in *;
    try contradiction.
  destruct H as [H | H]; [left; exact H | right; apply IH; exact H].
Qed.

Lemma In_skipn {A : Type} (n : nat) (l : list A) (x : A) :
  In x (skipn n l) -> In x l.
Proof.
  revert l. induction n as [| n IH]; intros [| y l] H; simpl in *;
    try contradiction; try exact H.
  right. apply IH. exact H.
Qed.

(** The cutting of a long run stops: the length of the run is enough
    fuel, and more fuel changes nothing. *)
Lemma pairwise_sum_fuel (fuel1 fuel2 : nat) (l : list F) :
  length l <= fuel1 -> length l <= fuel2 ->
  pairwise_sum fuel1 l = pairwise_sum fuel2 l.
Proof.
  revert fuel2 l. induction fuel1 as [| fuel1 IH]; intros fuel2 l H1 H2.
  - destruct l; [| simpl in H1; lia]. destruct fuel2; reflexivity.
  - destruct fuel2 as [| fuel2].
    + destruct l; [| simpl in H2; lia]. reflexivity.
    + cbn [pairwise_sum].
      destruct (Nat.ltb (length l) 8) eqn:E8; [reflexivity |].
      destruct (Nat.leb (length l) 128) eqn:E128; [reflexivity |].
      apply Nat.leb_gt in E128.
      pose proof (Nat.div_mod_eq (length l) 2) as Hdiv.
      pose proof (Nat.mod_upper_bound (length l) 2 ltac:(lia)) as Hmod.
      pose proof (Nat.mod_upper_bound (length l / 2) 8 ltac:(lia)) as Hmod8.
      f_equal; apply IH;
        rewrite ?length_firstn, ?length_skipn; lia.
Qed.

Section Closed.
Variable P : F -> Prop.
Hypothesis P_zero : P zero.
Hypothesis P_add : forall a b, P a -> P b -> P (add a b).

Lemma fold_add_closed (l : list F) (acc : F) :
  Forall P l -> P acc -> P (fold_left add l acc).
Proof.
  intros H. revert acc. induction H as [| x l Hx _ IH]; intros acc Hacc.
  - exact Hacc.
  - simpl. apply IH. apply P_add; assumption.
Qed.

Lemma add8_closed (blocks : nat) (r l : list F) :
  Forall P r -> Forall P l ->
  Forall P (fst (add8 blocks r l)) /\ Forall P (snd (add8 blocks r l)).
Proof.
  revert r l. induction blocks as [| blocks IH]; intros r l Hr Hl.
  - split; assumption.
  - cbn [add8]. apply IH.
    + apply Forall_forall. intros v Hv. apply in_map_iff in Hv.
      destruct Hv as ([a b] & <- & Hab). simpl.
      rewrite Forall_forall in Hr, Hl.
      apply P_add; [apply Hr; eapply in_combine_l; exact Hab |].
      apply Hl. eapply In_firstn. eapply in_combine_r. exact Hab.
    + apply Forall_forall. intros v Hv. rewrite Forall_forall in Hl.
      apply Hl. eapply In_skipn. exact Hv.
Qed.

Lemma nth_closed (k : nat) (r : list F) : Forall P r -> P (nth k r zero).
Proof.
  intros Hr. destruct (nth_in_or_default k r zero) as [Hin | ->].
  - rewrite Forall_forall in Hr. apply Hr. exact Hin.
  - exact P_zero.
Qed.

Lemma sum_unrolled_closed (l : list F) : Forall P l -> P (sum_unrolled l).
Proof.
  intros Hl. unfold sum_unrolled.
  assert (Hf : Forall P (firstn 8 l))
    by (apply Forall_forall; intros v Hv; rewrite Forall_forall in Hl;
        apply Hl; eapply In_firstn; exact Hv).
  assert (Hs : Forall P (skipn 8 l))
    by (apply Forall_forall; intros v Hv; rewrite Forall_forall in Hl;
        apply Hl; eapply In_skipn; exact Hv).
  destruct (add8_closed (length l / 8 - 1) _ _ Hf Hs) as [Hr Hrest].
  destruct (add8 (length l / 8 - 1) (firstn 8 l) (skipn 8 l)) as [r rest].
  simpl in Hr, Hrest.
  apply fold_add_closed; [exact Hrest |].
  repeat apply P_add; apply nth_closed; exact Hr.
Qed.

Lemma pairwise_sum_closed (fuel : nat) (l : list F) :
  Forall P l -> P (pairwise_sum fuel l).
Proof.
  revert l. induction fuel as [| fuel IH]; intros l Hl; cbn [pairwise_sum];
    destruct (Nat.ltb (length l) 8);
    try (apply fold_add_closed; [exact Hl | exact P_zero]);
    destruct (Nat.leb (length l) 128);
    try (apply sum_unrolled_closed; exact Hl).
  - exact P_zero.
  - apply P_add; apply IH; apply Forall_forall; intros v Hv;
      rewrite Forall_forall in Hl; apply Hl;
      [eapply In_firstn | eapply In_skipn]; exact Hv.
Qed.

(** A property of [0.] that addition keeps is kept by [numpy.sum]. *)
Lemma sum_closed (a : ndarray F) : Forall P (cells a) -> P (sum a).
Proof.
  intros H. unfold sum, sum_list.
  apply P_add; [exact P_zero | apply pairwise_sum_closed; exact H].
Qed.

Lemma Forall_cells_tab (m n : nat) (f : nat -> nat -> F) :
  (forall i j, i < m -> j < n -> P (f i j)) -> Forall P (cells (tab m n f)).
Proof.
  intros H. apply Forall_forall. intros v Hv. simpl in Hv.
  apply in_flat_map in Hv. destruct Hv as (i & Hi & Hv).
  apply in_map_iff in Hv. destruct Hv as (j & <- & Hj).
  apply in_seq in Hi, Hj. apply H; lia.
Qed.

End Closed.
End SumFacts.

(** ** The divergence term *)

Section DivergenceFacts.
Import numpy scipy_signal evolution.
Context {F : Type} {Sc : Scalar F}.
Variable one_step_parabolic :
  ndarray F -> ndarray F -> ndarray F -> ndarray F -> ndarray F ->
  F -> F -> F -> result (ndarray F).
Variable one_step_hyperbolic :
  ndarray F -> (F -> F) -> ndarray F -> ndarray F -> F -> F -> F ->
  result (ndarray F).
Variable ode : F -> F -> F * F -> F -> result (F * F).
Variable cut_off : ndarray F -> ndarray F -> result (ndarray F).
Variable kappa : ndarray F -> result (ndarray F).

Lemma pirate_flux_shape (p_density s_density p_kernel : ndarray F)
    (dx dy : F) (flux_x flux_y : ndarray F) :
  pirate_flux kappa p_density s_density p_kernel dx dy = Ok (flux_x, flux_y) ->
  shape flux_x = shape p_density /\ shape flux_y = shape p_density.
Proof.
  unfold pirate_flux. intros H.
  inv_bind H as [grad_py grad_px] Eg. inv_bind H as sq Esq.
  inv_bind H as k1 Ek1. inv_bind H as t1 Et1. inv_bind H as fx Efx.
  inv_bind H as k2 Ek2. inv_bind H as t2 Et2. inv_bind H as fy Efy.
  inversion H; subst fx fy.
  apply amap2_shape in Efx, Efy. tauto.
Qed.

(** C1: the term handed to the parabolic stepper is, cell by cell,
    [(- div1) - div2], where [div1] is the x-derivative of [flux_x] and
    [div2] the y-derivative of [flux_y], each the one kept component of its
    own call of [numpy.gradient] with spacings [(dy, dx)].  At an interior
    index the derivative is the centred difference of the two neighbours
    over twice the spacing; at the first and at the last index of the axis
    it is the one-sided difference of the two cells at that end over the
    spacing. *)
Theorem C1_divergence_term
    (p_density s_density : ndarray F) (police : list (F * F))
    (xx yy p_kernel : ndarray F) (dx dy dt : F) (a : list F)
    (velocity : F -> F) (nu_x nu_y : ndarray F)
    (p_new s_new : ndarray F) (police_new : list (F * F)) :
  one_step_evolution one_step_parabolic one_step_hyperbolic ode cut_off kappa
    p_density s_density police xx yy p_kernel dx dy dt a velocity nu_x nu_y
    = Ok (p_new, s_new, police_new) ->
  exists flux_x flux_y trash1 div1 div2 trash2 term f,
    pirate_flux kappa p_density s_density p_kernel dx dy
      = Ok (flux_x, flux_y) /\
    gradient flux_x dy dx = Ok (trash1, div1) /\
    gradient flux_y dy dx = Ok (div2, trash2) /\
    one_step_parabolic p_density xx yy term (amap neg f) dx dy dt
      = Ok p_new /\
    shape term = shape p_density /\
    forall i j, i < nrows p_density -> j < ncols p_density ->
      get term i j = sub (neg (get div1 i j)) (get div2 i j) /\
      get div1 i j
      = (if Nat.eqb j 0
         then div (sub (get flux_x i 1) (get flux_x i 0)) dx
         else if Nat.eqb j (ncols p_density - 1)
         then div (sub (get flux_x i (ncols p_density - 1))
                       (get flux_x i (ncols p_density - 2))) dx
         else div (sub (get flux_x i (j + 1)) (get flux_x i (j - 1)))
                  (mul (of_nat 2) dx)) /\
      get div2 i j
      = (if Nat.eqb i 0
         then div (sub (get flux_y 1 j) (get flux_y 0 j)) dy
         else if Nat.eqb i (nrows p_density - 1)
         then div (sub (get flux_y (nrows p_density - 1) j)
                       (get flux_y (nrows p_density - 2) j)) dy
         else div (sub (get flux_y (i + 1) j) (get flux_y (i - 1) j))
                  (mul (of_nat 2) dy)).
Proof.
  intros H. apply one_step_evolution_ok_inv in H.
  destruct H as (_ & flux_x & flux_y & dv & f & vel_x & vel_y
                 & Hflux & Hdiv & Hf & Hp & _).
  destruct (pirate_flux_shape _ _ _ _ _ _ _ Hflux) as [Hsx Hsy].
  unfold divergence in Hdiv.
  inv_bind Hdiv as [trash1 div1] E1.
  inv_bind Hdiv as [div2 trash2] E2.
  pose proof (gradient_ok_inv _ _ _ _ _ E1) as (_ & _ & _ & Hd1).
  pose proof (gradient_ok_inv _ _ _ _ _ E2) as (_ & _ & Hd2 & _).
  assert (Hrx : nrows flux_x = nrows p_density) by shape_lia.
  assert (Hcx : ncols flux_x = ncols p_density) by shape_lia.
  assert (Hry : nrows flux_y = nrows p_density) by shape_lia.
  assert (Hcy : ncols flux_y = ncols p_density) by shape_lia.
  rewrite Hrx, Hcx in Hd1. rewrite Hry, Hcy in Hd2.
  pose proof (amap2_ok_inv _ _ _ _ Hdiv) as [_ Hdv].
  exists flux_x, flux_y, trash1, div1, div2, trash2, dv, f.
  repeat (split; [assumption |]).
  assert (Hr1 : nrows div1 = nrows p_density) by (rewrite Hd1; reflexivity).
  assert (Hc1 : ncols div1 = ncols p_density) by (rewrite Hd1; reflexivity).
  split.
  - rewrite Hdv. unfold shape. simpl. rewrite Hr1, Hc1. reflexivity.
  - intros i j Hi Hj. split; [| split].
    + rewrite (get_amap2 _ _ _ _ _ _ Hdiv) by (simpl; lia).
      rewrite get_amap by lia. reflexivity.
    + rewrite Hd1 at 1. rewrite get_tab by assumption. reflexivity.
    + rewrite Hd2 at 1. rewrite get_tab by assumption. reflexivity.
Qed.

End DivergenceFacts.

(** ** The source term and the cohesion force, in binary64 *)

Section Binary64Facts.
Import numpy scipy_signal evolution.
Local Open Scope float_scope.
Variable one_step_parabolic :
  ndarray float -> ndarray float -> ndarray float -> ndarray float ->
  ndarray float -> float -> float -> float -> result (ndarray float).
Variable one_step_hyperbolic :
  ndarray float -> (float -> float) -> ndarray float -> ndarray float ->
  float -> float -> float -> result (ndarray float).
Variable ode : float -> float -> float * float -> float ->
               result (float * float).
Variable cut_off : ndarray float -> ndarray float -> result (ndarray float).
Variable kappa : ndarray float -> result (ndarray float).

Lemma Forall_combine {A B : Type} (P : A -> Prop) (Q : B -> Prop)
    (l : list A) (l' : list B) :
  Forall P l -> Forall Q l' ->
  Forall (fun ab => P (fst ab) /\ Q (snd ab)) (combine l l').
Proof.
  intros H. revert l'. induction H as [| x l Hx _ IH]; intros l' H'.
  - constructor.
  - destruct H' as [| y l' Hy H']; simpl; constructor.
    + split; assumption.
    + apply IH. exact H'.
Qed.

(** An accumulator that starts from [+0.] and receives products of a zero
    and a finite number stays at [+0.]. *)
Lemma accumulate_zeros (r c : nat) (acs : list (float * ndarray float)) :
  Forall (fun ac => is_zero (fst ac) = true /\
                    is_finite (get (snd ac) r c) = true) acs ->
  fold_left (fun acc ac => acc + fst ac * get (snd ac) r c) acs 0 = 0.
Proof.
  induction 1 as [| ac acs [Hz Hf] _ IH]; simpl.
  - reflexivity.
  - rewrite (add_pos_zero _ (mul_zero_l _ _ Hz Hf)). exact IH.
Qed.

(** C3: the source term handed to the parabolic stepper is the negation of
    the field [f] that starts from zero and receives
    [a[i] * cut_off(xx - police[i][0], yy - police[i][1])] for each police
    vessel, in list order; when every coefficient is a zero and every cell
    of every cut-off is finite, the source term is [-0.] in every cell. *)
Theorem C3_police_source_term
    (p_density s_density : ndarray float) (police : list (float * float))
    (xx yy p_kernel : ndarray float) (dx dy dt : float) (a : list float)
    (velocity : float -> float) (nu_x nu_y : ndarray float)
    (p_new s_new : ndarray float) (police_new : list (float * float)) :
  one_step_evolution one_step_parabolic one_step_hyperbolic ode cut_off kappa
    p_density s_density police xx yy p_kernel dx dy dt a velocity nu_x nu_y
    = Ok (p_new, s_new, police_new) ->
  exists term f cs,
    one_step_parabolic p_density xx yy term (amap PrimFloat.opp f) dx dy dt
      = Ok p_new /\
    shape f = shape xx /\
    Forall2 (fun police_i c_i =>
               cut_off (amap (fun v => v - fst police_i) xx)
                       (amap (fun v => v - snd police_i) yy) = Ok c_i)
            police cs /\
    (forall r c, r < nrows xx -> c < ncols xx ->
       get (amap PrimFloat.opp f) r c
       = - fold_left (fun acc ac => acc + fst ac * get (snd ac) r c)
                     (combine a cs) 0) /\
    (Forall (fun a_i => is_zero a_i = true) a ->
     Forall (fun c_i => forall r c, r < nrows xx -> c < ncols xx ->
                          is_finite (get c_i r c) = true) cs ->
     forall r c, r < nrows xx -> c < ncols xx ->
       get (amap PrimFloat.opp f) r c = (-0)%float).
Proof.
  intros H. apply one_step_evolution_ok_inv in H.
  destruct H as (_ & flux_x & flux_y & dv & f & vel_x & vel_y
                 & _ & _ & Hf & Hp & _).
  unfold police_source in Hf.
  destruct (police_source_loop cut_off xx yy a police 0 (zeros_like xx) f Hf)
    as (Hshape & cs & Hcs & Hget).
  rewrite shape_zeros_like in Hshape.
  assert (Hr : nrows f = nrows xx) by (injection Hshape; auto).
  assert (Hc : ncols f = ncols xx) by (injection Hshape; auto).
  assert (Hcell : forall r c, r < nrows xx -> c < ncols xx ->
            get f r c
            = fold_left (fun acc ac => acc + fst ac * get (snd ac) r c)
                        (combine a cs) 0).
  { intros r c Hr' Hc'. rewrite Hget by assumption.
    unfold zeros_like. rewrite get_tab by assumption. reflexivity. }
  exists dv, f, cs. split; [exact Hp |]. split; [exact Hshape |].
  split; [exact Hcs |]. split.
  - intros r c Hr' Hc'. rewrite get_amap by lia. rewrite Hcell by assumption.
    reflexivity.
  - intros Hzero Hfinite r c Hr' Hc'.
    rewrite get_amap by lia. rewrite Hcell by assumption.
    rewrite accumulate_zeros; [reflexivity |].
    apply (Forall_combine (fun a_i => is_zero a_i = true)
             (fun c_i => is_finite (get c_i r c) = true)); [exact Hzero |].
    eapply Forall_impl; [| exact Hfinite].
    intros c_i Hci. apply Hci; assumption.
Qed.

(** C5: for every police vessel the stepper receives, next to the force of
    the densities and the control [0.], the cohesion force: the sum of the
    coordinates of all vessels, taken in list order from [0], minus [M]
    times the coordinate of the vessel.  With a single vessel at finite
    coordinates this force is [+0.] in both coordinates; if moreover the
    force of the densities is a zero and [dt] is finite, the forward-Euler
    stepper returns a position equal to the old one. *)
Theorem C5_cohesion_force
    (p_density s_density : ndarray float) (police : list (float * float))
    (xx yy p_kernel : ndarray float) (dx dy dt : float) (a : list float)
    (velocity : float -> float) (nu_x nu_y : ndarray float)
    (p_new s_new : ndarray float) (police_new : list (float * float)) :
  one_step_evolution one_step_parabolic one_step_hyperbolic ode cut_off kappa
    p_density s_density police xx yy p_kernel dx dy dt a velocity nu_x nu_y
    = Ok (p_new, s_new, police_new) ->
  Forall2 (fun police_i q =>
             exists F1_x F1_y,
               force_F1 cut_off p_density s_density xx yy dx dy police_i
                 = Ok (F1_x, F1_y) /\
               ode (F1_x
                    + (fold_left (fun acc i => acc + fst i) police 0
                       - of_nat (length police) * fst police_i)
                    + 0)
                   (F1_y
                    + (fold_left (fun acc i => acc + snd i) police 0
                       - of_nat (length police) * snd police_i)
                    + 0)
                   police_i dt = Ok q)
          police police_new /\
  forall x y, police = [(x, y)] ->
    is_finite x = true -> is_finite y = true ->
    (fold_left (fun acc i => acc + fst i) police 0
     - of_nat (length police) * x = 0 /\
     fold_left (fun acc i => acc + snd i) police 0
     - of_nat (length police) * y = 0) /\
    forall F1_x F1_y,
      force_F1 cut_off p_density s_density xx yy dx dy (x, y)
        = Ok (F1_x, F1_y) ->
      is_zero F1_x = true -> is_zero F1_y = true -> is_finite dt = true ->
      (forall F_x F_y q h, ode F_x F_y q h = Ok (ode.ode F_x F_y q h)) ->
      exists x' y',
        police_new = [(x', y')] /\ (x' =? x) = true /\ (y' =? y) = true.
Proof.
  intros H.
  pose proof (police_step_spec one_step_parabolic one_step_hyperbolic ode
                cut_off kappa _ _ _ _ _ _ _ _ _ _ _ _ _ _ _ _ H) as Hupd.
  split; [exact Hupd |].
  intros x y -> Hx Hy.
  assert (HF2x : fold_left (fun acc i => acc + fst i) [(x, y)] 0
                 - of_nat (length [(x, y)]) * x = 0)
    by (exact (cohesion_single x Hx)).
  assert (HF2y : fold_left (fun acc i => acc + snd i) [(x, y)] 0
                 - of_nat (length [(x, y)]) * y = 0)
    by (exact (cohesion_single y Hy)).
  split; [split; assumption |].
  intros F1_x F1_y HF1 Hzx Hzy Hdt Hode.
  inversion Hupd as [| ? q ? qs (F1_x' & F1_y' & E1 & E2) Hrest]; subst.
  inversion Hrest; subst.
  rewrite HF1 in E1. inversion E1; subst F1_x' F1_y'. clear E1.
  unfold police_sum in E2.
  change (@of_nat float Scalar_float 0) with 0 in E2.
  change (@add float Scalar_float) with PrimFloat.add in E2.
  change (@sub float Scalar_float) with PrimFloat.sub in E2.
  change (@mul float Scalar_float) with PrimFloat.mul in E2.
  change (@zero float Scalar_float) with 0 in E2.
  cbn [fst snd] in E2, HF2x, HF2y.
  rewrite HF2x, HF2y, Hode in E2. inversion E2; subst q. clear E2.
  unfold ode.ode. cbn [fst snd].
  change (@add float Scalar_float) with PrimFloat.add.
  change (@mul float Scalar_float) with PrimFloat.mul.
  eexists. eexists. split; [reflexivity |].
  assert (Hz : forall z, is_zero z = true -> is_zero (dt * (z + 0 + 0)) = true).
  { intros z Hzz. apply mul_zero_r; [exact Hdt |].
    apply add_zero_zero; [| reflexivity].
    apply add_zero_zero; [exact Hzz | reflexivity]. }
  split; apply add_zero_r_eqb; auto.
Qed.

End Binary64Facts.

(** ** The cut-off of the configuration *)

Section CutOffFacts.
Import numpy parameters.
Local Open Scope float_scope.

(** The field [k] of line 114, cell by cell, with [radius2] for
    [radius**2]. *)
Lemma cut_off_k_cells (x y : ndarray float) (radius radius2 : float) :
  shape x = shape y ->
  python.float_pow2 radius = Ok radius2 ->
  cut_off_k x y radius
  = Ok (tab (nrows x) (ncols x) (fun i j =>
          (if get x i j * get x i j + get y i j * get y i j <? radius2
           then 1 else 0)
          * (radius2 - get x i j * get x i j - get y i j * get y i j))).
Proof.
  intros Hshape Hpow. unfold cut_off_k.
  rewrite (amap2_ok PrimFloat.add) by (rewrite !shape_amap; exact Hshape).
  simpl bind. rewrite Hpow. simpl bind.
  rewrite (amap2_ok PrimFloat.sub) by (rewrite !shape_amap; exact Hshape).
  simpl bind.
  rewrite (amap2_ok PrimFloat.mul) by reflexivity.
  f_equal. simpl nrows. simpl ncols. apply tab_ext. intros i j Hi Hj.
  assert (Hy : nrows y = nrows x /\ ncols y = ncols x)
    by (unfold shape in Hshape; split; congruence).
  destruct Hy as [Hry Hcy].
  repeat first [rewrite get_amap by (simpl; lia)
               | rewrite get_tab by (simpl; lia)].
  reflexivity.
Qed.

(** A radius whose square overflows stops the cut-off at [radius**2]. *)
Lemma cut_off_k_overflow (x y : ndarray float) (radius : float) (e : exn) :
  shape x = shape y ->
  python.float_pow2 radius = Raise e ->
  cut_off_k x y radius = Raise e.
Proof.
  intros Hshape Hpow. unfold cut_off_k.
  rewrite (amap2_ok PrimFloat.add) by (rewrite !shape_amap; exact Hshape).
  simpl bind. rewrite Hpow. reflexivity.
Qed.

(** The cut-off on a mesh of at least two by two cells: the field [k],
    the constant [C] and the branch on [C < 0.3]. *)
Lemma cut_off_C_cells (x y : ndarray float) (radius radius2 : float) :
  shape x = shape y -> 2 <= nrows x -> 2 <= ncols x ->
  python.float_pow2 radius = Ok radius2 ->
  let k := tab (nrows x) (ncols x) (fun i j =>
             (if get x i j * get x i j + get y i j * get y i j <? radius2
              then 1 else 0)
             * (radius2 - get x i j * get x i j - get y i j * get y i j))
  in
  let C := sum k * (get x 0 1 - get x 0 0) * (get y 1 0 - get y 0 0) in
  cut_off_C x y radius
  = Ok (if C <? 0.3 then k
        else tab (nrows x) (ncols x) (fun i j => get k i j / C)).
Proof.
  intros Hshape Hrows Hcols Hpow k C.
  unfold cut_off_C. rewrite (cut_off_k_cells x y radius radius2 Hshape Hpow).
  cbn [bind]. fold k.
  unfold cut_off_mass, item.
  assert (Hy : nrows y = nrows x /\ ncols y = ncols x)
    by (unfold shape in Hshape; split; congruence).
  destruct Hy as [Hry Hcy]. rewrite Hry, Hcy.
  assert (H0r : Nat.ltb 0 (nrows x) = true) by (apply Nat.ltb_lt; lia).
  assert (H1r : Nat.ltb 1 (nrows x) = true) by (apply Nat.ltb_lt; lia).
  assert (H0c : Nat.ltb 0 (ncols x) = true) by (apply Nat.ltb_lt; lia).
  assert (H1c : Nat.ltb 1 (ncols x) = true) by (apply Nat.ltb_lt; lia).
  rewrite H0r, H1r, H0c, H1c. cbn [bind andb]. fold C.
  destruct (C <? 0.3); reflexivity.
Qed.

Lemma cut_off_C_shape (x y : ndarray float) (radius radius2 : float) :
  shape x = shape y -> 2 <= nrows x -> 2 <= ncols x ->
  python.float_pow2 radius = Ok radius2 ->
  exists k, cut_off_C x y radius = Ok k /\ shape k = shape x /\ wf k.
Proof.
  intros Hshape Hrows Hcols Hpow.
  rewrite (cut_off_C_cells x y radius radius2 Hshape Hrows Hcols Hpow).
  match goal with |- context [if ?c then _ else _] => destruct c end;
    eexists; (split; [reflexivity |]); (split; [reflexivity | apply wf_tab]).
Qed.



(** Whether [radius**2] raises: the radius is finite and its square is
    not. *)
Lemma float_pow2_cases (radius : float) :
  (is_finite radius && is_infinity (radius * radius) = true /\
   python.float_pow2 radius = Raise OverflowError) \/
  (is_finite radius && is_infinity (radius * radius) = false /\
   python.float_pow2 radius = Ok (radius * radius)).
Proof.
  unfold python.float_pow2.
  destruct (is_finite radius && is_infinity (radius * radius));
    [left | right]; split; reflexivity.
Qed.

(** X10: on two meshes of one shape with fewer than two rows or fewer than
    two columns the cut-off raises: [OverflowError] at [radius**2] when the
    radius is finite and its square is not, and otherwise [IndexError],
    since the spacings are read from [x[0][1]] and [y[1][0]]. *)
Theorem X10_cut_off_needs_two_cells (x y : ndarray float) (radius : float) :
  shape x = shape y ->
  nrows x < 2 \/ ncols x < 2 ->
  cut_off_C x y radius
  = Raise (if is_finite radius && is_infinity (radius * radius)
           then OverflowError else IndexError).
Proof.
  intros Hshape Hsmall. unfold cut_off_C.
  destruct (float_pow2_cases radius) as [[-> Hpow] | [-> Hpow]].
  - rewrite (cut_off_k_overflow x y radius _ Hshape Hpow). reflexivity.
  - rewrite (cut_off_k_cells x y radius _ Hshape Hpow). cbn [bind].
    assert (Hy : nrows y = nrows x /\ ncols y = ncols x)
      by (unfold shape in Hshape; split; congruence).
    destruct Hy as [Hr Hc].
    unfold cut_off_mass, item. rewrite Hr, Hc.
    destruct (nrows x) as [| [| m]]; destruct (ncols x) as [| [| n]];
      simpl; try reflexivity; lia.
Qed.

(** X11: on two meshes of one shape with at least two rows and two columns
    the cut-off returns unless [radius**2] overflows, and what it returns
    has the shape of the meshes, normalized or not. *)
Theorem X11_cut_off_keeps_shape (x y : ndarray float) (radius : float) :
  shape x = shape y ->
  2 <= nrows x -> 2 <= ncols x ->
  is_finite radius && is_infinity (radius * radius) = false ->
  exists k, cut_off_C x y radius = Ok k /\ shape k = shape x /\ wf k.
Proof.
  intros Hshape Hrows Hcols Hradius.
  destruct (float_pow2_cases radius) as [[E _] | [_ Hpow]]; [congruence |].
  exact (cut_off_C_shape x y radius _ Hshape Hrows Hcols Hpow).
Qed.

End CutOffFacts.

(** ** The schedule of the driver *)

Section ScheduleFacts.
Import numpy evolution schedule.
Context {F : Type} {Sc : Scalar F}.
Variable one_step_parabolic :
  ndarray F -> ndarray F -> ndarray F -> ndarray F -> ndarray F ->
  F -> F -> F -> result (ndarray F).
Variable one_step_hyperbolic :
  ndarray F -> (F -> F) -> ndarray F -> ndarray F -> F -> F -> F ->
  result (ndarray F).
Variable ode : F -> F -> F * F -> F -> result (F * F).
Variable cut_off : ndarray F -> ndarray F -> result (ndarray F).
Variable kappa : ndarray F -> result (ndarray F).
Variable World : Type.
Variable solution_Save :
  string -> string -> F -> ndarray F -> ndarray F -> list (F * F) ->
  World -> result World.
Variable pirates : @pirates_class F.

Abbreviation driver :=
  (evolution one_step_parabolic one_step_hyperbolic ode cut_off kappa
             solution_Save pirates).
Abbreviation iteration :=
  (evolution_body one_step_parabolic one_step_hyperbolic ode cut_off kappa
                  solution_Save pirates).
Abbreviation after :=
  (steps one_step_parabolic one_step_hyperbolic ode cut_off kappa pirates).
Abbreviation start :=
  (initial_density_pirates pirates, initial_density_ships pirates,
   police_initial_positions pirates).

(** X7: with at most one time point the driver does nothing: it returns
    [None] and leaves the world as it is, without a look at the state, the
    callables or [printing]. *)
Theorem X7_no_time_step (w : World) :
  length (time pirates) <= 1 -> driver w = Ok (PyNone, w).
Proof.
  intros Hlen. unfold evolution, evolution_loop.
  destruct (time pirates) as [| t0 [| t1 l]]; simpl in *; try reflexivity.
  lia.
Qed.

(** X8: when there are at least two time points and [printing] has fewer
    entries than [time], the driver raises: it reads [printing[i]] at every
    index of the loop. *)
Theorem X8_printing_too_short (w : World) :
  2 <= length (time pirates) ->
  length (printing pirates) < length (time pirates) ->
  is_ok (driver w) = false.
Proof.
  intros Htime Hprint. unfold evolution, evolution_loop.
  match goal with
  | |- is_ok (bind ?m _) = false =>
      assert (Hloop : is_ok m = false); [| destruct m; [discriminate Hloop |
                                                        reflexivity]]
  end.
  apply for_enum_raises with (bad := fun i => length (printing pirates) <= i).
  - intros i time_i st Hi. unfold evolution_body.
    destruct (ships_direction pirates (x pirates) (y pirates)) as [nu | e];
      [| reflexivity].
    simpl bind.
    destruct (one_step_evolution _ _ _ _ _ _ _ _ _ _ _ _ _ _ _ _ _ _)
      as [[[p s] pol] | e]; [| reflexivity].
    simpl bind. rewrite (index_raise _ _ Hi). reflexivity.
  - exists (Nat.max (length (printing pirates)) 1 - 1).
    destruct (time pirates) as [| t0 l]; simpl in *; [lia |]. split; lia.
Qed.

Lemma after_snoc (n : nat) (st st1 st2 : ndarray F * ndarray F * list (F * F)) :
  after n st = Ok st1 -> after 1 st1 = Ok st2 -> after (S n) st = Ok st2.
Proof.
  revert st. induction n as [| n IH]; intros st Hn H1.
  - simpl in Hn. inversion Hn; subst st1. exact H1.
  - change (after (S n) st) with
      (nu_0 <- ships_direction pirates (x pirates) (y pirates) ;;
       nu_1 <- ships_direction pirates (x pirates) (y pirates) ;;
       st' <- one_step_evolution one_step_parabolic one_step_hyperbolic ode
                cut_off kappa (fst (fst st)) (snd (fst st)) (snd st)
                (x_mesh pirates) (y_mesh pirates) (kernel_mathcal_K pirates)
                (dx pirates) (dy pirates) (dt pirates) (a pirates)
                (ships_speed pirates) (fst nu_0) (snd nu_1) ;;
       after n st') in Hn.
    inv_bind Hn as nu_0 E0. inv_bind Hn as nu_1 E1. inv_bind Hn as st' Est.
    specialize (IH st' Hn H1).
    change (after (S (S n)) st) with
      (nu_0 <- ships_direction pirates (x pirates) (y pirates) ;;
       nu_1 <- ships_direction pirates (x pirates) (y pirates) ;;
       st' <- one_step_evolution one_step_parabolic one_step_hyperbolic ode
                cut_off kappa (fst (fst st)) (snd (fst st)) (snd st)
                (x_mesh pirates) (y_mesh pirates) (kernel_mathcal_K pirates)
                (dx pirates) (dy pirates) (dt pirates) (a pirates)
                (ships_speed pirates) (fst nu_0) (snd nu_1) ;;
       after (S n) st').
    rewrite E1 in E0. inversion E0; subst nu_0.
    rewrite E1. simpl bind. rewrite Est. simpl bind. exact IH.
Qed.

Lemma skipn_cons_nth {A : Type} (l l' : list A) (n : nat) (x d : A) :
  x :: l' = skipn n l -> nth n l d = x /\ l' = skipn (S n) l.
Proof.
  revert n. induction l as [| y l IH]; intros [| n] H; simpl in *;
    try discriminate.
  - inversion H. split; reflexivity.
  - apply IH. exact H.
Qed.

Lemma print_indices_succ (i n : nat) :
  print_indices pirates i (S n)
  = if nth i (printing pirates) false
    then i :: print_indices pirates (S i) n
    else print_indices pirates (S i) n.
Proof. reflexivity. Qed.

Lemma snapshots_loop :
  forall (l : list F) (i : nat) (st st' : @loop_state F World),
    for_enum iteration (S i) l st = Ok st' ->
    after i start = Ok (p_density st, s_density st, police st) ->
    l = skipn (S i) (time pirates) ->
    snapshots one_step_parabolic one_step_hyperbolic ode cut_off kappa
      solution_Save pirates (print_number st)
      (print_indices pirates (S i) (length l)) (world st)
    = Ok (world st').
Proof.
  induction l as [| time_i l IH]; intros i st st' H Hi Hl.
  - simpl in H. inversion H; subst st'. reflexivity.
  - simpl in H. inv_bind H as st1 Ebody.
    destruct (skipn_cons_nth _ _ _ _ zero Hl) as [Htime Hl'].
    unfold evolution_body in Ebody.
    inv_bind Ebody as nu_0 E0. inv_bind Ebody as nu_1 E1.
    inv_bind Ebody as [[p s] pol] Estep.
    inv_bind Ebody as printing_i Eprint.
    apply index_ok_inv in Eprint.
    assert (Hafter : after (S i) start = Ok (p, s, pol)).
    { eapply after_snoc; [exact Hi |]. simpl.
      rewrite E1 in E0. inversion E0; subst nu_0.
      rewrite E1. simpl bind. rewrite Estep. reflexivity. }
    simpl length. rewrite print_indices_succ.
    rewrite (nth_error_nth _ _ false Eprint).
    destruct printing_i.
    + inv_bind Ebody as w1 Esave. inversion Ebody; subst st1. clear Ebody.
      unfold snapshots. simpl for_enum. unfold snapshot at 1.
      rewrite Hafter. simpl bind. rewrite Htime.
      unfold name. rewrite Esave. simpl bind.
      specialize (IH (S i) _ st' H Hafter Hl'). simpl in IH.
      rewrite Nat.add_1_r in IH. exact IH.
    + inversion Ebody; subst st1. clear Ebody.
      exact (IH (S i) _ st' H Hafter Hl').
Qed.

(** X9: when the driver returns, the world is the one obtained by handing
    to the persistence layer, in increasing order, one snapshot per time
    index [i >= 1] at which [printing[i]] holds: the snapshots are named
    [saving_0001], [saving_0002], ... in that order, and each carries
    [time[i]] and the state reached after [i] one-step evolutions of the
    initial state. *)
Theorem X9_snapshots_at_print_times (w w' : World) (v : @py_value F) :
  driver w = Ok (v, w') ->
  snapshots one_step_parabolic one_step_hyperbolic ode cut_off kappa
    solution_Save pirates 1
    (print_indices pirates 1 (length (time pirates) - 1)) w
  = Ok w'.
Proof.
  unfold evolution, evolution_loop. intros H. inv_bind H as st E.
  inversion H; subst v w'. clear H.
  apply snapshots_loop in E.
  - simpl in E.
    assert (Hlen : length (tl (time pirates)) = length (time pirates) - 1)
      by (destruct (time pirates); simpl; lia).
    rewrite Hlen in E. exact E.
  - reflexivity.
  - destruct (time pirates); reflexivity.
Qed.

(** C9: whenever the driver returns, it returns [None]: the state reached
    after [len(time) - 1] one-step evolutions of the initial state exists
    but is not handed back, and the world is the one the persistence layer
    leaves after one snapshot per time index [i >= 1] at which
    [printing[i]] holds, in increasing order of [i], each named
    [saving_] and the zero-filled count of the snapshots so far, with
    [time[i]] and the state reached after [i] one-step evolutions. *)
Theorem C9_evolution_returns_None (w w' : World) (v : @py_value F) :
  driver w = Ok (v, w') ->
  v = PyNone /\
  (exists p_final s_final police_final,
      after (length (time pirates) - 1) start
      = Ok (p_final, s_final, police_final)) /\
  snapshots one_step_parabolic one_step_hyperbolic ode cut_off kappa
    solution_Save pirates 1
    (print_indices pirates 1 (length (time pirates) - 1)) w
  = Ok w'.
Proof.
  unfold evolution, evolution_loop. intros H. inv_bind H as st E.
  inversion H; subst v w'. clear H. split; [reflexivity |].
  assert (Hlen : length (tl (time pirates)) = length (time pirates) - 1)
    by (destruct (time pirates); simpl; lia).
  split.
  - apply evolution_loop_spec in E. simpl in E. destruct E as (Hs & _).
    rewrite Hlen in Hs.
    exists (p_density st), (s_density st), (police st). exact Hs.
  - apply snapshots_loop in E.
    + simpl in E. rewrite Hlen in E. exact E.
    + reflexivity.
    + destruct (time pirates); reflexivity.
Qed.

End ScheduleFacts.

Lemma X7_no_time_step_witness :
  length (evolution.time (cases.config [0%float] [])) <= 1 /\
  cases.drive (cases.config [0%float] []) [] = Ok (evolution.PyNone, []).
Proof.
  assert (H : length (evolution.time (cases.config [0%float] [])) <= 1)
    by (simpl; lia).
  split; [exact H |].
  unfold cases.drive. apply X7_no_time_step. exact H.
Defined.

Lemma X8_printing_too_short_witness :
  length (evolution.printing (cases.config [0; 0.01; 0.02]%float [true]))
    < length (evolution.time (cases.config [0; 0.01; 0.02]%float [true])) /\
  is_ok (cases.drive (cases.config [0; 0.01; 0.02]%float [true]) []) = false.
Proof.
  split; [simpl; lia |].
  unfold cases.drive. apply X8_printing_too_short; simpl; lia.
Defined.

Lemma X9_snapshots_at_print_times_witness :
  cases.drive (cases.config [0; 0.01; 0.02]%float [false; true; true]) []
    = Ok (evolution.PyNone,
          [("saving_0001"%string, 0.01%float);
           ("saving_0002"%string, 0.02%float)]) /\
  schedule.snapshots pde.one_step_parabolic pde.one_step_hyperbolic
    (fun F_x F_y position dt => Ok (ode.ode F_x F_y position dt))
    examples.cut_off examples.kappa examples.solution_Save
    (cases.config [0; 0.01; 0.02]%float [false; true; true]) 1 [1; 2] []
  = Ok [("saving_0001"%string, 0.01%float);
        ("saving_0002"%string, 0.02%float)].
Proof.
  assert (H : cases.drive
                (cases.config [0; 0.01; 0.02]%float [false; true; true]) []
              = Ok (evolution.PyNone,
                    [("saving_0001"%string, 0.01%float);
                     ("saving_0002"%string, 0.02%float)]))
    by (vm_compute; reflexivity).
  split; [exact H |].
  unfold cases.drive in H. apply X9_snapshots_at_print_times in H. exact H.
Defined.

Lemma C9_evolution_returns_None_witness :
  examples.drive
    = Ok (evolution.PyNone, [("saving_0001"%string, 0.01%float)]) /\
  (exists final,
      evolution.steps pde.one_step_parabolic pde.one_step_hyperbolic
        (fun F_x F_y position dt => Ok (ode.ode F_x F_y position dt))
        examples.cut_off examples.kappa examples.pirates 2
        (examples.p_density, examples.s_density, examples.police)
      = Ok final) /\
  schedule.snapshots pde.one_step_parabolic pde.one_step_hyperbolic
    (fun F_x F_y position dt => Ok (ode.ode F_x F_y position dt))
    examples.cut_off examples.kappa examples.solution_Save examples.pirates
    1 [1] []
  = Ok [("saving_0001"%string, 0.01%float)].
Proof.
  assert (H : examples.drive
              = Ok (evolution.PyNone, [("saving_0001"%string, 0.01%float)]))
    by (vm_compute; reflexivity).
  split; [exact H |].
  unfold examples.drive in H. apply C9_evolution_returns_None in H.
  destruct H as (_ & (p_final & s_final & police_final & Hs) & Hsnap).
  split; [exists (p_final, s_final, police_final); exact Hs | exact Hsnap].
Defined.

(** ** Edge cases of the orchestrator *)

Section EdgeFacts.
Import numpy scipy_signal evolution.
Context {F : Type} {Sc : Scalar F}.
Variable one_step_parabolic :
  ndarray F -> ndarray F -> ndarray F -> ndarray F -> ndarray F ->
  F -> F -> F -> result (ndarray F).
Variable one_step_hyperbolic :
  ndarray F -> (F -> F) -> ndarray F -> ndarray F -> F -> F -> F ->
  result (ndarray F).
Variable ode : F -> F -> F * F -> F -> result (F * F).
Variable cut_off : ndarray F -> ndarray F -> result (ndarray F).
Variable kappa : ndarray F -> result (ndarray F).

Abbreviation orchestrator :=
  (one_step_evolution one_step_parabolic one_step_hyperbolic ode cut_off kappa).

(** X1: when the pirates, the ships and the two meshes do not share one
    shape the orchestrator raises [AssertionError], whatever the callables,
    the steppers and the other arguments are. *)
Theorem X1_shape_mismatch_is_assertion_error
    (p_density s_density : ndarray F) (police : list (F * F))
    (xx yy p_kernel : ndarray F) (dx dy dt : F) (a : list F)
    (velocity : F -> F) (nu_x nu_y : ndarray F) :
  shape p_density <> shape s_density \/ shape p_density <> shape xx \/
  shape p_density <> shape yy ->
  orchestrator p_density s_density police xx yy p_kernel dx dy dt a velocity
               nu_x nu_y = Raise AssertionError.
Proof.
  intros Hbad. unfold one_step_evolution.
  destruct (shape_eqb (shape p_density) (shape s_density)) eqn:E1; simpl;
    [| reflexivity].
  destruct (shape_eqb (shape p_density) (shape xx)) eqn:E2; simpl;
    [| reflexivity].
  destruct (shape_eqb (shape p_density) (shape yy)) eqn:E3; simpl;
    [| reflexivity].
  apply shape_eqb_true in E1, E2, E3. tauto.
Qed.

(** X2: on fields of one shape with fewer than two rows or fewer than two
    columns the orchestrator raises [ValueError]: [numpy.gradient] cannot
    differentiate the convolution along an axis of a single cell. *)
Theorem X2_mesh_too_small_is_value_error
    (p_density s_density : ndarray F) (police : list (F * F))
    (xx yy p_kernel : ndarray F) (dx dy dt : F) (a : list F)
    (velocity : F -> F) (nu_x nu_y : ndarray F) :
  shape s_density = shape p_density -> shape xx = shape p_density ->
  shape yy = shape p_density ->
  nrows p_density < 2 \/ ncols p_density < 2 ->
  orchestrator p_density s_density police xx yy p_kernel dx dy dt a velocity
               nu_x nu_y = Raise ValueError.
Proof.
  intros Hs Hx Hy Hsmall. unfold one_step_evolution.
  rewrite Hs, Hx, Hy, shape_eqb_refl. simpl.
  unfold pirate_flux, gradient.
  assert (Hr : nrows s_density = nrows p_density) by (injection Hs; auto).
  assert (Hc : ncols s_density = ncols p_density) by (injection Hs; auto).
  simpl nrows. simpl ncols. rewrite Hr, Hc.
  destruct Hsmall as [Hlt | Hlt]; apply Nat.ltb_lt in Hlt; rewrite Hlt.
  - reflexivity.
  - rewrite orb_true_r. reflexivity.
Qed.

(** X3: coefficients beyond the number of police vessels are never read:
    appending any list to a vector of at least [len(police)] coefficients
    changes nothing, neither the result nor the exception. *)
Theorem X3_surplus_coefficients_ignored
    (p_density s_density : ndarray F) (police : list (F * F))
    (xx yy p_kernel : ndarray F) (dx dy dt : F) (a surplus : list F)
    (velocity : F -> F) (nu_x nu_y : ndarray F) :
  length police <= length a ->
  orchestrator p_density s_density police xx yy p_kernel dx dy dt
               (a ++ surplus) velocity nu_x nu_y
  = orchestrator p_density s_density police xx yy p_kernel dx dy dt a
                 velocity nu_x nu_y.
Proof.
  intros Hlen. unfold one_step_evolution.
  assert (Hsrc : police_source cut_off xx yy (a ++ surplus) police
                 = police_source cut_off xx yy a police).
  { unfold police_source. apply for_enum_ext. intros k police_k f Hk.
    unfold index. rewrite nth_error_app1 by (simpl in Hk; lia). reflexivity. }
  rewrite Hsrc. reflexivity.
Qed.

(** X4: without police vessels the orchestrator does not read the
    coefficients at all; when it returns, the list of new positions is
    empty and the source term handed to the parabolic stepper is the
    negation of a zero field. *)
Theorem X4_no_police_vessels
    (p_density s_density : ndarray F)
    (xx yy p_kernel : ndarray F) (dx dy dt : F) (a : list F)
    (velocity : F -> F) (nu_x nu_y : ndarray F)
    (p_new s_new : ndarray F) (police_new : list (F * F)) :
  orchestrator p_density s_density [] xx yy p_kernel dx dy dt a velocity
               nu_x nu_y = Ok (p_new, s_new, police_new) ->
  police_new = [] /\
  (exists div,
      one_step_parabolic p_density xx yy div (amap neg (zeros_like xx))
                         dx dy dt = Ok p_new) /\
  forall a' : list F,
    orchestrator p_density s_density [] xx yy p_kernel dx dy dt a' velocity
                 nu_x nu_y = Ok (p_new, s_new, police_new).
Proof.
  intros H. split; [| split].
  - apply one_step_evolution_ok_inv in H.
    destruct H as (_ & fx & fy & dv & f & vx & vy & _ & _ & _ & _ & _ & _ & Hp).
    simpl in Hp. inversion Hp. reflexivity.
  - apply one_step_evolution_ok_inv in H.
    destruct H as (_ & fx & fy & dv & f & vx & vy & _ & _ & Hf & Hp & _).
    simpl in Hf. inversion Hf; subst f. exists dv. exact Hp.
  - intros a'. rewrite <- H. reflexivity.
Qed.

End EdgeFacts.

Lemma X1_shape_mismatch_is_assertion_error_witness :
  numpy.shape examples.p_density <> numpy.shape cases.s_small /\
  cases.step examples.p_density cases.s_small examples.police examples.xx
             examples.yy [1]%float examples.nu_x examples.nu_y
  = Raise AssertionError.
Proof.
  assert (H : numpy.shape examples.p_density <> numpy.shape cases.s_small)
    by (simpl; discriminate).
  split; [exact H |].
  unfold cases.step. apply X1_shape_mismatch_is_assertion_error.
  left. exact H.
Defined.

Lemma X2_mesh_too_small_is_value_error_witness :
  nrows cases.p_row < 2 /\
  cases.step cases.p_row cases.s_row examples.police cases.xx_row
             cases.yy_row [1]%float cases.nu_row cases.nu_row
  = Raise ValueError.
Proof.
  assert (H : nrows cases.p_row < 2) by (simpl; lia).
  split; [exact H |].
  unfold cases.step. apply X2_mesh_too_small_is_value_error;
    [reflexivity | reflexivity | reflexivity | left; exact H].
Defined.

Lemma X3_surplus_coefficients_ignored_witness :
  length examples.police <= length [1%float] /\
  examples.run ([1] ++ [1.5])%float = examples.run [1]%float.
Proof.
  assert (H : length examples.police <= length [1%float]) by (simpl; lia).
  split; [exact H |].
  unfold examples.run. apply X3_surplus_coefficients_ignored. exact H.
Defined.

Lemma X4_no_police_vessels_witness :
  cases.step examples.p_density examples.s_density [] examples.xx
             examples.yy [1; 2]%float examples.nu_x examples.nu_y
    = Ok cases.out_no_police /\
  snd cases.out_no_police = [] /\
  cases.step examples.p_density examples.s_density [] examples.xx
             examples.yy [] examples.nu_x examples.nu_y
    = Ok cases.out_no_police.
Proof.
  assert (H : cases.step examples.p_density examples.s_density []
                examples.xx examples.yy [1; 2]%float examples.nu_x
                examples.nu_y
              = Ok (fst (fst cases.out_no_police),
                    snd (fst cases.out_no_police), snd cases.out_no_police))
    by (vm_compute; reflexivity).
  split; [exact H |].
  unfold cases.step in H. apply X4_no_police_vessels in H.
  destruct H as (Hnil & _ & Hany).
  split; [exact Hnil | exact (Hany [])].
Defined.

(** ** The direction field and the mollifier *)

Section KernelFacts.
Import numpy kernels.
Context {F : Type} {Sc : Scalar F}.

Lemma shape_meshgrid (x y : list F) :
  shape (fst (meshgrid x y)) = (length y, length x) /\
  shape (snd (meshgrid x y)) = (length y, length x).
Proof. split; reflexivity. Qed.

(** X12: the direction of the ships does not depend on the values of the
    axes: for every [x] and [y] it returns the field of ones and the field
    of zeros of shape [(len(y), len(x))], and never raises. *)
Theorem X12_nu_is_the_unit_field (x y : list F) :
  nu x y = Ok (tab (length y) (length x) (fun _ _ => of_nat 1),
               tab (length y) (length x) (fun _ _ => zero)).
Proof.
  unfold nu, meshgrid. rewrite amap2_ok by reflexivity. simpl bind.
  reflexivity.
Qed.

End KernelFacts.

Section MollifierFacts.
Import numpy kernels.
Local Open Scope float_scope.

Lemma bump_shape (x_mesh y_mesh : ndarray float) (radius radius2 : float) :
  shape x_mesh = shape y_mesh ->
  python.float_pow2 radius = Ok radius2 ->
  exists k, bump x_mesh y_mesh radius = Ok k /\ shape k = shape x_mesh.
Proof.
  intros Hshape Hpow. unfold bump.
  rewrite (amap2_ok PrimFloat.add) by (rewrite !shape_amap; exact Hshape).
  cbn [bind]. rewrite Hpow. cbn [bind].
  rewrite (amap2_ok PrimFloat.sub) by (rewrite !shape_amap; exact Hshape).
  cbn [bind].
  rewrite (amap2_ok PrimFloat.mul) by reflexivity.
  eexists. split; reflexivity.
Qed.

Lemma bump_overflow (x_mesh y_mesh : ndarray float) (radius : float)
    (e : exn) :
  shape x_mesh = shape y_mesh ->
  python.float_pow2 radius = Raise e ->
  bump x_mesh y_mesh radius = Raise e.
Proof.
  intros Hshape Hpow. unfold bump.
  rewrite (amap2_ok PrimFloat.add) by (rewrite !shape_amap; exact Hshape).
  cbn [bind]. rewrite Hpow. reflexivity.
Qed.

Lemma integral_ok (k : ndarray float) (x y : list float) :
  shape k = (length y, length x) ->
  integral k x y
  = Ok (trapz_sum (map (fun i => trapz_sum (row k i) x) (seq 0 (nrows k))) y).
Proof.
  intros Hshape. unfold shape in Hshape. injection Hshape as Hr Hc.
  unfold integral, trapz_rows, trapz.
  rewrite Hc, Nat.eqb_refl. cbn [bind].
  rewrite length_map, length_seq, Hr, Nat.eqb_refl. reflexivity.
Qed.

(** X13: for all axes the mollifier raises [OverflowError] at [radius**2]
    when the radius is finite and its square is not, and returns otherwise;
    what it returns has shape [(len(y), len(x))]: unlike the cut-off it
    reads no cell by a fixed index. *)
Theorem X13_std_moll_returns (x y : list float) (radius : float) :
  (is_finite radius && is_infinity (radius * radius) = true ->
   std_moll x y radius = Raise OverflowError) /\
  (is_finite radius && is_infinity (radius * radius) = false ->
   exists K, std_moll x y radius = Ok K /\ shape K = (length y, length x)).
Proof.
  unfold std_moll, meshgrid. split; intros Hradius.
  - destruct (float_pow2_cases radius) as [[_ Hpow] | [E _]]; [| congruence].
    rewrite (bump_overflow
               (tab (length y) (length x) (fun _ j => nth j x zero))
               (tab (length y) (length x) (fun i _ => nth i y zero))
               radius _ eq_refl Hpow).
    reflexivity.
  - destruct (float_pow2_cases radius) as [[E _] | [_ Hpow]]; [congruence |].
    destruct (bump_shape
                (tab (length y) (length x) (fun _ j => nth j x zero))
                (tab (length y) (length x) (fun i _ => nth i y zero))
                radius _ eq_refl Hpow) as (k & Ek & Hk).
    rewrite Ek. cbn [bind]. rewrite (integral_ok k x y Hk). cbn [bind].
    eexists. split; [reflexivity |]. rewrite shape_amap. exact Hk.
Qed.

End MollifierFacts.

(** ** No pirates, no force of the densities *)

Section NoPiratesForce.
Import numpy evolution.
Local Open Scope float_scope.
Variable cut_off : ndarray float -> ndarray float -> result (ndarray float).

Lemma sum_of_zeros (a : ndarray float) :
  Forall (fun v => is_zero v = true) (cells a) -> is_zero (sum a) = true.
Proof.
  apply (sum_closed (fun v => is_zero v = true)).
  - reflexivity.
  - exact add_zero_zero.
Qed.

(** X5: in binary64, the force of the densities on a police vessel is a
    zero in both coordinates when there are no pirates (every cell of the
    pirate density is a zero) and the other factors are finite: the cells
    of the cut-off, the ship density, the differences between the mesh and
    the position of the vessel, and [dx * dy]. *)
Theorem X5_no_density_no_force
    (p_density s_density xx yy : ndarray float) (dx dy : float)
    (police_i : float * float) (F1_x F1_y : float) :
  force_F1 cut_off p_density s_density xx yy dx dy police_i
    = Ok (F1_x, F1_y) ->
  (forall c,
      cut_off (amap (fun v => fst police_i - v) xx)
              (amap (fun v => snd police_i - v) yy) = Ok c ->
      forall i j, i < nrows p_density -> j < ncols p_density ->
        is_finite (get c i j) = true) ->
  (forall i j, i < nrows p_density -> j < ncols p_density ->
     is_zero (get p_density i j) = true /\
     is_finite (get s_density i j) = true /\
     is_finite (get xx i j - fst police_i) = true /\
     is_finite (get yy i j - snd police_i) = true) ->
  is_finite (dx * dy) = true ->
  is_zero F1_x = true /\ is_zero F1_y = true.
Proof.
  unfold force_F1. intros H Hcut Hcells Hdxdy.
  inv_bind H as c Ec. inv_bind H as t Et. inv_bind H as temp Etemp.
  inv_bind H as tx Etx. inv_bind H as ty Ety. inversion H; subst. clear H.
  specialize (Hcut c Ec).
  pose proof (amap2_shape _ _ _ _ Et) as [Ht1 Ht2].
  pose proof (amap2_shape _ _ _ _ Etemp) as [Htemp1 Htemp2].
  pose proof (amap2_shape _ _ _ _ Etx) as [Htx1 Htx2].
  pose proof (amap2_shape _ _ _ _ Ety) as [Hty1 Hty2].
  rewrite shape_amap in Htx2, Hty2.
  assert (Hrc : nrows c = nrows p_density) by shape_lia.
  assert (Hcc : ncols c = ncols p_density) by shape_lia.
  assert (Hrt : nrows t = nrows p_density) by shape_lia.
  assert (Hct : ncols t = ncols p_density) by shape_lia.
  assert (Hrtemp : nrows temp = nrows p_density) by shape_lia.
  assert (Hctemp : ncols temp = ncols p_density) by shape_lia.
  assert (Hrx : nrows xx = nrows p_density) by shape_lia.
  assert (Hcx : ncols xx = ncols p_density) by shape_lia.
  assert (Hry : nrows yy = nrows p_density) by shape_lia.
  assert (Hcy : ncols yy = ncols p_density) by shape_lia.
  assert (Htemp : forall i j, i < nrows p_density -> j < ncols p_density ->
            is_zero (get temp i j) = true).
  { intros i j Hi Hj. destruct (Hcells i j Hi Hj) as (Hp & Hs & _).
    rewrite (get_amap2 _ _ _ _ _ _ Etemp) by lia.
    rewrite (get_amap2 _ _ _ _ _ _ Et) by lia.
    apply mul_zero_l; [| exact Hs].
    apply mul_zero_r; [apply Hcut; assumption | exact Hp]. }
  split; apply mul_zero_r; try exact Hdxdy; apply sum_of_zeros.
  - pose proof (amap2_ok_inv _ _ _ _ Etx) as [_ ->].
    apply (Forall_cells_tab (fun v => is_zero v = true)).
    intros i j Hi Hj. destruct (Hcells i j) as (_ & _ & Hx & _); try lia.
    rewrite get_amap by lia.
    apply mul_zero_l; [apply Htemp; lia | exact Hx].
  - pose proof (amap2_ok_inv _ _ _ _ Ety) as [_ ->].
    apply (Forall_cells_tab (fun v => is_zero v = true)).
    intros i j Hi Hj. destruct (Hcells i j) as (_ & _ & _ & Hy); try lia.
    rewrite get_amap by lia.
    apply mul_zero_l; [apply Htemp; lia | exact Hy].
Qed.

End NoPiratesForce.

Lemma X5_no_density_no_force_witness :
  exists F1_x F1_y,
    evolution.force_F1 examples.cut_off cases.zeros examples.s_density
      examples.xx examples.yy 0.1%float 0.1%float (0.1, 0.1)%float
    = Ok (F1_x, F1_y) /\
    is_zero F1_x = true /\ is_zero F1_y = true.
Proof.
  destruct (evolution.force_F1 examples.cut_off cases.zeros
              examples.s_density examples.xx examples.yy 0.1%float 0.1%float
              (0.1, 0.1)%float) as [[F1_x F1_y] | e] eqn:E;
    [| vm_compute in E; discriminate E].
  exists F1_x, F1_y. split; [reflexivity |].
  apply (X5_no_density_no_force _ _ _ _ _ _ _ _ _ _ E).
  - intros c Hc. vm_compute in Hc. injection Hc as <-.
    intros i j Hi Hj.
    destruct i as [| [| [| i]]]; try (simpl in Hi; lia);
      destruct j as [| [| [| j]]]; try (simpl in Hj; lia);
      vm_compute; reflexivity.
  - intros i j Hi Hj.
    destruct i as [| [| [| i]]]; try (simpl in Hi; lia);
      destruct j as [| [| [| j]]]; try (simpl in Hj; lia);
      vm_compute; repeat split; reflexivity.
  - reflexivity.
Defined.

(** ** The statements about values at concrete states, in binary64 *)

Section Binary64Runs.
Import numpy evolution.
Local Open Scope float_scope.

Lemma C1_divergence_term_witness :
  cases.step examples.p_density cases.s_corner examples.police examples.xx
             examples.yy [1] examples.nu_x examples.nu_y
    = Ok cases.out_corner /\
  exists flux_x flux_y term f,
    pirate_flux examples.kappa examples.p_density cases.s_corner
                examples.p_kernel 0.1 0.1 = Ok (flux_x, flux_y) /\
    pde.one_step_parabolic examples.p_density examples.xx examples.yy term
      (amap PrimFloat.opp f) 0.1 0.1 0.01
    = Ok (fst (fst cases.out_corner)) /\
    get term 1 1
    = - ((get flux_x 1 2 - get flux_x 1 0) / (2 * 0.1))
      - (get flux_y 2 1 - get flux_y 0 1) / (2 * 0.1) /\
    get term 0 0
    = - ((get flux_x 0 1 - get flux_x 0 0) / 0.1)
      - (get flux_y 1 0 - get flux_y 0 0) / 0.1.
Proof.
  assert (H : cases.step examples.p_density cases.s_corner examples.police
                examples.xx examples.yy [1] examples.nu_x examples.nu_y
              = Ok (fst (fst cases.out_corner), snd (fst cases.out_corner),
                    snd cases.out_corner))
    by (vm_compute; reflexivity).
  split; [exact H |].
  unfold cases.step in H. apply C1_divergence_term in H.
  destruct H as (flux_x & flux_y & trash1 & div1 & div2 & trash2 & term & f
                 & Hflux & _ & _ & Hp & _ & Hcell).
  exists flux_x, flux_y, term, f.
  split; [exact Hflux |]. split; [exact Hp |].
  destruct (Hcell 1%nat 1%nat) as (H11 & Hx11 & Hy11);
    [simpl; lia | simpl; lia |].
  destruct (Hcell 0%nat 0%nat) as (H00 & Hx00 & Hy00);
    [simpl; lia | simpl; lia |].
  rewrite H11, Hx11, Hy11, H00, Hx00, Hy00. split; reflexivity.
Defined.

(** C1 as stated fails at the cells on the boundary of the mesh: at the
    corner cell the term is made of one-sided differences over the spacing,
    and is not the centred quotient over twice the spacing, whether the
    missing neighbour is replaced by the cell itself or, as a negative
    Python index would, by the cell at the other end. *)
Lemma C1_counterexample :
  exists flux_x flux_y term,
    cases.step examples.p_density cases.s_corner examples.police examples.xx
               examples.yy [1] examples.nu_x examples.nu_y
      = Ok cases.out_corner /\
    pirate_flux examples.kappa examples.p_density cases.s_corner
                examples.p_kernel 0.1 0.1 = Ok (flux_x, flux_y) /\
    divergence flux_x flux_y 0.1 0.1 = Ok term /\
    get term 0 0
    = - ((get flux_x 0 1 - get flux_x 0 0) / 0.1)
      - (get flux_y 1 0 - get flux_y 0 0) / 0.1 /\
    (get term 0 0
     =? - ((get flux_x 0 1 - get flux_x 0 0) / (2 * 0.1)
           + (get flux_y 1 0 - get flux_y 0 0) / (2 * 0.1))) = false /\
    (get term 0 0
     =? - ((get flux_x 0 1 - get flux_x 0 2) / (2 * 0.1)
           + (get flux_y 1 0 - get flux_y 2 0) / (2 * 0.1))) = false.
Proof.
  eexists. eexists. eexists.
  split; [vm_compute; reflexivity |].
  split; [vm_compute; reflexivity |].
  split; [vm_compute; reflexivity |].
  split; [vm_compute; reflexivity |].
  split; vm_compute; reflexivity.
Qed.

Lemma C3_police_source_term_witness :
  (cases.step examples.p_density examples.s_density examples.police
              examples.xx examples.yy [0] examples.nu_x examples.nu_y
     = Ok cases.out_zero_a /\
   exists term,
     pde.one_step_parabolic examples.p_density examples.xx examples.yy term
       (tab 3 3 (fun _ _ => (-0)%float)) 0.1 0.1 0.01
     = Ok (fst (fst cases.out_zero_a))) /\
  (cases.step examples.p_density examples.s_density cases.d_o examples.xx
              examples.yy cases.a examples.nu_x examples.nu_y
     = Ok cases.out_d_o /\
   exists term f c0 c1 c2,
     pde.one_step_parabolic examples.p_density examples.xx examples.yy term
       (amap PrimFloat.opp f) 0.1 0.1 0.01
     = Ok (fst (fst cases.out_d_o)) /\
     examples.cut_off (amap (fun v => v - 5) examples.xx)
                      (amap (fun v => v - 11) examples.yy) = Ok c0 /\
     examples.cut_off (amap (fun v => v - 2) examples.xx)
                      (amap (fun v => v - 10) examples.yy) = Ok c1 /\
     examples.cut_off (amap (fun v => v - 7) examples.xx)
                      (amap (fun v => v - 10) examples.yy) = Ok c2 /\
     get (amap PrimFloat.opp f) 1 1
     = - (0 + 1 * get c0 1 1 + 1.5 * get c1 1 1 + 2 * get c2 1 1)).
Proof.
  split.
  2: {
    assert (H : cases.step examples.p_density examples.s_density cases.d_o
                  examples.xx examples.yy cases.a examples.nu_x examples.nu_y
                = Ok (fst (fst cases.out_d_o), snd (fst cases.out_d_o),
                      snd cases.out_d_o))
      by (vm_compute; reflexivity).
    split; [exact H |].
    unfold cases.step in H. apply C3_police_source_term in H.
    destruct H as (term & f & cs & Hp & _ & Hcs & Hcell & _).
    inversion Hcs as [| ? c0 ? cs0 Hc0 Hcs1]; subst.
    inversion Hcs1 as [| ? c1 ? cs1 Hc1 Hcs2]; subst.
    inversion Hcs2 as [| ? c2 ? cs2 Hc2 Hcs3]; subst.
    inversion Hcs3; subst.
    exists term, f, c0, c1, c2.
    split; [exact Hp |]. split; [exact Hc0 |]. split; [exact Hc1 |].
    split; [exact Hc2 |].
    apply (Hcell 1%nat 1%nat); simpl; lia. }
  assert (H : cases.step examples.p_density examples.s_density examples.police
                examples.xx examples.yy [0] examples.nu_x examples.nu_y
              = Ok (fst (fst cases.out_zero_a), snd (fst cases.out_zero_a),
                    snd cases.out_zero_a))
    by (vm_compute; reflexivity).
  split; [exact H |].
  unfold cases.step in H. apply C3_police_source_term in H.
  destruct H as (term & f & cs & Hp & Hshape & Hcs & _ & Hzero).
  exists term.
  assert (Ha : Forall (fun a_i => is_zero a_i = true) [0])
    by (constructor; [reflexivity | constructor]).
  assert (Hfin : Forall (fun c_i => forall r c : nat,
                           (r < nrows examples.xx)%nat ->
                           (c < ncols examples.xx)%nat ->
                           is_finite (get c_i r c) = true) cs).
  { inversion Hcs as [| ? c0 ? cs0 Hc0 Hrest]; subst.
    inversion Hrest; subst. constructor; [| constructor].
    vm_compute in Hc0. injection Hc0 as <-.
    intros r' c' Hr' Hc'.
    destruct r' as [| [| [| r']]]; try (simpl in Hr'; lia);
      destruct c' as [| [| [| c']]]; try (simpl in Hc'; lia);
      vm_compute; reflexivity. }
  specialize (Hzero Ha Hfin).
  assert (Hf : amap PrimFloat.opp f = tab 3 3 (fun _ _ => (-0)%float)).
  { unfold shape in Hshape. injection Hshape as Hr Hc.
    simpl in Hr, Hc. unfold amap. rewrite Hr, Hc.
    apply tab_ext. intros r c Hr' Hc'.
    rewrite <- get_amap by lia. apply Hzero; simpl; lia. }
  rewrite <- Hf. exact Hp.
Defined.

(** C3 as stated fails: with the one coefficient equal to zero and the
    vessel at the finite position [(1e200, 0.1)], the cut-off of the
    configuration is not a number at the cells of the mesh, the orchestrator
    returns, and the source term is not a number instead of zero. *)
Lemma C3_counterexample :
  Forall (fun a_i => a_i = 0) [0] /\
  cases.step examples.p_density examples.s_density cases.police_far
             examples.xx examples.yy [0] examples.nu_x examples.nu_y
    = Ok cases.out_far /\
  exists f,
    police_source examples.cut_off examples.xx examples.yy [0]
                  cases.police_far = Ok f /\
    is_nan (get (amap PrimFloat.opp f) 1 1) = true.
Proof.
  split; [constructor; [reflexivity | constructor] |].
  split; [vm_compute; reflexivity |].
  eexists. split; vm_compute; reflexivity.
Qed.

Lemma C5_cohesion_force_witness :
  cases.step examples.p_density examples.s_density cases.d_o examples.xx
             examples.yy cases.a examples.nu_x examples.nu_y
    = Ok cases.out_d_o /\
  Forall2 (fun police_i q =>
             exists F1_x F1_y,
               force_F1 examples.cut_off examples.p_density examples.s_density
                        examples.xx examples.yy 0.1 0.1 police_i
                 = Ok (F1_x, F1_y) /\
               ode.ode (F1_x + (0 + 5 + 2 + 7 - 3 * fst police_i) + 0)
                       (F1_y + (0 + 11 + 10 + 10 - 3 * snd police_i) + 0)
                       police_i 0.01 = q)
          cases.d_o (snd cases.out_d_o) /\
  cases.step cases.zeros examples.s_density examples.police examples.xx
             examples.yy [1] examples.nu_x examples.nu_y
    = Ok cases.out_single /\
  exists x' y',
    snd cases.out_single = [(x', y')] /\
    (x' =? 0.1) = true /\ (y' =? 0.1) = true.
Proof.
  assert (H : cases.step examples.p_density examples.s_density cases.d_o
                examples.xx examples.yy cases.a examples.nu_x examples.nu_y
              = Ok (fst (fst cases.out_d_o), snd (fst cases.out_d_o),
                    snd cases.out_d_o))
    by (vm_compute; reflexivity).
  assert (H1 : cases.step cases.zeros examples.s_density examples.police
                 examples.xx examples.yy [1] examples.nu_x examples.nu_y
               = Ok (fst (fst cases.out_single), snd (fst cases.out_single),
                     snd cases.out_single))
    by (vm_compute; reflexivity).
  split; [exact H |]. split; [| split; [exact H1 |]].
  - unfold cases.step in H. apply C5_cohesion_force in H.
    destruct H as [Hall _].
    eapply Forall2_impl; [| exact Hall].
    intros police_i q (F1_x & F1_y & HF1 & Hq).
    exists F1_x, F1_y. split; [exact HF1 |].
    injection Hq as <-. reflexivity.
  - unfold cases.step in H1. apply C5_cohesion_force in H1.
    destruct H1 as [_ Hsingle].
    destruct (Hsingle 0.1 0.1 eq_refl eq_refl eq_refl) as [_ Hstay].
    destruct (force_F1 examples.cut_off cases.zeros examples.s_density
                examples.xx examples.yy 0.1 0.1 (0.1, 0.1))
      as [[F1_x F1_y] | e] eqn:E; [| vm_compute in E; discriminate E].
    apply (Hstay F1_x F1_y eq_refl).
    + vm_compute in E. injection E as <- _. reflexivity.
    + vm_compute in E. injection E as _ <-. reflexivity.
    + reflexivity.
    + intros F_x F_y q h. reflexivity.
Defined.

(** C5 as stated fails for a vessel at infinity: the orchestrator returns,
    and the cohesion force on the single vessel is not a number instead of
    zero. *)
Lemma C5_counterexample :
  length cases.police_inf = 1%nat /\
  cases.step examples.p_density examples.s_density cases.police_inf
             examples.xx examples.yy [1] examples.nu_x examples.nu_y
    = Ok cases.out_inf /\
  is_nan (fst (force_F2 (police_sum fst cases.police_inf)
                        (police_sum snd cases.police_inf)
                        (length cases.police_inf) (infinity, 0.1))) = true.
Proof.
  split; [reflexivity |]. split; vm_compute; reflexivity.
Qed.


End Binary64Runs.

Lemma X10_cut_off_needs_two_cells_witness :
  parameters.cut_off_C cases.xx_row cases.yy_row parameters.radius_default
    = Raise IndexError /\
  parameters.cut_off_C cases.xx_row cases.yy_row 1e200%float
    = Raise OverflowError.
Proof.
  split.
  - apply (X10_cut_off_needs_two_cells cases.xx_row cases.yy_row
             parameters.radius_default); [reflexivity | simpl; lia].
  - apply (X10_cut_off_needs_two_cells cases.xx_row cases.yy_row
             1e200%float); [reflexivity | simpl; lia].
Defined.

Lemma X11_cut_off_keeps_shape_witness :
  exists k,
    parameters.cut_off_C examples.xx examples.yy parameters.radius_default
      = Ok k /\
    numpy.shape k = numpy.shape examples.xx /\ numpy.wf k.
Proof.
  apply X11_cut_off_keeps_shape;
    [reflexivity | simpl; lia | simpl; lia | reflexivity].
Defined.

Lemma X13_std_moll_returns_witness :
  kernels.std_moll [0; 0.1; 0.2]%float [0; 0.1]%float 1e200%float
    = Raise OverflowError /\
  exists K,
    kernels.std_moll [0; 0.1; 0.2]%float [0; 0.1]%float 0.5%float = Ok K /\
    numpy.shape K = (2, 3).
Proof.
  split.
  - apply (X13_std_moll_returns [0; 0.1; 0.2]%float [0; 0.1]%float
             1e200%float). reflexivity.
  - apply (X13_std_moll_returns [0; 0.1; 0.2]%float [0; 0.1]%float
             0.5%float). reflexivity.
Defined.
